(** * Build orchestration of the documentation generator (src/app/application.ts)

    A shallow embedding of the [Application] class: the build state is an
    explicit [World]; every callback the source hands to a promise, to
    [fs.copy] or to an engine is a [Task]; the JavaScript event loop
    (run-to-completion of the current block, then the microtask queue, then
    one completed I/O operation) is the function [step].  The collaborators
    that live outside the file (file engine, markdown engine, crawler, graph
    renderer, HTML renderer, Node's [path]) are the fields of [Env]. *)

From Stdlib Require Import Ascii String List Bool Arith Lia.
From stdpp Require Import base list strings pretty.
Import ListNotations.
Local Open Scope string_scope.
Local Open Scope list_scope.

(** ** Data model *)

(** A cross reference held by a module: [{ name, type }]. *)
Record Ref := mkRef { ref_name : string; ref_type : string }.

Record NgModule := mkNgModule {
  m_name : string; m_id : string; m_file : string;
  declarations : list Ref; bootstrap : list Ref; imports : list Ref;
  exports : list Ref; providers : list Ref;
  m_readme : option string; m_graph : option string }.

Record Component := mkComponent {
  c_name : string; c_id : string; c_file : string;
  templateUrl : string; templateData : option string;
  c_readme : option string }.

(** Directives, injectables, pipes, classes and interfaces: the orchestrator
    only reads [name], [id], [file] and writes [readme]. *)
Record Item := mkItem {
  i_name : string; i_id : string; i_file : string; i_readme : option string }.

Record Miscellaneous := mkMisc {
  variables : list string; functions : list string;
  typealiases : list string; enumerations : list string }.

Record RouteTree := mkRouteTree { children : list string }.

(** The named groups of a crawl result, of the registry and of [mainData]. *)
Record Collection := mkCollection {
  modules : list NgModule;
  components : list Component;
  directives : list Item;
  injectables : list Item;
  pipes : list Item;
  classes : list Item;
  interfaces : list Item;
  miscellaneous : Miscellaneous;
  routes : option RouteTree }.

Definition emptyMisc : Miscellaneous := mkMisc [] [] [] [].
Definition emptyCollection : Collection :=
  mkCollection [] [] [] [] [] [] [] emptyMisc None.

(** The five groups that are prepared by textually identical functions. *)
Inductive Kind := KDirective | KInjectable | KPipe | KClass | KInterface.

Definition getItems (k : Kind) (c : Collection) : list Item :=
  match k with
  | KDirective => directives c
  | KInjectable => injectables c
  | KPipe => pipes c
  | KClass => classes c
  | KInterface => interfaces c
  end.

Definition set_modules (l : list NgModule) (c : Collection) : Collection :=
  mkCollection l (components c) (directives c) (injectables c) (pipes c)
    (classes c) (interfaces c) (miscellaneous c) (routes c).
Definition set_components (l : list Component) (c : Collection) : Collection :=
  mkCollection (modules c) l (directives c) (injectables c) (pipes c)
    (classes c) (interfaces c) (miscellaneous c) (routes c).
Definition set_miscellaneous (m : Miscellaneous) (c : Collection) : Collection :=
  mkCollection (modules c) (components c) (directives c) (injectables c)
    (pipes c) (classes c) (interfaces c) m (routes c).
Definition set_routes (r : option RouteTree) (c : Collection) : Collection :=
  mkCollection (modules c) (components c) (directives c) (injectables c)
    (pipes c) (classes c) (interfaces c) (miscellaneous c) r.
Definition setItems (k : Kind) (l : list Item) (c : Collection) : Collection :=
  match k with
  | KDirective =>
      mkCollection (modules c) (components c) l (injectables c) (pipes c)
        (classes c) (interfaces c) (miscellaneous c) (routes c)
  | KInjectable =>
      mkCollection (modules c) (components c) (directives c) l (pipes c)
        (classes c) (interfaces c) (miscellaneous c) (routes c)
  | KPipe =>
      mkCollection (modules c) (components c) (directives c) (injectables c) l
        (classes c) (interfaces c) (miscellaneous c) (routes c)
  | KClass =>
      mkCollection (modules c) (components c) (directives c) (injectables c)
        (pipes c) l (interfaces c) (miscellaneous c) (routes c)
  | KInterface =>
      mkCollection (modules c) (components c) (directives c) (injectables c)
        (pipes c) (classes c) l (miscellaneous c) (routes c)
  end.

(** [COMPODOC_DEFAULTS.PAGE_TYPES]. *)
Inductive PageType := ROOT | INTERNAL.

(** The backing entry of a page.  The source stores the entry object itself
    ([module: this.configuration.mainData.modules[i]]), which later stages
    still mutate (graph, template data); the page therefore holds the
    position of the entry in its [mainData] list, not a copy. *)
Inductive Payload :=
| NoEntry
| ModuleAt (i : nat)
| ComponentAt (i : nat)
| ItemAt (k : Kind) (i : nat)
| Markdown (text : string)
| AdditionalPage (text : string).

(** A page descriptor.  [p_path] and [p_filename] are only tested for
    truthiness and concatenated, so the empty string stands for an absent
    field. *)
Record Page := mkPage {
  p_name : string; p_id : string; p_path : string; p_filename : string;
  p_context : string; p_depth : option nat; p_pageType : option PageType;
  p_payload : Payload }.

(** The configuration flags the orchestrator reads and never writes after the
    constructor. *)
Record Options := mkOptions {
  exportFormat : string;
  disableGraph : bool;
  disableCoverage : bool;
  includes : string;
  includesFolder : string;
  serve : bool;
  watch : bool;
  assetsFolder : string;
  extTheme : string;
  customFavicon : string;
  theme : string;
  port : string;
  tsconfig : string }.

Record MainData := mkMainData {
  options : Options;
  output : string;
  disableMainGraph : bool;
  mainGraph : option string;
  documentationMainName : string;
  documentationMainDescription : string;
  angularVersion : string;
  readme : bool;
  markdowns : list string;
  routesLength : nat;
  data : Collection;
  additionalPages : list Page }.

Record Configuration := mkConfiguration {
  mainData : MainData;
  pages : list Page }.

(** The registry: the current collection and the unfiltered module records
    the graph stage consults. *)
Record Deps := mkDeps { current : Collection; rawModules : list NgModule }.

(** What [searchEngine.indexPage] receives. *)
Record Doc := mkDoc { infos : Page; rawData : string; url : string }.

Record Search := mkSearch {
  documentsStore : list Doc;
  searchIndexJson : option (list Doc) }.

Inductive PromiseState := Pending | Resolved | Rejected.

Record Proc := mkProc {
  unhandledRejectionListeners : nat;
  uncaughtExceptionListeners : nat;
  generationPromise : PromiseState;
  exitCode : option nat }.

Record AppState := mkAppState {
  files : option (list string);
  updatedFiles : list string;
  watchChangedFiles : list string;
  isWatching : bool }.

Inductive Level := INFO | WARN | ERROR.

(** Observable effects, in the order the program performs them. *)
Inductive Event :=
| Log (l : Level) (msg : string)
| Render (page : string)
| IndexPage (pageUrl : string)
| WriteFile (path : string)
| NgdInit (path : string)
| RenderGraph (file path mode : string)
| ReadGraph (path : string)
| GenerateSearchIndexJson (outputFolder : string)
| Copy (src dst : string)
| LiveServerStart (root : string)
| Export (outputFolder : string)
| UnhandledRejection
| Exit (code : nat).

(** ** Collaborators *)

(** The settlement of a promise or of a node-style callback. *)
Inductive Result (A : Type) := Ok (a : A) | Err (msg : string).
Arguments Ok {A} a.
Arguments Err {A} msg.

Record PackageJson := mkPackageJson {
  pj_name : option string; pj_description : option string }.

Record SummaryChild := mkSummaryChild { sc_title : string; sc_file : string }.
Record SummaryItem := mkSummaryItem {
  s_title : string; s_file : string; s_children : list SummaryChild }.

(** Everything [application.ts] imports: Node's [process], [path] and string
    built-ins, [COMPODOC_DEFAULTS], and the engines.  An asynchronous
    collaborator is given by the settlement it will deliver. *)
Record Env := mkEnv {
  cwd : string;
  sep : string;
  extname : string -> string;
  dirname : string -> string;
  resolve : string -> string;
  stringMatch : string -> string -> bool;
  stringReplace : string -> string -> string -> string;
  resourcesDir : string;
  finalTime : string;
  defaultExportFormat : string;
  exportFormatsSupported : list string;
  defaultTitle : string;
  fileGet : string -> Result string;
  fileWrite : string -> string -> Result unit;
  existsSync : string -> bool;
  fsCopy : string -> string -> Result unit;
  parsePackageJson : string -> option PackageJson;
  parseSummary : string -> option (list SummaryItem);
  getAngularVersionOfProject : PackageJson -> string;
  getTraditionalMarkdown : string -> Result string;
  hasNeighbourReadmeFile : string -> bool;
  readNeighbourReadmeFile : string -> string;
  marked : string -> string;
  cleanNameWithoutSpaceAndToLowerCase : string -> string;
  findMainSourceFolder : list string -> string;
  htmlInit : Result unit;
  htmlRender : MainData -> Page -> string;
  getDependencies : list string -> Collection;
  engineUpdate : Deps -> Collection -> Deps;
  routerRoutesLength : nat;
  generateRoutesIndex : string -> option RouteTree -> Result unit;
  coverageCalculate : MainData -> Result (list Page);
  exportEngineExport : string -> MainData -> Result unit;
  ngdRenderGraph : string -> string -> string -> Result unit;
  ngdReadGraph : string -> string -> Result string;
  searchWrite : string -> list Doc -> Result unit }.

(** ** Callbacks *)

(** The closures pushed on [actions] by the four orchestrators. *)
Inductive Action :=
| APrepareModules
| APrepareComponents
| APrepareItems (k : Kind)
| APrepareRoutes
| APrepareMiscellaneous
| APrepareCoverage
| APrepareExternalIncludes
| AProcessMarkdowns.

(** The [.then] callback given to [promiseSequential(actions)]. *)
Inductive Kont := KEverything | KJustAFewThings | KRootMarkdowns | KExternalDocumentation.

(** What waits for the promise an action returns. *)
Inductive Cont :=
| ContDependencies
| ContSeq (rest : list Action) (k : Kont).

(** The two [Promise.all] call sites. *)
Inductive Phase := MainPages | AdditionalPages.

(** One constructor per callback of the source, with the variables its
    closure captures and the settlement it is called with. *)
Inductive Task :=
| THtmlInit (r : Result unit)
| TPackageJson (r : Result string)
| TMarkdown (i : nat) (r : Result string) (c : Cont)
| TGetDependenciesData
| TSeq (acts : list Action) (k : Kont)
| TTemplate (i : nat) (r : Result string) (c : Cont)
| TRoutesIndex (r : Result unit) (c : Cont)
| TCoverage (r : Result (list Page)) (c : Cont)
| TSummary (r : Result string) (c : Cont)
| TInclude (items : list SummaryItem) (i : nat) (r : Result string) (c : Cont)
| TIncludeChild (items : list SummaryItem) (i j : nat) (r : Result string) (c : Cont)
| TExported (r : Result unit)
| TMainGraphRendered (finalMainGraphPath : string) (r : Result unit)
| TMainGraphRead (r : Result string)
| TModuleGraphRendered (i : nat) (name finalPath : string) (r : Result unit)
| TModuleGraphRead (i : nat) (r : Result string)
| TPageWritten (ph : Phase) (all : nat) (name : string) (r : Result unit)
| TAllThen (ph : Phase)
| TIndexWritten (ph : Phase) (docs : list Doc) (r : Result unit)
| TAssetsCopied (r : Result unit)
| TResourcesCopied (finalOutput : string) (r : Result unit)
| TThemeCopied (r : Result unit)
| TFaviconCopied (r : Result unit).

(** ** Build state *)

(** The bookkeeping of one [Promise.all]: how many of its input promises are
    still unfulfilled, and whether it has already been rejected. *)
Record AllCell := mkAllCell { remaining : nat; rejected : bool }.

Record World := mkWorld {
  appState : AppState;
  configuration : Configuration;
  dependenciesEngine : Deps;
  searchEngine : Search;
  proc : Proc;
  promiseAlls : list AllCell;
  microtasks : list Task;
  pendingIO : list Task;
  trace : list Event }.

Definition set_appState (a : AppState) (w : World) : World :=
  mkWorld a (configuration w) (dependenciesEngine w) (searchEngine w) (proc w)
    (promiseAlls w) (microtasks w) (pendingIO w) (trace w).
Definition set_configuration (c : Configuration) (w : World) : World :=
  mkWorld (appState w) c (dependenciesEngine w) (searchEngine w) (proc w)
    (promiseAlls w) (microtasks w) (pendingIO w) (trace w).
Definition set_dependenciesEngine (d : Deps) (w : World) : World :=
  mkWorld (appState w) (configuration w) d (searchEngine w) (proc w)
    (promiseAlls w) (microtasks w) (pendingIO w) (trace w).
Definition set_searchEngine (s : Search) (w : World) : World :=
  mkWorld (appState w) (configuration w) (dependenciesEngine w) s (proc w)
    (promiseAlls w) (microtasks w) (pendingIO w) (trace w).
Definition set_proc (p : Proc) (w : World) : World :=
  mkWorld (appState w) (configuration w) (dependenciesEngine w) (searchEngine w) p
    (promiseAlls w) (microtasks w) (pendingIO w) (trace w).
Definition set_promiseAlls (l : list AllCell) (w : World) : World :=
  mkWorld (appState w) (configuration w) (dependenciesEngine w) (searchEngine w)
    (proc w) l (microtasks w) (pendingIO w) (trace w).
Definition set_microtasks (l : list Task) (w : World) : World :=
  mkWorld (appState w) (configuration w) (dependenciesEngine w) (searchEngine w)
    (proc w) (promiseAlls w) l (pendingIO w) (trace w).
Definition set_pendingIO (l : list Task) (w : World) : World :=
  mkWorld (appState w) (configuration w) (dependenciesEngine w) (searchEngine w)
    (proc w) (promiseAlls w) (microtasks w) l (trace w).
Definition set_trace (t : list Event) (w : World) : World :=
  mkWorld (appState w) (configuration w) (dependenciesEngine w) (searchEngine w)
    (proc w) (promiseAlls w) (microtasks w) (pendingIO w) t.

(** [mainData] and [pages] updates. *)
Definition set_mainData (m : MainData) (w : World) : World :=
  set_configuration (mkConfiguration m (pages (configuration w))) w.
Definition set_pages (l : list Page) (w : World) : World :=
  set_configuration (mkConfiguration (mainData (configuration w)) l) w.

Definition md (w : World) : MainData := mainData (configuration w).
Definition opts (w : World) : Options := options (md w).

Definition md_set_output (s : string) (m : MainData) : MainData :=
  mkMainData (options m) s (disableMainGraph m) (mainGraph m)
    (documentationMainName m) (documentationMainDescription m) (angularVersion m)
    (readme m) (markdowns m) (routesLength m) (data m) (additionalPages m).
Definition md_set_disableMainGraph (b : bool) (m : MainData) : MainData :=
  mkMainData (options m) (output m) b (mainGraph m)
    (documentationMainName m) (documentationMainDescription m) (angularVersion m)
    (readme m) (markdowns m) (routesLength m) (data m) (additionalPages m).
Definition md_set_mainGraph (g : option string) (m : MainData) : MainData :=
  mkMainData (options m) (output m) (disableMainGraph m) g
    (documentationMainName m) (documentationMainDescription m) (angularVersion m)
    (readme m) (markdowns m) (routesLength m) (data m) (additionalPages m).
Definition md_set_package (n d v : string) (m : MainData) : MainData :=
  mkMainData (options m) (output m) (disableMainGraph m) (mainGraph m) n d v
    (readme m) (markdowns m) (routesLength m) (data m) (additionalPages m).
Definition md_set_readme (b : bool) (m : MainData) : MainData :=
  mkMainData (options m) (output m) (disableMainGraph m) (mainGraph m)
    (documentationMainName m) (documentationMainDescription m) (angularVersion m)
    b (markdowns m) (routesLength m) (data m) (additionalPages m).
Definition md_set_markdowns (l : list string) (m : MainData) : MainData :=
  mkMainData (options m) (output m) (disableMainGraph m) (mainGraph m)
    (documentationMainName m) (documentationMainDescription m) (angularVersion m)
    (readme m) l (routesLength m) (data m) (additionalPages m).
Definition md_set_routesLength (n : nat) (m : MainData) : MainData :=
  mkMainData (options m) (output m) (disableMainGraph m) (mainGraph m)
    (documentationMainName m) (documentationMainDescription m) (angularVersion m)
    (readme m) (markdowns m) n (data m) (additionalPages m).
Definition md_set_data (c : Collection) (m : MainData) : MainData :=
  mkMainData (options m) (output m) (disableMainGraph m) (mainGraph m)
    (documentationMainName m) (documentationMainDescription m) (angularVersion m)
    (readme m) (markdowns m) (routesLength m) c (additionalPages m).
Definition md_set_additionalPages (l : list Page) (m : MainData) : MainData :=
  mkMainData (options m) (output m) (disableMainGraph m) (mainGraph m)
    (documentationMainName m) (documentationMainDescription m) (angularVersion m)
    (readme m) (markdowns m) (routesLength m) (data m) l.

Definition set_data (c : Collection) (w : World) : World :=
  set_mainData (md_set_data c (md w)) w.

(** ** Logger, queues, process *)

Definition emit (ev : Event) (w : World) : World := set_trace (trace w ++ [ev]) w.

Definition info (msg : string) : World -> World := emit (Log INFO msg).
Definition warn (msg : string) : World -> World := emit (Log WARN msg).
Definition error (msg : string) : World -> World := emit (Log ERROR msg).

(** A promise reaction: runs after the current block has finished. *)
Definition enqueue (t : Task) (w : World) : World :=
  set_microtasks (microtasks w ++ [t]) w.

(** An operation handed to the operating system; its callback runs when the
    event loop picks it. *)
Definition startIO (t : Task) (w : World) : World :=
  set_pendingIO (pendingIO w ++ [t]) w.

Definition generationPromiseResolve (w : World) : World :=
  match generationPromise (proc w) with
  | Pending =>
      set_proc (mkProc (unhandledRejectionListeners (proc w))
                  (uncaughtExceptionListeners (proc w)) Resolved (exitCode (proc w))) w
  | _ => w
  end.

Definition generationPromiseReject (w : World) : World :=
  match generationPromise (proc w) with
  | Pending =>
      set_proc (mkProc (unhandledRejectionListeners (proc w))
                  (uncaughtExceptionListeners (proc w)) Rejected (exitCode (proc w))) w
  | _ => w
  end.

(** [process.exit(code)]: the first exit wins, nothing runs afterwards. *)
Definition processExit (code : nat) (w : World) : World :=
  let w := emit (Exit code) w in
  set_proc (mkProc (unhandledRejectionListeners (proc w))
              (uncaughtExceptionListeners (proc w)) (generationPromise (proc w))
              (Some code)) w.

Definition fatalMessage : string :=
  "Sorry, but there was a problem during parsing or generation of the documentation. Please fill an issue on github. (https://github.com/compodoc/compodoc/issues/new)".

Definition unhandledRejectionListener (w : World) : World :=
  processExit 1 (error fatalMessage w).

Definition uncaughtExceptionListener (err : string) (w : World) : World :=
  processExit 1 (error fatalMessage (error err w)).

(** A rejected promise nobody listens to: Node emits [unhandledRejection];
    the listener of [generate], when installed, terminates the process. *)
Definition unhandledRejection (w : World) : World :=
  let w := emit UnhandledRejection w in
  match unhandledRejectionListeners (proc w) with
  | O => w
  | S _ => unhandledRejectionListener w
  end.

(** [process.on] appends the listener, [process.removeListener] removes one
    registration of it. *)
Definition installListeners (w : World) : World :=
  set_proc (mkProc (S (unhandledRejectionListeners (proc w)))
              (S (uncaughtExceptionListeners (proc w)))
              (generationPromise (proc w)) (exitCode (proc w))) w.

Definition endCallback (w : World) : World :=
  set_proc (mkProc (Nat.pred (unhandledRejectionListeners (proc w)))
              (Nat.pred (uncaughtExceptionListeners (proc w)))
              (generationPromise (proc w)) (exitCode (proc w))) w.

(** ** String built-ins *)

(** [s.lastIndexOf('/') === -1] is [negb (hasSlash s)]. *)
Fixpoint hasSlash (s : string) : bool :=
  match s with
  | EmptyString => false
  | String c rest => if Ascii.eqb c "/"%char then true else hasSlash rest
  end.

(** [s.charAt(s.length - 1)], the empty string when [s] is empty. *)
Fixpoint lastChar (s : string) : string :=
  match s with
  | EmptyString => EmptyString
  | String c EmptyString => String c EmptyString
  | String _ rest => lastChar rest
  end.

Fixpoint toUpperCase (s : string) : string :=
  match s with
  | EmptyString => EmptyString
  | String c rest =>
      let n := Ascii.nat_of_ascii c in
      String (if Nat.leb 97 n && Nat.leb n 122 then Ascii.ascii_of_nat (n - 32) else c)
             (toUpperCase rest)
  end.

(** A string is truthy when it is not empty. *)
Definition truthy (s : string) : bool := negb (s =? "").

(** ** Configuration *)

(** Modelled from the spec: [Configuration.addPage] (configuration.ts is not
    under src) appends the descriptor to the ordered page list of the build
    state; [addAdditionalPage] does the same for the externally included
    pages. *)
Definition addPage (p : Page) (w : World) : World :=
  set_pages (pages (configuration w) ++ [p]) w.

Definition addAdditionalPage (p : Page) (w : World) : World :=
  set_mainData (md_set_additionalPages (additionalPages (md w) ++ [p]) (md w)) w.

(** Modelled from the spec: [Configuration.resetPages] and
    [resetAdditionalPages] empty the respective list, so that the page
    descriptors are fully regenerated on every rebuild. *)
Definition resetPages (w : World) : World := set_pages [] w.

Definition resetAdditionalPages (w : World) : World :=
  set_mainData (md_set_additionalPages [] (md w)) w.

Definition rootMarkdownNames : list string :=
  ["index"; "changelog"; "contributing"; "license"; "todo"].

(** Modelled from the spec: [Configuration.resetRootMarkdownPages] drops the
    pages of the project-root documents before the markdown ingestion is run
    again. *)
Definition resetRootMarkdownPages (w : World) : World :=
  let w := set_pages
             (List.filter (fun p => negb (existsb (String.eqb (p_name p)) rootMarkdownNames))
                (pages (configuration w))) w in
  set_mainData (md_set_markdowns [] (md w)) w.

(** ** Symbol registry *)

(** Modelled from the spec: [DependenciesEngine.init] replaces the entire
    collection; the raw module records are the modules as crawled. *)
Definition engineInit (c : Collection) : Deps := mkDeps c (modules c).

(** Modelled from the spec: [DependenciesEngine.getRawModule] finds the raw
    record by name; [undefined] when there is none. *)
Definition getRawModule (d : Deps) (name : string) : option NgModule :=
  List.find (fun m => m_name m =? name) (rawModules d).

(** ** Page planner *)

Definition someName {A : Type} (name : A -> string) (l : list A) (n : string) : bool :=
  existsb (fun x => name x =? n) l.

(** The [switch (metaDataItem.type)] of [prepareModules]. *)
Definition keepReference (d : Deps) (metaDataItem : Ref) : bool :=
  if ref_type metaDataItem =? "directive" then
    someName i_name (directives (current d)) (ref_name metaDataItem)
  else if ref_type metaDataItem =? "component" then
    someName c_name (components (current d)) (ref_name metaDataItem)
  else if ref_type metaDataItem =? "module" then
    someName m_name (modules (current d)) (ref_name metaDataItem)
  else if ref_type metaDataItem =? "pipe" then
    someName i_name (pipes (current d)) (ref_name metaDataItem)
  else true.

Definition keepProvider (d : Deps) (provider : Ref) : bool :=
  someName i_name (injectables (current d)) (ref_name provider).

Definition filterModule (d : Deps) (ngModule : NgModule) : NgModule :=
  mkNgModule (m_name ngModule) (m_id ngModule) (m_file ngModule)
    (List.filter (keepReference d) (declarations ngModule))
    (List.filter (keepReference d) (bootstrap ngModule))
    (List.filter (keepReference d) (imports ngModule))
    (List.filter (keepReference d) (exports ngModule))
    (List.filter (keepProvider d) (providers ngModule))
    (m_readme ngModule) (m_graph ngModule).

Definition withModuleReadme (r : string) (m : NgModule) : NgModule :=
  mkNgModule (m_name m) (m_id m) (m_file m) (declarations m) (bootstrap m)
    (imports m) (exports m) (providers m) (Some r) (m_graph m).

Definition withModuleGraph (g : string) (m : NgModule) : NgModule :=
  mkNgModule (m_name m) (m_id m) (m_file m) (declarations m) (bootstrap m)
    (imports m) (exports m) (providers m) (m_readme m) (Some g).

Definition withItemReadme (r : string) (x : Item) : Item :=
  mkItem (i_name x) (i_id x) (i_file x) (Some r).

Definition withComponentReadme (r : string) (c : Component) : Component :=
  mkComponent (c_name c) (c_id c) (c_file c) (templateUrl c) (templateData c) (Some r).

Definition withTemplateData (t : string) (c : Component) : Component :=
  mkComponent (c_name c) (c_id c) (c_file c) (templateUrl c) (Some t) (c_readme c).

Definition readmeOf (e : Env) (file : string) : string :=
  marked e (readNeighbourReadmeFile e file).

Definition readmeFound (name : string) : string :=
  " " +:+ name +:+ " has a README file, include it".

(** The [loop] of [prepareModules], from index [i] on; [ms] is the part of
    [mainData.modules] not yet visited. *)
Fixpoint modulesLoop (e : Env) (ms : list NgModule) (i : nat) (w : World) : World :=
  match ms with
  | [] => w
  | m :: rest =>
      let w :=
        if hasNeighbourReadmeFile e (m_file m) then
          let w := info (readmeFound (m_name m)) w in
          set_data (set_modules
                      (alter (withModuleReadme (readmeOf e (m_file m))) i (modules (data (md w))))
                      (data (md w))) w
        else w in
      let w := addPage (mkPage (m_name m) (m_id m) "modules" "" "module"
                          (Some 1) (Some INTERNAL) (ModuleAt i)) w in
      modulesLoop e rest (S i) w
  end.

(** [prepareModules(someModules?)]: the promise it returns is resolved when
    the function returns. *)
Definition prepareModules (e : Env) (someModules : option (list NgModule)) (w : World) : World :=
  let w := info "Prepare modules" w in
  let d := dependenciesEngine w in
  let _modules := match someModules with Some l => l | None => modules (current d) end in
  let filtered := map (filterModule d) _modules in
  (* the filter assigns to the fields of the very records of the registry *)
  let w := match someModules with
           | Some _ => w
           | None => set_dependenciesEngine
                       (mkDeps (set_modules filtered (current d)) (rawModules d)) w
           end in
  let w := set_data (set_modules filtered (data (md w))) w in
  let w := addPage (mkPage "modules" "modules" "" "" "modules"
                      (Some 0) (Some ROOT) NoEntry) w in
  modulesLoop e (modules (data (md w))) 0 w.

Definition kindPlural (k : Kind) : string :=
  match k with
  | KDirective => "directives"
  | KInjectable => "injectables"
  | KPipe => "pipes"
  | KClass => "classes"
  | KInterface => "interfaces"
  end.

Definition kindContext (k : Kind) : string :=
  match k with
  | KDirective => "directive"
  | KInjectable => "injectable"
  | KPipe => "pipe"
  | KClass => "class"
  | KInterface => "interface"
  end.

(** The [loop] shared by [prepareDirectives], [prepareInjectables],
    [preparePipes], [prepareClasses] and [prepareInterfaces]. *)
Fixpoint itemsLoop (e : Env) (k : Kind) (xs : list Item) (i : nat) (w : World) : World :=
  match xs with
  | [] => w
  | x :: rest =>
      let w :=
        if hasNeighbourReadmeFile e (i_file x) then
          let w := info (readmeFound (i_name x)) w in
          set_data (setItems k
                      (alter (withItemReadme (readmeOf e (i_file x))) i (getItems k (data (md w))))
                      (data (md w))) w
        else w in
      let w := addPage (mkPage (i_name x) (i_id x) (kindPlural k) "" (kindContext k)
                          (Some 1) (Some INTERNAL) (ItemAt k i)) w in
      itemsLoop e k rest (S i) w
  end.

Definition prepareItems (e : Env) (k : Kind) (someItems : option (list Item)) (w : World) : World :=
  let w := info ("Prepare " +:+ kindPlural k) w in
  let xs := match someItems with
            | Some l => l
            | None => getItems k (current (dependenciesEngine w))
            end in
  let w := set_data (setItems k xs (data (md w))) w in
  itemsLoop e k (getItems k (data (md w))) 0 w.

Definition prepareDirectives (e : Env) := prepareItems e KDirective.
Definition prepareInjectables (e : Env) := prepareItems e KInjectable.
Definition preparePipes (e : Env) := prepareItems e KPipe.
Definition prepareClasses (e : Env) := prepareItems e KClass.
Definition prepareInterfaces (e : Env) := prepareItems e KInterface.

Definition miscPage (group : string) : Page :=
  mkPage group ("miscellaneous-" +:+ group) "miscellaneous" ""
    ("miscellaneous-" +:+ group) (Some 1) (Some INTERNAL) NoEntry.

Definition nonEmpty {A : Type} (l : list A) : bool := Nat.ltb 0 (length l).

Definition prepareMiscellaneous (someMisc : option Miscellaneous) (w : World) : World :=
  let w := info "Prepare miscellaneous" w in
  let m := match someMisc with
           | Some m => m
           | None => miscellaneous (current (dependenciesEngine w))
           end in
  let w := set_data (set_miscellaneous m (data (md w))) w in
  let w := if nonEmpty (functions m) then addPage (miscPage "functions") w else w in
  let w := if nonEmpty (variables m) then addPage (miscPage "variables") w else w in
  let w := if nonEmpty (typealiases m) then addPage (miscPage "typealiases") w else w in
  let w := if nonEmpty (enumerations m) then addPage (miscPage "enumerations") w else w in
  w.

(** ** Sequencing of the preparation actions *)

(** Modelled from the spec: [promiseSequential] (utils/promise-sequential is
    not under src) runs the actions strictly in the declared order, each one
    after the promise of the previous one has resolved, and resolves after
    the last; an action that rejects rejects the sequence, whose [.catch]
    callback, in all four orchestrators, logs the error.  [resolveCont] is
    what the resolution of an action's promise triggers, [rejectCont] what
    its rejection triggers. *)
Definition resolveCont (c : Cont) (w : World) : World :=
  match c with
  | ContDependencies => enqueue TGetDependenciesData w
  | ContSeq rest k => enqueue (TSeq rest k) w
  end.

Definition rejectCont (c : Cont) (errorMessage : string) (w : World) : World :=
  error errorMessage w.

(** ** Root markdown documents *)

Definition markdownNames : list string :=
  ["readme"; "changelog"; "contributing"; "license"; "todo"].

(** The [loop] of [processMarkdowns] at index [i]. *)
Definition markdownsLoop (e : Env) (i : nat) (c : Cont) (w : World) : World :=
  match markdownNames !! i with
  | Some name => startIO (TMarkdown i (getTraditionalMarkdown e (toUpperCase name)) c) w
  | None => resolveCont c w
  end.

Definition processMarkdowns (e : Env) (c : Cont) (w : World) : World :=
  let w := info "Searching README.md, CHANGELOG.md, CONTRIBUTING.md, LICENSE.md, TODO.md files" w in
  markdownsLoop e 0 c w.

Definition markdownDone (e : Env) (i : nat) (r : Result string) (c : Cont) (w : World) : World :=
  match markdownNames !! i with
  | None => w
  | Some name =>
      match r with
      | Ok readmeData =>
          let w := addPage (mkPage (if name =? "readme" then "index" else name)
                              "getting-started" "" "" "getting-started"
                              (Some 0) (Some ROOT) (Markdown readmeData)) w in
          let w :=
            if name =? "readme" then
              let w := set_mainData (md_set_readme true (md w)) w in
              addPage (mkPage "overview" "overview" "" "" "overview" None (Some ROOT) NoEntry) w
            else set_mainData (md_set_markdowns (markdowns (md w) ++ [name]) (md w)) w in
          let w := info (toUpperCase name +:+ ".md file found") w in
          markdownsLoop e (S i) c w
      | Err errorMessage =>
          let w := warn errorMessage w in
          let w := warn ("Continuing without " +:+ toUpperCase name +:+ ".md file") w in
          let w :=
            if name =? "readme" then
              addPage (mkPage "index" "index" "" "" "overview" None None NoEntry) w
            else w in
          markdownsLoop e (S i) c w
      end
  end.

(** ** Routes, components, coverage, external includes *)

Definition prepareRoutes (e : Env) (c : Cont) (w : World) : World :=
  let w := info "Process routes" w in
  let w := set_data (set_routes (routes (current (dependenciesEngine w))) (data (md w))) w in
  let w := addPage (mkPage "routes" "routes" "" "" "routes" (Some 0) (Some ROOT) NoEntry) w in
  if exportFormat (opts w) =? defaultExportFormat e then
    startIO (TRoutesIndex (generateRoutesIndex e (output (md w)) (routes (data (md w)))) c) w
  else resolveCont c w.

Definition routesIndexDone (r : Result unit) (c : Cont) (w : World) : World :=
  match r with
  | Ok _ => resolveCont c (info " Routes index generated" w)
  | Err e => rejectCont c "undefined" (error e w)
  end.

(** [handleTemplateurl]: when the template file does not exist the promise
    it returns is never settled, so nothing is queued. *)
Definition handleTemplateurl (e : Env) (i : nat) (component : Component) (c : Cont)
    (w : World) : World :=
  let templatePath := resolve e (dirname e (c_file component) +:+ sep e +:+ templateUrl component) in
  if negb (existsSync e templatePath) then
    error ("Cannot read template for " +:+ c_name component) w
  else startIO (TTemplate i (fileGet e templatePath) c) w.

(** The [loop] of [prepareComponents], from index [i] on. *)
Fixpoint componentsLoop (e : Env) (cs : list Component) (i : nat) (c : Cont) (w : World) : World :=
  match cs with
  | [] => resolveCont c w
  | comp :: rest =>
      let w :=
        if hasNeighbourReadmeFile e (c_file comp) then
          let w := info (readmeFound (c_name comp)) w in
          set_data (set_components
                      (alter (withComponentReadme (readmeOf e (c_file comp))) i
                         (components (data (md w))))
                      (data (md w))) w
        else w in
      let w := addPage (mkPage (c_name comp) (c_id comp) "components" "" "component"
                          (Some 1) (Some INTERNAL) (ComponentAt i)) w in
      if Nat.ltb 0 (String.length (templateUrl comp)) then
        let w := info (" " +:+ c_name comp +:+ " has a templateUrl, include it") w in
        handleTemplateurl e i comp c w
      else componentsLoop e rest (S i) c w
  end.

Definition prepareComponents (e : Env) (someComponents : option (list Component)) (c : Cont)
    (w : World) : World :=
  let w := info "Prepare components" w in
  let cs := match someComponents with
            | Some l => l
            | None => components (current (dependenciesEngine w))
            end in
  let w := set_data (set_components cs (data (md w))) w in
  componentsLoop e (components (data (md w))) 0 c w.

(** The two callbacks [prepareComponents] gives to [handleTemplateurl(...).then]. *)
Definition templateDone (e : Env) (i : nat) (r : Result string) (c : Cont) (w : World) : World :=
  match r with
  | Ok data_ =>
      let w := set_data (set_components
                           (alter (withTemplateData data_) i (components (data (md w))))
                           (data (md w))) w in
      componentsLoop e (drop (S i) (components (data (md w)))) (S i) c w
  | Err err => error "" (error err w)
  end.

(** The coverage engine is outside src: it is taken by the settlement of the
    promise [calculate] returns and the pages it registers. *)
Definition prepareCoverage (e : Env) (c : Cont) (w : World) : World :=
  let w := info "Process documentation coverage report" w in
  startIO (TCoverage (coverageCalculate e (md w)) c) w.

Definition coverageDone (r : Result (list Page)) (c : Cont) (w : World) : World :=
  match r with
  | Ok ps => resolveCont c (fold_left (fun w p => addPage p w) ps w)
  | Err msg => rejectCont c msg w
  end.

Definition prepareExternalIncludes (e : Env) (c : Cont) (w : World) : World :=
  let w := info "Adding external markdown files" w in
  startIO (TSummary (fileGet e (cwd e +:+ sep e +:+ includes (opts w) +:+ sep e +:+ "summary.json")) c) w.

Definition includesLoop (e : Env) (items : list SummaryItem) (i : nat) (c : Cont)
    (w : World) : World :=
  match items !! i with
  | Some it =>
      startIO (TInclude items i
                 (getTraditionalMarkdown e (includes (opts w) +:+ sep e +:+ s_file it)) c) w
  | None => resolveCont c w
  end.

Definition includeChildLoop (e : Env) (items : list SummaryItem) (i j : nat) (c : Cont)
    (w : World) : World :=
  match items !! i with
  | None => w
  | Some it =>
      match s_children it !! j with
      | Some ch =>
          startIO (TIncludeChild items i j
                     (getTraditionalMarkdown e (includes (opts w) +:+ sep e +:+ sc_file ch)) c) w
      | None => includesLoop e items (S i) c w
      end
  end.

Definition summaryDone (e : Env) (r : Result string) (c : Cont) (w : World) : World :=
  match r with
  | Ok summaryData =>
      let w := info "Additional documentation: summary.json file found" w in
      match parseSummary e summaryData with
      | Some items => includesLoop e items 0 c w
      | None => unhandledRejection w
      end
  | Err errorMessage =>
      rejectCont c "Error during Additional documentation generation" (error errorMessage w)
  end.

Definition includeDone (e : Env) (items : list SummaryItem) (i : nat) (r : Result string)
    (c : Cont) (w : World) : World :=
  match items !! i, r with
  | None, _ => w
  | Some it, Ok markedData =>
      let w := addAdditionalPage
                 (mkPage (s_title it) (s_title it) (includesFolder (opts w))
                    (cleanNameWithoutSpaceAndToLowerCase e (s_title it)) "additional-page"
                    (Some 1) (Some INTERNAL) (AdditionalPage markedData)) w in
      if nonEmpty (s_children it) then includeChildLoop e items i 0 c w
      else includesLoop e items (S i) c w
  | Some _, Err err => error err w
  end.

Definition includeChildDone (e : Env) (items : list SummaryItem) (i j : nat)
    (r : Result string) (c : Cont) (w : World) : World :=
  match items !! i with
  | None => w
  | Some it =>
      match s_children it !! j, r with
      | None, _ => w
      | Some ch, Ok markedData =>
          let w := addAdditionalPage
                     (mkPage (sc_title ch) (sc_title ch)
                        (includesFolder (opts w) +:+ "/" +:+
                           cleanNameWithoutSpaceAndToLowerCase e (s_title it))
                        (cleanNameWithoutSpaceAndToLowerCase e (sc_title ch)) "additional-page"
                        (Some 2) (Some INTERNAL) (AdditionalPage markedData)) w in
          includeChildLoop e items i (S j) c w
      | Some _, Err err => error err w
      end
  end.

(** ** Render and index stage *)

Definition withSlash (out : string) : string :=
  if negb (hasSlash out) then out +:+ "/" else out.

Definition pagePath (w : World) (page : Page) : string :=
  let finalPath := withSlash (output (md w)) in
  let finalPath := if truthy (p_path page) then finalPath +:+ p_path page +:+ "/" else finalPath in
  if truthy (p_filename page) then finalPath +:+ p_filename page +:+ ".html"
  else finalPath +:+ p_name page +:+ ".html".

(** Modelled from the spec: [SearchEngine.indexPage] (search.engine.ts is not
    under src) submits the rendered text to the in-memory index. *)
Definition indexPage (d : Doc) (w : World) : World :=
  let w := emit (IndexPage (url d)) w in
  set_searchEngine (mkSearch (documentsStore (searchEngine w) ++ [d])
                      (searchIndexJson (searchEngine w))) w.

(** [processPage(page)], called for the [Promise.all] numbered [a]. *)
Definition processPage (e : Env) (ph : Phase) (a : nat) (page : Page) (w : World) : World :=
  let w := info ("Process page " +:+ p_name page) w in
  let htmlData := htmlRender e (md w) page in
  let w := emit (Render (p_name page)) w in
  let finalPath := pagePath w page in
  let w := indexPage (mkDoc page htmlData finalPath) w in
  let w := emit (WriteFile finalPath) w in
  startIO (TPageWritten ph a (p_name page) (fileWrite e finalPath htmlData)) w.

(** [Promise.all(pages.map((page) => this.processPage(page)))]: every page
    is processed in the current block; an empty list is fulfilled at once. *)
Definition promiseAllPages (e : Env) (ph : Phase) (ps : list Page) (w : World) : World :=
  let a := length (promiseAlls w) in
  let w := set_promiseAlls (promiseAlls w ++ [mkAllCell (length ps) false]) w in
  let w := fold_left (fun w page => processPage e ph a page w) ps w in
  match ps with
  | [] => enqueue (TAllThen ph) w
  | _ => w
  end.

Definition processPages (e : Env) (w : World) : World :=
  let w := info "Process pages" w in
  promiseAllPages e MainPages (pages (configuration w)) w.

Definition processAdditionalPages (e : Env) (w : World) : World :=
  let w := info "Process additional pages" w in
  promiseAllPages e AdditionalPages (additionalPages (md w)) w.

(** The [.catch] callback after [Promise.all(...).then(...)]. *)
Definition allCatch (ph : Phase) (err : string) (w : World) : World :=
  match ph with
  | MainPages => error err w
  | AdditionalPages => unhandledRejection (error err w)
  end.

(** The settlement of one page's write, seen from [Promise.all]. *)
Definition pageWritten (ph : Phase) (a : nat) (name : string) (r : Result unit) (w : World) : World :=
  match r with
  | Ok _ =>
      match promiseAlls w !! a with
      | None => w
      | Some cell =>
          let left := Nat.pred (remaining cell) in
          let w := set_promiseAlls (<[a := mkAllCell left (rejected cell)]> (promiseAlls w)) w in
          if Nat.eqb left 0 && negb (rejected cell) then enqueue (TAllThen ph) w else w
      end
  | Err _ =>
      let w := error ("Error during " +:+ name +:+ " page generation") w in
      match promiseAlls w !! a with
      | None => w
      | Some cell =>
          if rejected cell then w
          else
            let w := set_promiseAlls (<[a := mkAllCell (remaining cell) true]> (promiseAlls w)) w in
            allCatch ph "" w
      end
  end.

(** Modelled from the spec: [SearchEngine.generateSearchIndexJson] persists
    the index built so far into the output folder. *)
Definition generateSearchIndexJson (e : Env) (ph : Phase) (w : World) : World :=
  let w := emit (GenerateSearchIndexJson (output (md w))) w in
  let docs := documentsStore (searchEngine w) in
  startIO (TIndexWritten ph docs (searchWrite e (output (md w)) docs)) w.

(** ** Finalization *)

Definition processAssetsFolder (e : Env) (w : World) : World :=
  let w := info "Copy assets folder" w in
  if negb (existsSync e (assetsFolder (opts w))) then
    error ("Provided assets folder " +:+ assetsFolder (opts w) +:+ " did not exist") w
  else
    let src := resolve e (assetsFolder (opts w)) in
    let dst := resolve e (output (md w) +:+ sep e +:+ assetsFolder (opts w)) in
    startIO (TAssetsCopied (fsCopy e src dst)) (emit (Copy src dst) w).

Definition processResources (e : Env) (w : World) : World :=
  let w := info "Copy main resources" w in
  let finalOutput :=
    if negb (stringMatch e (output (md w)) (cwd e))
    then stringReplace e (output (md w)) (cwd e) ""
    else output (md w) in
  let src := resolve e (resourcesDir e) in
  let dst := resolve e finalOutput in
  startIO (TResourcesCopied finalOutput (fsCopy e src dst)) (emit (Copy src dst) w).

Definition runWatch (e : Env) (w : World) : World :=
  let a := appState w in
  let w := set_appState (mkAppState (files a) (updatedFiles a) (watchChangedFiles a) true) w in
  info ("Watching sources in " +:+ findMainSourceFolder e (default [] (files a)) +:+ " folder") w.

Definition runWebServer (e : Env) (folder : string) (w : World) : World :=
  let watching := isWatching (appState w) in
  let w := if negb watching then emit (LiveServerStart folder) w else w in
  if watch (opts w) && negb watching then
    match files (appState w) with
    | None =>
        processExit 1
          (generationPromiseReject (error "No sources files available, please use -p flag" w))
    | Some _ => runWatch e w
    end
  else if watch (opts w) && watching then
    info ("Already watching sources in " +:+
            findMainSourceFolder e (default [] (files (appState w))) +:+ " folder") w
  else w.

Definition onComplete (e : Env) (w : World) : World :=
  let w := info ("Documentation generated in " +:+ output (md w) +:+ " in " +:+ finalTime e +:+
                   " seconds using " +:+ theme (opts w) +:+ " theme") w in
  if serve (opts w) then
    let w := info ("Serving documentation from " +:+ output (md w) +:+
                     " at http://127.0.0.1:" +:+ port (opts w)) w in
    runWebServer e (output (md w)) w
  else endCallback (generationPromiseResolve w).

Definition finalize (e : Env) (w : World) : World :=
  let w := if negb (assetsFolder (opts w) =? "") then processAssetsFolder e w else w in
  processResources e w.

Definition indexWritten (e : Env) (ph : Phase) (docs : list Doc) (r : Result unit)
    (w : World) : World :=
  match r with
  | Ok _ =>
      let w := set_searchEngine (mkSearch (documentsStore (searchEngine w)) (Some docs)) w in
      match ph with
      | MainPages =>
          if nonEmpty (additionalPages (md w)) then processAdditionalPages e w
          else finalize e w
      | AdditionalPages => finalize e w
      end
  | Err err =>
      match ph with
      | MainPages => error err w
      | AdditionalPages => unhandledRejection w
      end
  end.

Definition assetsCopied (r : Result unit) (w : World) : World :=
  match r with
  | Ok _ => w
  | Err err => error ("Error during resources copy " +:+ err) w
  end.

Definition resourcesCopied (e : Env) (finalOutput : string) (r : Result unit) (w : World) : World :=
  match r with
  | Err err => error ("Error during resources copy " +:+ err) w
  | Ok _ =>
      if truthy (extTheme (opts w)) then
        let src := resolve e (cwd e +:+ sep e +:+ extTheme (opts w)) in
        let dst := resolve e (finalOutput +:+ "/styles/") in
        startIO (TThemeCopied (fsCopy e src dst)) (emit (Copy src dst) w)
      else if negb (customFavicon (opts w) =? "") then
        let w := info "Custom favicon supplied" w in
        let src := resolve e (cwd e +:+ sep e +:+ customFavicon (opts w)) in
        let dst := resolve e (finalOutput +:+ "/images/favicon.ico") in
        startIO (TFaviconCopied (fsCopy e src dst)) (emit (Copy src dst) w)
      else onComplete e w
  end.

Definition themeCopied (e : Env) (r : Result unit) (w : World) : World :=
  match r with
  | Err err1 => error ("Error during external styling theme copy " +:+ err1) w
  | Ok _ => onComplete e (info "External styling theme copy succeeded" w)
  end.

Definition faviconCopied (e : Env) (r : Result unit) (w : World) : World :=
  match r with
  | Err err => error ("Error during resources copy " +:+ err) w
  | Ok _ => onComplete e w
  end.

(** ** Graph stage *)

Definition hasRelations (raw : NgModule) : bool :=
  nonEmpty (declarations raw) || nonEmpty (bootstrap raw) || nonEmpty (imports raw) ||
  nonEmpty (exports raw) || nonEmpty (providers raw).

(** The [loop] of [processGraphs], from index [i] on; [ms] is the part of
    [mainData.modules] not yet visited.  Reading a relation list of a module
    without raw record throws inside a promise callback whose promise nobody
    listens to. *)
Fixpoint graphLoop (e : Env) (ms : list NgModule) (i : nat) (w : World) : World :=
  match ms with
  | [] => processPages e w
  | m :: rest =>
      let w := info ("Process module graph " +:+ m_name m) w in
      let finalPath := withSlash (output (md w)) +:+ "modules/" +:+ m_name m in
      match getRawModule (dependenciesEngine w) (m_name m) with
      | None => unhandledRejection w
      | Some _rawModule =>
          if hasRelations _rawModule then
            let w := emit (RenderGraph (m_file m) finalPath "f") w in
            startIO (TModuleGraphRendered i (m_name m) finalPath
                       (ngdRenderGraph e (m_file m) finalPath "f")) w
          else graphLoop e rest (S i) w
      end
  end.

Definition processGraphs (e : Env) (w : World) : World :=
  if disableGraph (opts w) then
    processPages e (info "Graph generation disabled" w)
  else
    let w := info "Process main graph" w in
    let finalMainGraphPath := withSlash (output (md w)) +:+ "graph" in
    let w := emit (NgdInit (resolve e finalMainGraphPath)) w in
    let w := emit (RenderGraph (tsconfig (opts w)) (resolve e finalMainGraphPath) "p") w in
    startIO (TMainGraphRendered finalMainGraphPath
               (ngdRenderGraph e (tsconfig (opts w)) (resolve e finalMainGraphPath) "p")) w.

Definition mainGraphRendered (e : Env) (finalMainGraphPath : string) (r : Result unit)
    (w : World) : World :=
  match r with
  | Ok _ =>
      let svg := resolve e (finalMainGraphPath +:+ sep e +:+ "dependencies.svg") in
      startIO (TMainGraphRead (ngdReadGraph e svg "Main graph")) (emit (ReadGraph svg) w)
  | Err err =>
      let w := error ("Ooops error during main graph generation, moving on next part with main graph disabled : " +:+ err) w in
      let w := set_mainData (md_set_disableMainGraph true (md w)) w in
      graphLoop e (modules (data (md w))) 0 w
  end.

Definition mainGraphRead (e : Env) (r : Result string) (w : World) : World :=
  match r with
  | Ok data_ =>
      let w := set_mainData (md_set_mainGraph (Some data_) (md w)) w in
      graphLoop e (modules (data (md w))) 0 w
  | Err err =>
      let w := error ("Error during main graph reading : " +:+ err) w in
      let w := set_mainData (md_set_disableMainGraph true (md w)) w in
      graphLoop e (modules (data (md w))) 0 w
  end.

Definition moduleGraphRendered (e : Env) (i : nat) (name finalPath : string) (r : Result unit)
    (w : World) : World :=
  match r with
  | Ok _ =>
      let svg := resolve e (finalPath +:+ sep e +:+ "dependencies.svg") in
      startIO (TModuleGraphRead i (ngdReadGraph e svg name)) (emit (ReadGraph svg) w)
  | Err errorMessage => error errorMessage w
  end.

Definition moduleGraphRead (e : Env) (i : nat) (r : Result string) (w : World) : World :=
  match r with
  | Ok data_ =>
      let w := set_data (set_modules (alter (withModuleGraph data_) i (modules (data (md w))))
                           (data (md w))) w in
      graphLoop e (drop (S i) (modules (data (md w)))) (S i) w
  | Err err => error ("Error during graph read: " +:+ err) w
  end.

(** ** Orchestrators *)

Definition miscNonEmpty (m : Miscellaneous) : bool :=
  nonEmpty (variables m) || nonEmpty (functions m) ||
  nonEmpty (typealiases m) || nonEmpty (enumerations m).

Definition hasRoutes (r : option RouteTree) : bool :=
  match r with
  | Some t => nonEmpty (children t)
  | None => false
  end.

Definition pushIf (b : bool) (a : Action) (actions : list Action) : list Action :=
  if b then actions ++ [a] else actions.

(** The [actions] array of [prepareEverything]. *)
Definition everythingActions (e : Env) (w : World) : list Action :=
  let d := current (dependenciesEngine w) in
  let actions := [APrepareModules; APrepareComponents] in
  let actions := pushIf (nonEmpty (directives d)) (APrepareItems KDirective) actions in
  let actions := pushIf (nonEmpty (injectables d)) (APrepareItems KInjectable) actions in
  let actions := pushIf (hasRoutes (routes d)) APrepareRoutes actions in
  let actions := pushIf (nonEmpty (pipes d)) (APrepareItems KPipe) actions in
  let actions := pushIf (nonEmpty (classes d)) (APrepareItems KClass) actions in
  let actions := pushIf (nonEmpty (interfaces d)) (APrepareItems KInterface) actions in
  let actions := pushIf (miscNonEmpty (miscellaneous d)) APrepareMiscellaneous actions in
  let actions := pushIf (negb (disableCoverage (opts w))) APrepareCoverage actions in
  let actions := pushIf (negb (includes (opts w) =? "")) APrepareExternalIncludes actions in
  actions.

Definition prepareEverything (e : Env) (w : World) : World :=
  enqueue (TSeq (everythingActions e w) KEverything) w.

(** The [actions] array of [prepareJustAFewThings(diffCrawledData)]. *)
Definition justAFewThingsActions (diffCrawledData : Collection) (w : World) : list Action :=
  let d := diffCrawledData in
  let actions := [APrepareRoutes] in
  let actions := pushIf (nonEmpty (modules d)) APrepareModules actions in
  let actions := pushIf (nonEmpty (components d)) APrepareComponents actions in
  let actions := pushIf (nonEmpty (directives d)) (APrepareItems KDirective) actions in
  let actions := pushIf (nonEmpty (injectables d)) (APrepareItems KInjectable) actions in
  let actions := pushIf (nonEmpty (pipes d)) (APrepareItems KPipe) actions in
  let actions := pushIf (nonEmpty (classes d)) (APrepareItems KClass) actions in
  let actions := pushIf (nonEmpty (interfaces d)) (APrepareItems KInterface) actions in
  let actions := pushIf (miscNonEmpty (miscellaneous d)) APrepareMiscellaneous actions in
  let actions := pushIf (negb (disableCoverage (opts w))) APrepareCoverage actions in
  actions.

Definition prepareJustAFewThings (diffCrawledData : Collection) (w : World) : World :=
  let w := resetPages w in
  enqueue (TSeq (justAFewThingsActions diffCrawledData w) KJustAFewThings) w.

Definition clearUpdatedFiles (w : World) : World :=
  let a := appState w in
  set_appState (mkAppState (files a) [] [] (isWatching a)) w.

Definition setUpdatedFiles (fs : list string) (w : World) : World :=
  let a := appState w in
  set_appState (mkAppState (files a) fs (watchChangedFiles a) (isWatching a)) w.

(** The [.then] callbacks of the four [promiseSequential(actions)] calls. *)
Definition thenSeq (e : Env) (k : Kont) (w : World) : World :=
  match k with
  | KEverything =>
      if negb (exportFormat (opts w) =? defaultExportFormat e) then
        if existsb (String.eqb (exportFormat (opts w))) (exportFormatsSupported e) then
          let w := info ("Generating documentation in export format " +:+ exportFormat (opts w)) w in
          let w := emit (Export (output (md w))) w in
          startIO (TExported (exportEngineExport e (output (md w)) (md w))) w
        else warn "Exported format not supported" w
      else processGraphs e w
  | KJustAFewThings => clearUpdatedFiles (processGraphs e w)
  | KRootMarkdowns => clearUpdatedFiles (processPages e w)
  | KExternalDocumentation => clearUpdatedFiles (processPages e w)
  end.

Definition exported (e : Env) (r : Result unit) (w : World) : World :=
  match r with
  | Ok _ =>
      let w := endCallback (generationPromiseResolve w) in
      info ("Documentation generated in " +:+ output (md w) +:+ " in " +:+ finalTime e +:+
              " seconds") w
  | Err _ => unhandledRejection w
  end.

(** Calling one action: the synchronous part of the function, and what its
    promise is chained to. *)
Definition runAction (e : Env) (a : Action) (c : Cont) (w : World) : World :=
  match a with
  | APrepareModules => resolveCont c (prepareModules e None w)
  | APrepareComponents => prepareComponents e None c w
  | APrepareItems k => resolveCont c (prepareItems e k None w)
  | APrepareRoutes => prepareRoutes e c w
  | APrepareMiscellaneous => resolveCont c (prepareMiscellaneous None w)
  | APrepareCoverage => prepareCoverage e c w
  | APrepareExternalIncludes => prepareExternalIncludes e c w
  | AProcessMarkdowns => processMarkdowns e c w
  end.

Definition sequential (e : Env) (actions : list Action) (k : Kont) (w : World) : World :=
  match actions with
  | [] => thenSeq e k w
  | a :: rest => runAction e a (ContSeq rest k) w
  end.

Definition statLine (label : string) (n : nat) (w : World) : World :=
  if Nat.ltb 0 n then info (label +:+ pretty n) w else w.

Definition printStatistics (w : World) : World :=
  let d := current (dependenciesEngine w) in
  let w := info "-------------------" w in
  let w := info "Project statistics " w in
  let w := statLine "- module     : " (length (modules d)) w in
  let w := statLine "- component  : " (length (components d)) w in
  let w := statLine "- directive  : " (length (directives d)) w in
  let w := statLine "- injectable : " (length (injectables d)) w in
  let w := statLine "- pipe       : " (length (pipes d)) w in
  let w := statLine "- class      : " (length (classes d)) w in
  let w := statLine "- interface  : " (length (interfaces d)) w in
  let w := statLine "- route      : " (routesLength (md w)) w in
  info "-------------------" w.

Definition getDependenciesData (e : Env) (w : World) : World :=
  let w := info "Get dependencies data" w in
  let dependenciesData := getDependencies e (default [] (files (appState w))) in
  let w := set_dependenciesEngine (engineInit dependenciesData) w in
  let w := set_mainData (md_set_routesLength (routerRoutesLength e) (md w)) w in
  let w := printStatistics w in
  prepareEverything e w.

Definition getMicroDependenciesData (e : Env) (w : World) : World :=
  let w := info "Get diff dependencies data" w in
  let dependenciesData := getDependencies e (updatedFiles (appState w)) in
  let w := set_dependenciesEngine (engineUpdate e (dependenciesEngine w) dependenciesData) w in
  prepareJustAFewThings dependenciesData w.

Definition rebuildRootMarkdowns (e : Env) (w : World) : World :=
  let w := info "Regenerating README.md, CHANGELOG.md, CONTRIBUTING.md, LICENSE.md, TODO.md pages" w in
  let w := resetRootMarkdownPages w in
  enqueue (TSeq [AProcessMarkdowns] KRootMarkdowns) w.

Definition rebuildExternalDocumentation (e : Env) (w : World) : World :=
  let w := info "Rebuild external documentation" w in
  let w := resetAdditionalPages w in
  let actions := pushIf (negb (includes (opts w) =? "")) APrepareExternalIncludes [] in
  enqueue (TSeq actions KExternalDocumentation) w.

Definition processPackageJson (e : Env) (w : World) : World :=
  let w := info "Searching package.json file" w in
  startIO (TPackageJson (fileGet e (cwd e +:+ sep e +:+ "package.json"))) w.

Definition packageJsonDone (e : Env) (r : Result string) (w : World) : World :=
  match r with
  | Ok packageData =>
      match parsePackageJson e packageData with
      | None => unhandledRejection w
      | Some parsedData =>
          let m := md w in
          let name := match pj_name parsedData with
                      | Some n =>
                          if documentationMainName m =? defaultTitle e
                          then n +:+ " documentation" else documentationMainName m
                      | None => documentationMainName m
                      end in
          let description := default (documentationMainDescription m) (pj_description parsedData) in
          let w := set_mainData
                     (md_set_package name description (getAngularVersionOfProject e parsedData) m) w in
          let w := info "package.json file found" w in
          processMarkdowns e ContDependencies w
      end
  | Err errorMessage =>
      let w := error errorMessage w in
      let w := error "Continuing without package.json file" w in
      processMarkdowns e ContDependencies w
  end.

(** [generate()] *)
Definition generate (e : Env) (w : World) : World :=
  let w := installListeners w in
  let w := if negb (lastChar (output (md w)) =? "/")
           then set_mainData (md_set_output (output (md w) +:+ "/") (md w)) w else w in
  if negb (exportFormat (opts w) =? defaultExportFormat e) then processPackageJson e w
  else startIO (THtmlInit (htmlInit e)) w.

Definition htmlInitDone (e : Env) (r : Result unit) (w : World) : World :=
  match r with
  | Ok _ => processPackageJson e w
  | Err _ => unhandledRejection w
  end.

(** ** Watch coordinator *)

Definition hasWatchedFilesTSFiles (e : Env) (w : World) : bool :=
  fold_left (fun result file => if extname e file =? ".ts" then true else result)
    (updatedFiles (appState w)) false.

Definition hasWatchedFilesRootMarkdownFiles (e : Env) (w : World) : bool :=
  fold_left (fun result file =>
               if (extname e file =? ".md") && (dirname e file =? cwd e) then true else result)
    (updatedFiles (appState w)) false.

(** The timer callbacks of [runWatch]. *)
Definition runnerAddAndRemove (e : Env) (w : World) : World := generate e w.

Definition runnerChange (e : Env) (w : World) : World :=
  let w := setUpdatedFiles (watchChangedFiles (appState w)) w in
  if hasWatchedFilesTSFiles e w then getMicroDependenciesData e w
  else if hasWatchedFilesRootMarkdownFiles e w then rebuildRootMarkdowns e w
  else rebuildExternalDocumentation e w.

(** ** Event loop *)

Definition exec (e : Env) (t : Task) (w : World) : World :=
  match t with
  | THtmlInit r => htmlInitDone e r w
  | TPackageJson r => packageJsonDone e r w
  | TMarkdown i r c => markdownDone e i r c w
  | TGetDependenciesData => getDependenciesData e w
  | TSeq acts k => sequential e acts k w
  | TTemplate i r c => templateDone e i r c w
  | TRoutesIndex r c => routesIndexDone r c w
  | TCoverage r c => coverageDone r c w
  | TSummary r c => summaryDone e r c w
  | TInclude items i r c => includeDone e items i r c w
  | TIncludeChild items i j r c => includeChildDone e items i j r c w
  | TExported r => exported e r w
  | TMainGraphRendered p r => mainGraphRendered e p r w
  | TMainGraphRead r => mainGraphRead e r w
  | TModuleGraphRendered i name p r => moduleGraphRendered e i name p r w
  | TModuleGraphRead i r => moduleGraphRead e i r w
  | TPageWritten ph a name r => pageWritten ph a name r w
  | TAllThen ph => generateSearchIndexJson e ph w
  | TIndexWritten ph docs r => indexWritten e ph docs r w
  | TAssetsCopied r => assetsCopied r w
  | TResourcesCopied p r => resourcesCopied e p r w
  | TThemeCopied r => themeCopied e r w
  | TFaviconCopied r => faviconCopied e r w
  end.

Definition exited (w : World) : bool :=
  match exitCode (proc w) with Some _ => true | None => false end.

(** One turn of the event loop.  Promise reactions are run first, in the
    order they were queued; when there is none, one of the outstanding I/O
    operations completes: [pick] says which (the operating system decides). *)
Definition step (e : Env) (pick : nat) (w : World) : World :=
  if exited w then w
  else
    match microtasks w with
    | t :: q => exec e t (set_microtasks q w)
    | [] =>
        let k := pick mod length (pendingIO w) in
        match pendingIO w !! k with
        | Some t => exec e t (set_pendingIO (delete k (pendingIO w)) w)
        | None => w
        end
    end.

Definition run (e : Env) (picks : list nat) (w : World) : World :=
  fold_left (fun w pick => step e pick w) picks w.

(** Nothing left to run. *)
Definition quiescent (w : World) : Prop :=
  microtasks w = [] /\ pendingIO w = [].

(** ** A concrete environment

    POSIX [path], a project in [/project], collaborators that succeed unless
    told otherwise.  It is used to run the model on the scenarios below. *)

(** The part of [s] after the last occurrence of [c]. *)
Fixpoint afterLast (c : ascii) (s : string) : option string :=
  match s with
  | EmptyString => None
  | String a rest =>
      match afterLast c rest with
      | Some t => Some t
      | None => if Ascii.eqb a c then Some rest else None
      end
  end.

Definition posixBasename (p : string) : string := default p (afterLast "/" p).

(** [path.extname]: from the last dot of the base name, unless that dot is
    its first character. *)
Definition posixExtname (p : string) : string :=
  let b := posixBasename p in
  match afterLast "." b with
  | Some ext => if Nat.eqb (S (String.length ext)) (String.length b) then "" else "." +:+ ext
  | None => ""
  end.

(** [path.dirname] of a path without trailing slash. *)
Definition posixDirname (p : string) : string :=
  match afterLast "/" p with
  | None => "."
  | Some b =>
      let d := String.substring 0 (String.length p - String.length b - 1) p in
      if d =? "" then "/" else d
  end.

Definition includesString (s pattern : string) : bool :=
  match String.index 0 pattern s with Some _ => true | None => false end.

Definition replaceFirst (s pattern replacement : string) : string :=
  match String.index 0 pattern s with
  | Some n =>
      String.substring 0 n s +:+ replacement +:+
      String.substring (n + String.length pattern) (String.length s) s
  | None => s
  end.

Definition exampleEnv
    (get : string -> Result string)
    (write : string -> string -> Result unit)
    (renderGraph : string -> string -> string -> Result unit)
    (exists_ : string -> bool)
    (crawl : list string -> Collection) : Env :=
  {| cwd := "/project";
     sep := "/";
     extname := posixExtname;
     dirname := posixDirname;
     resolve := fun p => p;
     stringMatch := includesString;
     stringReplace := replaceFirst;
     resourcesDir := "/compodoc/src/resources/";
     finalTime := "1";
     defaultExportFormat := "html";
     exportFormatsSupported := ["json"];
     defaultTitle := "Application documentation";
     fileGet := get;
     fileWrite := write;
     existsSync := exists_;
     fsCopy := fun _ _ => Ok tt;
     parsePackageJson := fun _ => Some (mkPackageJson (Some "demo") None);
     parseSummary := fun _ => Some [];
     getAngularVersionOfProject := fun _ => "";
     getTraditionalMarkdown := fun f => Err ("Error during " +:+ f +:+ " read");
     hasNeighbourReadmeFile := fun _ => false;
     readNeighbourReadmeFile := fun _ => "";
     marked := fun s => s;
     cleanNameWithoutSpaceAndToLowerCase := fun s => s;
     findMainSourceFolder := fun _ => "src";
     htmlInit := Ok tt;
     htmlRender := fun _ page => "<html>" +:+ p_name page +:+ "</html>";
     getDependencies := crawl;
     engineUpdate := fun d diff => d;
     routerRoutesLength := 0;
     generateRoutesIndex := fun _ _ => Ok tt;
     coverageCalculate := fun _ => Ok [];
     exportEngineExport := fun _ _ => Ok tt;
     ngdRenderGraph := renderGraph;
     ngdReadGraph := fun _ _ => Ok "<svg/>";
     searchWrite := fun _ _ => Ok tt |}.

Definition exampleOptions : Options :=
  {| exportFormat := "html"; disableGraph := false; disableCoverage := true;
     includes := ""; includesFolder := "additional-documentation";
     serve := false; watch := false; assetsFolder := ""; extTheme := "";
     customFavicon := ""; theme := "gitbook"; port := "8080";
     tsconfig := "tsconfig.json" |}.

Definition freshMainData (o : Options) : MainData :=
  {| options := o; output := "/project/documentation/"; disableMainGraph := false;
     mainGraph := None; documentationMainName := "Application documentation";
     documentationMainDescription := ""; angularVersion := ""; readme := false;
     markdowns := []; routesLength := 0; data := emptyCollection;
     additionalPages := [] |}.

(** The state of a freshly constructed [Application]. *)
Definition freshWorld (o : Options) (fs : option (list string)) : World :=
  {| appState := mkAppState fs [] [] false;
     configuration := mkConfiguration (freshMainData o) [];
     dependenciesEngine := mkDeps emptyCollection [];
     searchEngine := mkSearch [] None;
     proc := mkProc 0 0 Pending None;
     promiseAlls := [];
     microtasks := [];
     pendingIO := [];
     trace := [] |}.

(** The operating system completing the outstanding operations in the order
    they were issued, for [n] turns of the loop. *)
Definition fifo (n : nat) : list nat := repeat 0 n.

(** * Scenarios and specification predicates *)

(** ** Watch classification *)

Definition isTSFile (e : Env) (file : string) : Prop := extname e file = ".ts".

Definition isRootMarkdownFile (e : Env) (file : string) : Prop :=
  extname e file = ".md" /\ dirname e file = cwd e.

Definition watchOptions : Options :=
  {| exportFormat := "html"; disableGraph := true; disableCoverage := true;
     includes := ""; includesFolder := "additional-documentation";
     serve := true; watch := true; assetsFolder := ""; extTheme := "";
     customFavicon := ""; theme := "gitbook"; port := "8080";
     tsconfig := "tsconfig.json" |}.

(** A watching application whose content-change timer is about to fire with
    the given accumulated changed files. *)
Definition changedWorld (changed : list string) : World :=
  set_appState (mkAppState (Some ["/project/src/a.ts"]) [] changed true)
    (freshWorld watchOptions (Some ["/project/src/a.ts"])).

Definition quietEnv : Env :=
  exampleEnv (fun _ => Err "ENOENT") (fun _ _ => Ok tt) (fun _ _ _ => Ok tt)
    (fun _ => true) (fun _ => emptyCollection).

(** ** Cross references of modules *)







(** ** Build outcomes *)

(** The failure of the build has reached whoever started it: the promise
    returned by [generate] is rejected, or the process has exited. *)
Definition reportedFailed (w : World) : Prop :=
  generationPromise (proc w) = Rejected \/ exitCode (proc w) <> None.

(** The build has been reported as complete. *)
Definition reportedDone (w : World) : Prop := generationPromise (proc w) = Resolved.

Definition handlers (w : World) : nat * nat :=
  (unhandledRejectionListeners (proc w), uncaughtExceptionListeners (proc w)).

(** ** A project with two modules and two components *)

Definition appModule : NgModule :=
  mkNgModule "AppModule" "module-AppModule" "/project/src/app.module.ts"
    [mkRef "AppComponent" "component"] [] [mkRef "SharedModule" "module"] [] [] None None.

Definition sharedModule : NgModule :=
  mkNgModule "SharedModule" "module-SharedModule" "/project/src/shared.module.ts"
    [] [] [] [mkRef "ListComponent" "component"] [] None None.

Definition emptyModule : NgModule :=
  mkNgModule "EmptyModule" "module-EmptyModule" "/project/src/empty.module.ts"
    [] [] [] [] [] None None.

Definition appComponent : Component :=
  mkComponent "AppComponent" "component-AppComponent" "/project/src/app.component.ts"
    "./app.component.html" None None.

Definition listComponent : Component :=
  mkComponent "ListComponent" "component-ListComponent" "/project/src/list.component.ts"
    "" None None.

Definition twoModules : Collection :=
  mkCollection [appModule; sharedModule] [appComponent; listComponent]
    [] [] [] [] [] emptyMisc None.

Definition projectFiles : option (list string) :=
  Some ["/project/src/app.module.ts"; "/project/src/shared.module.ts";
        "/project/src/app.component.ts"; "/project/src/list.component.ts"].

(** Graphviz fails on [AppModule]. *)
Definition graphFailsEnv : Env :=
  exampleEnv (fun _ => Ok "<div></div>") (fun _ _ => Ok tt)
    (fun file _ _ => if file =? "/project/src/app.module.ts" then Err "dot: command failed" else Ok tt)
    (fun _ => true) (fun _ => twoModules).

(** The template of [AppComponent] is missing. *)
Definition templateMissingEnv : Env :=
  exampleEnv (fun _ => Ok "<div></div>") (fun _ _ => Ok tt) (fun _ _ _ => Ok tt)
    (fun p => negb (p =? "/project/src/./app.component.html")) (fun _ => twoModules).

Definition componentPage (comp : Component) (i : nat) : Page :=
  mkPage (c_name comp) (c_id comp) "components" "" "component"
    (Some 1) (Some INTERNAL) (ComponentAt i).

(** The state in which [componentsLoop] leaves the component at index [i]
    once its page is planned, and once its template is announced. *)
Definition componentAdded (e : Env) (comp : Component) (i : nat) (w : World) : World :=
  let w :=
    if hasNeighbourReadmeFile e (c_file comp) then
      let w := info (readmeFound (c_name comp)) w in
      set_data (set_components
                  (alter (withComponentReadme (readmeOf e (c_file comp))) i
                     (components (data (md w))))
                  (data (md w))) w
    else w in
  addPage (componentPage comp i) w.

Definition componentPlanned (e : Env) (comp : Component) (i : nat) (w : World) : World :=
  info (" " +:+ c_name comp +:+ " has a templateUrl, include it") (componentAdded e comp i w).

(** ** Effects of the index persist and of the finalization *)

Definition isFinalEffect (ev : Event) : bool :=
  match ev with
  | GenerateSearchIndexJson _ | Copy _ _ => true
  | _ => false
  end.

(** The work that is queued or outstanding. *)
Definition outstanding (w : World) : nat :=
  length (microtasks w) + length (pendingIO w).

(** ** Completion of a build *)



(** ** A project whose routes page cannot be written *)

Definition plainOptions : Options :=
  {| exportFormat := "html"; disableGraph := true; disableCoverage := true;
     includes := ""; includesFolder := "additional-documentation";
     serve := false; watch := false; assetsFolder := ""; extTheme := "";
     customFavicon := ""; theme := "gitbook"; port := "8080";
     tsconfig := "tsconfig.json" |}.

Definition routedProject : Collection :=
  mkCollection [emptyModule] [] [] [] [] [] [] emptyMisc (Some (mkRouteTree ["home"])).

Definition routesWriteFailsEnv : Env :=
  exampleEnv (fun _ => Err "ENOENT")
    (fun path _ => if path =? "/project/documentation/routes.html" then Err "EACCES" else Ok tt)
    (fun _ _ _ => Ok tt) (fun _ => true) (fun _ => routedProject).

(** ** One page of the render stage *)

(** The document [processPage] submits for [p], the write it issues, and
    the failure of that write. *)
Definition docOf (e : Env) (w : World) (p : Page) : Doc :=
  mkDoc p (htmlRender e (md w) p) (pagePath w p).

Definition writeOf (e : Env) (ph : Phase) (a : nat) (w : World) (p : Page) : Task :=
  TPageWritten ph a (p_name p) (fileWrite e (pagePath w p) (htmlRender e (md w) p)).

Definition writeFails (e : Env) (w : World) (p : Page) : Prop :=
  exists msg, fileWrite e (pagePath w p) (htmlRender e (md w) p) = Err msg.

Definition pageError (name : string) : Event :=
  Log ERROR ("Error during " +:+ name +:+ " page generation").

Definition isWriteOf (a : nat) (t : Task) : Prop :=
  exists name r, t = TPageWritten MainPages a name r.

Definition isFailedWrite (a : nat) (t : Task) : Prop :=
  exists name msg, t = TPageWritten MainPages a name (Err msg).

Definition isErrorLog (ev : Event) : Prop := exists msg, ev = Log ERROR msg.


Definition isPageError (ev : Event) : Prop := exists name, ev = pageError name.

(** What the render stage logs while its writes settle: nothing as long as
    the aggregate is not rejected; once it is, the error of the first
    failing page, at once followed by the (empty) rejection the [.catch] of
    the aggregate logs, and then the errors of the failing pages that
    settle later. *)
Definition aggregateLog (rejectedNow : bool) (errs : list Event) : Prop :=
  if rejectedNow
  then exists name rest, errs = pageError name :: Log ERROR "" :: rest /\ Forall isPageError rest
  else errs = [].

(** The states of the event loop between the start of [processPages], in
    [w1], for the [Promise.all] numbered [a], and the end of the build, when
    one of the writes fails. *)
Record WritesSettling (a : nat) (w1 w : World) : Prop := {
  ws_microtasks : microtasks w = [];
  ws_writes : Forall (isWriteOf a) (pendingIO w);
  ws_cell : exists cell,
      promiseAlls w !! a = Some cell /\
      (rejected cell = true \/
       (remaining cell = length (pendingIO w) /\ Exists (isFailedWrite a) (pendingIO w)));
  ws_searchEngine : searchEngine w = searchEngine w1;
  ws_proc : proc w = proc w1;
  ws_configuration : configuration w = configuration w1;
  ws_appState : appState w = appState w1;
  ws_log : exists cell errs,
      promiseAlls w !! a = Some cell /\
      trace w = trace w1 ++ errs /\
      aggregateLog (rejected cell) errs /\
      forall name msg,
        In (TPageWritten MainPages a name (Err msg)) (pendingIO w1) ->
        In (TPageWritten MainPages a name (Err msg)) (pendingIO w) \/ In (pageError name) errs }.

(** The scenario of the render stage: the page [modules] can be written,
    the page [routes] cannot. *)
Definition modulesRootPage : Page :=
  mkPage "modules" "modules" "" "" "modules" (Some 0) (Some ROOT) NoEntry.

Definition routesRootPage : Page :=
  mkPage "routes" "routes" "" "" "routes" (Some 0) (Some ROOT) NoEntry.

Definition renderScenario : World :=
  installListeners (set_pages [modulesRootPage; routesRootPage] (freshWorld plainOptions projectFiles)).

(** ** Calls of the graph renderer *)

Definition isRenderGraph (ev : Event) : bool :=
  match ev with RenderGraph _ _ _ => true | _ => false end.

Definition isMainGraphCall (ev : Event) : bool :=
  match ev with RenderGraph _ _ mode => mode =? "p" | _ => false end.

Definition isModuleGraphCall (ev : Event) : bool :=
  match ev with RenderGraph _ _ mode => mode =? "f" | _ => false end.

(** The log entry that opens the render stage. *)
Definition isPagesStart (ev : Event) : bool :=
  match ev with Log INFO msg => msg =? "Process pages" | _ => false end.

Definition pagesStarted (w w' : World) : Prop :=
  List.filter isPagesStart (trace w') <> List.filter isPagesStart (trace w).

(** The call of the renderer for the whole project and for one module. *)
Definition mainGraphCall (e : Env) (w : World) : Event :=
  RenderGraph (tsconfig (opts w)) (resolve e (withSlash (output (md w)) +:+ "graph")) "p".

Definition moduleGraphPath (w : World) (m : NgModule) : string :=
  withSlash (output (md w)) +:+ "modules/" +:+ m_name m.

Definition moduleGraphCall (w : World) (m : NgModule) : Event :=
  RenderGraph (m_file m) (moduleGraphPath w m) "f".

(** The module has a raw record with at least one non-empty relation list. *)
Definition rendersGraph (d : Deps) (m : NgModule) : bool :=
  match getRawModule d (m_name m) with
  | Some raw => hasRelations raw
  | None => false
  end.

(** The callbacks of the render, index and finalization stages. *)
Definition postGraph (t : Task) : Prop :=
  match t with
  | TPageWritten _ _ _ _ | TAllThen _ | TIndexWritten _ _ _ | TAssetsCopied _
  | TResourcesCopied _ _ | TThemeCopied _ | TFaviconCopied _ => True
  | _ => False
  end.

(** From [w] to [w'] the renderer was not called, and only callbacks of the
    later stages were queued. *)
Record AfterGraphs (w w' : World) : Prop := {
  ag_trace : exists evs, trace w' = trace w ++ evs /\ Forall (fun ev => isRenderGraph ev = false) evs;
  ag_microtasks : exists ts, microtasks w' = microtasks w ++ ts /\ Forall postGraph ts;
  ag_pendingIO : exists ts, pendingIO w' = pendingIO w ++ ts /\ Forall postGraph ts }.

(** ** States of the graph stage *)

Definition sameNameFile (m m' : NgModule) : Prop :=
  m_name m = m_name m' /\ m_file m = m_file m'.

(** The renderer was called for exactly the modules with relations among
    the first [n] modules, in order. *)
Definition callsUpTo (w0 w : World) (n : nat) : Prop :=
  List.filter isModuleGraphCall (trace w)
  = List.filter isModuleGraphCall (trace w0) ++
    map (moduleGraphCall w0)
      (List.filter (rendersGraph (dependenciesEngine w0)) (take n (modules (data (md w0))))).

Definition mainCalledOnce (e : Env) (w0 w : World) : Prop :=
  List.filter isMainGraphCall (trace w)
  = List.filter isMainGraphCall (trace w0) ++ [mainGraphCall e w0].

(** A state of the graph stage started in [w0], before the render stage:
    the first [n] modules have been dealt with. *)
Record GraphBefore (e : Env) (w0 w : World) (n : nat) : Prop := {
  gb_deps : dependenciesEngine w = dependenciesEngine w0;
  gb_options : options (md w) = options (md w0);
  gb_output : output (md w) = output (md w0);
  gb_modules : Forall2 sameNameFile (modules (data (md w))) (modules (data (md w0)));
  gb_main : mainCalledOnce e w0 w;
  gb_calls : callsUpTo w0 w n;
  gb_notStarted : List.filter isPagesStart (trace w) = List.filter isPagesStart (trace w0) }.

Inductive GraphStage (e : Env) (w0 w : World) : Prop :=
| GS_main (r : Result unit) :
    GraphBefore e w0 w 0 -> exited w = false -> microtasks w = [] ->
    pendingIO w = [TMainGraphRendered (withSlash (output (md w0)) +:+ "graph") r] ->
    GraphStage e w0 w
| GS_mainRead (r : Result string) :
    GraphBefore e w0 w 0 -> exited w = false -> microtasks w = [] ->
    pendingIO w = [TMainGraphRead r] ->
    GraphStage e w0 w
| GS_module (i : nat) (m : NgModule) (r : Result unit) :
    GraphBefore e w0 w (S i) -> exited w = false -> microtasks w = [] ->
    pendingIO w = [TModuleGraphRendered i (m_name m) (moduleGraphPath w0 m) r] ->
    GraphStage e w0 w
| GS_moduleRead (i : nat) (r : Result string) :
    GraphBefore e w0 w (S i) -> exited w = false -> microtasks w = [] ->
    pendingIO w = [TModuleGraphRead i r] ->
    GraphStage e w0 w
| GS_stopped (n : nat) :
    GraphBefore e w0 w n -> exited w = true \/ quiescent w ->
    GraphStage e w0 w
| GS_pages :
    mainCalledOnce e w0 w -> callsUpTo w0 w (length (modules (data (md w0)))) ->
    Forall postGraph (microtasks w) -> Forall postGraph (pendingIO w) ->
    GraphStage e w0 w.

(** The scenario of the graph stage: two modules, one without any relation,
    one with declarations; graphs enabled. *)
Definition oneEmptyModule : Collection :=
  mkCollection [emptyModule; appModule] [appComponent] [] [] [] [] [] emptyMisc None.

Definition graphScenario : World :=
  set_data oneEmptyModule
    (set_dependenciesEngine (engineInit oneEmptyModule) (freshWorld exampleOptions projectFiles)).

Definition allGraphsEnv : Env :=
  exampleEnv (fun _ => Ok "<div></div>") (fun _ _ => Ok tt) (fun _ _ _ => Ok tt)
    (fun _ => true) (fun _ => oneEmptyModule).

(** ** After the planning *)

(** The callbacks of the stages that follow the planning. *)
Definition laterTask (t : Task) : Prop :=
  match t with
  | TExported _ | TMainGraphRendered _ _ | TMainGraphRead _
  | TModuleGraphRendered _ _ _ _ | TModuleGraphRead _ _ => True
  | _ => postGraph t
  end.

(** From [w] to [w'] only callbacks of the later stages were queued, and
    the page list was left alone. *)
Record Later (w w' : World) : Prop := {
  later_pages : pages (configuration w') = pages (configuration w);
  later_microtasks : exists ts, microtasks w' = microtasks w ++ ts /\ Forall laterTask ts;
  later_pendingIO : exists ts, pendingIO w' = pendingIO w ++ ts /\ Forall laterTask ts }.

(** ** The plan *)

(** One page per entry, in crawl order, the first one for index [i]. *)
Fixpoint pagesFrom {A : Type} (mk : A -> nat -> Page) (l : list A) (i : nat) : list Page :=
  match l with
  | [] => []
  | x :: rest => mk x i :: pagesFrom mk rest (S i)
  end.

Definition modulePage (m : NgModule) (i : nat) : Page :=
  mkPage (m_name m) (m_id m) "modules" "" "module" (Some 1) (Some INTERNAL) (ModuleAt i).

Definition itemPage (k : Kind) (x : Item) (i : nat) : Page :=
  mkPage (i_name x) (i_id x) (kindPlural k) "" (kindContext k) (Some 1) (Some INTERNAL)
    (ItemAt k i).

Definition miscPages (m : Miscellaneous) : list Page :=
  (if nonEmpty (functions m) then [miscPage "functions"] else []) ++
  (if nonEmpty (variables m) then [miscPage "variables"] else []) ++
  (if nonEmpty (typealiases m) then [miscPage "typealiases"] else []) ++
  (if nonEmpty (enumerations m) then [miscPage "enumerations"] else []).

(** The pages one preparation action contributes for the collection [c];
    [cov] are the pages the coverage engine registers. *)
Definition pagesOf (c : Collection) (cov : list Page) (a : Action) : list Page :=
  match a with
  | APrepareModules => modulesRootPage :: pagesFrom modulePage (modules c) 0
  | APrepareComponents => pagesFrom componentPage (components c) 0
  | APrepareItems k => pagesFrom (itemPage k) (getItems k c) 0
  | APrepareRoutes => [routesRootPage]
  | APrepareMiscellaneous => miscPages (miscellaneous c)
  | APrepareCoverage => cov
  | APrepareExternalIncludes => []
  | AProcessMarkdowns => []
  end.

(** The section pages of a full build, in the canonical order. *)
Definition plannedPages (c : Collection) : list Page :=
  (modulesRootPage :: pagesFrom modulePage (modules c) 0) ++
  pagesFrom componentPage (components c) 0 ++
  pagesFrom (itemPage KDirective) (directives c) 0 ++
  pagesFrom (itemPage KInjectable) (injectables c) 0 ++
  (if hasRoutes (routes c) then [routesRootPage] else []) ++
  pagesFrom (itemPage KPipe) (pipes c) 0 ++
  pagesFrom (itemPage KClass) (classes c) 0 ++
  pagesFrom (itemPage KInterface) (interfaces c) 0 ++
  miscPages (miscellaneous c).

Definition sameNameId (m m' : NgModule) : Prop :=
  m_name m = m_name m' /\ m_id m = m_id m'.

(** Two component records that differ at most by readme and template data. *)
Definition sameComponent (x y : Component) : Prop :=
  c_name x = c_name y /\ c_id x = c_id y /\ c_file x = c_file y /\ templateUrl x = templateUrl y.

(** The registry still holds the crawl result [c], up to the filtering of
    the reference lists of its modules. *)
Record SameEntries (c' c : Collection) : Prop := {
  se_modules : Forall2 sameNameId (modules c') (modules c);
  se_components : components c' = components c;
  se_directives : directives c' = directives c;
  se_injectables : injectables c' = injectables c;
  se_pipes : pipes c' = pipes c;
  se_classes : classes c' = classes c;
  se_interfaces : interfaces c' = interfaces c;
  se_miscellaneous : miscellaneous c' = miscellaneous c;
  se_routes : routes c' = routes c }.

Record PlanFrame (w0 w : World) : Prop := {
  pf_options : options (md w) = options (md w0);
  pf_output : output (md w) = output (md w0);
  pf_entries : SameEntries (current (dependenciesEngine w)) (current (dependenciesEngine w0));
  pf_exited : exited w = false }.

(** The pages planned so far, after the actions [done]. *)
Definition plannedSoFar (w0 w : World) (cov : list Page) (done : list Action)
    (more : list Page) : Prop :=
  pages (configuration w)
  = pages (configuration w0) ++
    concat (map (pagesOf (current (dependenciesEngine w0)) cov) done) ++ more.

Definition coverageOf (e : Env) (cov : list Page) : Prop :=
  cov = [] \/ exists m, coverageCalculate e m = Ok cov.

(** The callbacks an action of the sequence can be waiting for, once its
    pages are planned. *)
Definition waitsFor (t : Task) (c : Cont) : Prop :=
  (exists r, t = TRoutesIndex r c) \/ (exists r, t = TSummary r c) \/
  (exists items i r, t = TInclude items i r c) \/
  (exists items i j r, t = TIncludeChild items i j r c).

Inductive PlanStage (e : Env) (w0 w : World) : Prop :=
| PS_seq (done rest : list Action) (cov : list Page) :
    PlanFrame w0 w -> everythingActions e w0 = done ++ rest -> coverageOf e cov ->
    microtasks w = [TSeq rest KEverything] -> pendingIO w = [] ->
    plannedSoFar w0 w cov done [] ->
    PlanStage e w0 w
| PS_template (done rest : list Action) (cov : list Page) (i : nat) (r : Result string) :
    PlanFrame w0 w -> everythingActions e w0 = done ++ APrepareComponents :: rest ->
    coverageOf e cov ->
    microtasks w = [] -> pendingIO w = [TTemplate i r (ContSeq rest KEverything)] ->
    Forall2 sameComponent (components (data (md w)))
      (components (current (dependenciesEngine w0))) ->
    i < length (components (current (dependenciesEngine w0))) ->
    plannedSoFar w0 w cov done
      (pagesFrom componentPage (take (S i) (components (current (dependenciesEngine w0)))) 0) ->
    PlanStage e w0 w
| PS_waiting (done rest : list Action) (cov : list Page) (t : Task) :
    PlanFrame w0 w -> everythingActions e w0 = done ++ rest -> coverageOf e cov ->
    microtasks w = [] -> pendingIO w = [t] -> waitsFor t (ContSeq rest KEverything) ->
    plannedSoFar w0 w cov done [] ->
    PlanStage e w0 w
| PS_coverage (done rest : list Action) (cov : list Page) (r : Result (list Page)) :
    PlanFrame w0 w -> everythingActions e w0 = done ++ APrepareCoverage :: rest ->
    (forall ps, r = Ok ps -> exists m, coverageCalculate e m = Ok ps) ->
    microtasks w = [] -> pendingIO w = [TCoverage r (ContSeq rest KEverything)] ->
    plannedSoFar w0 w cov done [] ->
    PlanStage e w0 w
| PS_stopped :
    microtasks w = [] -> exited w = true \/ pendingIO w = [] ->
    PlanStage e w0 w
| PS_later :
    Forall laterTask (microtasks w) -> Forall laterTask (pendingIO w) ->
    PlanStage e w0 w.

Definition isCoverageAction (a : Action) : bool :=
  match a with APrepareCoverage => true | _ => false end.

(** A project with components, a pipe and routes, and no directive. *)
Definition pipedProject : Collection :=
  mkCollection [appModule] [listComponent] [] []
    [mkItem "DatePipe" "pipe-DatePipe" "/project/src/date.pipe.ts" None] [] []
    emptyMisc (Some (mkRouteTree ["home"])).

Definition pipedWorld : World :=
  set_dependenciesEngine (engineInit pipedProject) (freshWorld plainOptions projectFiles).

(** ** Frames of the render stage and of the planner *)

(** What the block that starts the pages of one [Promise.all] leaves
    untouched, and what it leaves outstanding. *)
Record StageStarted (w w' : World) : Prop := {
  started_appState : appState w' = appState w;
  started_configuration : configuration w' = configuration w;
  started_dependenciesEngine : dependenciesEngine w' = dependenciesEngine w;
  started_proc : proc w' = proc w;
  started_index : searchIndexJson (searchEngine w') = searchIndexJson (searchEngine w);
  started_final : List.filter isFinalEffect (trace w') = List.filter isFinalEffect (trace w);
  started_outstanding : outstanding w < outstanding w' }.

(** What the synchronous preparation loops leave untouched. *)
Record SamePlan (w w' : World) : Prop := {
  sp_options : options (md w') = options (md w);
  sp_output : output (md w') = output (md w);
  sp_deps : dependenciesEngine w' = dependenciesEngine w;
  sp_proc : proc w' = proc w;
  sp_microtasks : microtasks w' = microtasks w;
  sp_pendingIO : pendingIO w' = pendingIO w }.

(** ** The loop over the module graphs *)


(** The effects of the render, index and finalization stages. *)
Definition isLaterEffect (ev : Event) : bool :=
  match ev with
  | Render _ | IndexPage _ | WriteFile _ | GenerateSearchIndexJson _ | Copy _ _
  | LiveServerStart _ => true
  | _ => false
  end.

(** The state in which [getDependenciesData] and [prepareModules] leave the
    application of [twoModules], when the graph stage reaches the loop over
    the modules. *)
Definition twoModulesWorld : World :=
  set_data twoModules
    (set_dependenciesEngine (engineInit twoModules) (freshWorld exampleOptions projectFiles)).

(** ** Completion and the fatal-error handlers *)


(** The generation promise has been resolved. *)
Definition promiseResolved (w : World) : bool :=
  match generationPromise (proc w) with Resolved => true | _ => false end.

(** What a build has to show for its completion: the registrations of the
    fatal-error handlers and the resolution of the generation promise. *)
Definition completion (w : World) : nat * nat * bool := (handlers w, promiseResolved w).

(** ** A graph stage that succeeds *)


(** The graph of one module can be produced: the registry has its raw
    record, and when that record has relations the render and the read of
    the result succeed. *)
Definition graphSucceeds (e : Env) (d : Deps) (out : string) (m : NgModule) : Prop :=
  exists raw,
    getRawModule d (m_name m) = Some raw /\
    (hasRelations raw = true ->
     let finalPath := withSlash out +:+ "modules/" +:+ m_name m in
     ngdRenderGraph e (m_file m) finalPath "f" = Ok tt /\
     exists svg,
       ngdReadGraph e (resolve e (finalPath +:+ sep e +:+ "dependencies.svg")) (m_name m) = Ok svg).

(** The turns of the event loop the graph stage takes when no module graph
    fails: two for the whole-project graph, or one when its render fails,
    and two for each module with relations. *)
Definition graphTurns (e : Env) (w : World) : nat :=
  match ngdRenderGraph e (tsconfig (opts w)) (resolve e (withSlash (output (md w)) +:+ "graph")) "p" with
  | Ok _ => 2
  | Err _ => 1
  end +
  2 * length (List.filter (rendersGraph (dependenciesEngine w)) (modules (data (md w)))).

(** The whole-project graph is disabled. *)
Definition mainGraphOff (w : World) : bool := disableMainGraph (md w).

(** ** A watched project whose whole-project graph fails once *)

Definition watchGraphOptions : Options :=
  {| exportFormat := "html"; disableGraph := false; disableCoverage := true;
     includes := ""; includesFolder := "additional-documentation";
     serve := true; watch := true; assetsFolder := ""; extTheme := "";
     customFavicon := ""; theme := "gitbook"; port := "8080";
     tsconfig := "tsconfig.json" |}.

(** Graphviz fails on the whole project and succeeds on every module. *)
Definition mainGraphFailsEnv : Env :=
  exampleEnv (fun _ => Ok "<div></div>") (fun _ _ => Ok tt)
    (fun _ _ mode => if mode =? "p" then Err "dot: command failed" else Ok tt)
    (fun _ => true) (fun _ => twoModules).

(** Graphviz is back. *)
Definition graphsBackEnv : Env :=
  exampleEnv (fun _ => Ok "<div></div>") (fun _ _ => Ok tt) (fun _ _ _ => Ok tt)
    (fun _ => true) (fun _ => twoModules).

(** The first build of the watched project, run to its end. *)
Definition firstWatchedBuild : World :=
  run mainGraphFailsEnv (fifo 60)
    (generate mainGraphFailsEnv (freshWorld watchGraphOptions projectFiles)).

(** The rebuild after a change of [app.module.ts], with a working
    renderer, run to its end. *)
Definition secondWatchedBuild : World :=
  let a := appState firstWatchedBuild in
  let changed := set_appState (mkAppState (files a) (updatedFiles a)
                                 ["/project/src/app.module.ts"] (isWatching a))
                   firstWatchedBuild in
  run graphsBackEnv (fifo 60) (runnerChange graphsBackEnv changed).

(** An error entry of the log. *)
Definition isLoggedError (ev : Event) : bool :=
  match ev with Log ERROR _ => true | _ => false end.

(** The callback that waits for the promise of an action. *)
Definition contTask (c : Cont) : Task :=
  match c with
  | ContDependencies => TGetDependenciesData
  | ContSeq rest k => TSeq rest k
  end.

(** ** External documentation *)

(** The text of an included file, when it can be read. *)
Definition includedText (e : Env) (o : Options) (file : string) : string :=
  match getTraditionalMarkdown e (includes o +:+ sep e +:+ file) with
  | Ok markedData => markedData
  | Err _ => ""
  end.

Definition readable (e : Env) (o : Options) (file : string) : Prop :=
  exists markedData, getTraditionalMarkdown e (includes o +:+ sep e +:+ file) = Ok markedData.

(** The additional page of an entry of [summary.json], and of one of its
    children. *)
Definition includePage (e : Env) (o : Options) (it : SummaryItem) : Page :=
  mkPage (s_title it) (s_title it) (includesFolder o)
    (cleanNameWithoutSpaceAndToLowerCase e (s_title it)) "additional-page"
    (Some 1) (Some INTERNAL) (AdditionalPage (includedText e o (s_file it))).

Definition includeChildPage (e : Env) (o : Options) (it : SummaryItem) (ch : SummaryChild) : Page :=
  mkPage (sc_title ch) (sc_title ch)
    (includesFolder o +:+ "/" +:+ cleanNameWithoutSpaceAndToLowerCase e (s_title it))
    (cleanNameWithoutSpaceAndToLowerCase e (sc_title ch)) "additional-page"
    (Some 2) (Some INTERNAL) (AdditionalPage (includedText e o (sc_file ch))).

(** An entry followed by its children, in the order of the summary. *)
Definition includePagesOf (e : Env) (o : Options) (it : SummaryItem) : list Page :=
  includePage e o it :: map (includeChildPage e o it) (s_children it).

Definition includeReadable (e : Env) (o : Options) (it : SummaryItem) : Prop :=
  readable e o (s_file it) /\ Forall (fun ch => readable e o (sc_file ch)) (s_children it).

(** The files the summary names: one read each. *)
Definition includeReads (items : list SummaryItem) : nat :=
  length (concat (map (fun it => s_file it :: map sc_file (s_children it)) items)).

(** What the loops of [prepareExternalIncludes] leave untouched. *)
Record IncludesFrame (w w' : World) : Prop := {
  if_options : options (md w') = options (md w);
  if_output : output (md w') = output (md w);
  if_data : data (md w') = data (md w);
  if_pages : pages (configuration w') = pages (configuration w);
  if_proc : proc w' = proc w;
  if_appState : appState w' = appState w;
  if_searchEngine : searchEngine w' = searchEngine w;
  if_dependenciesEngine : dependenciesEngine w' = dependenciesEngine w }.


(** ** A planning that succeeds *)

Definition hasTemplateUrl (comp : Component) : bool :=
  Nat.ltb 0 (String.length (templateUrl comp)).

(** The path [handleTemplateurl] resolves for a component. *)
Definition templatePath (e : Env) (comp : Component) : string :=
  resolve e (dirname e (c_file comp) +:+ sep e +:+ templateUrl comp).

Definition templateReadable (e : Env) (comp : Component) : Prop :=
  hasTemplateUrl comp = true ->
  existsSync e (templatePath e comp) = true /\
  exists data_, fileGet e (templatePath e comp) = Ok data_.

Definition summaryPath (e : Env) (o : Options) : string :=
  cwd e +:+ sep e +:+ includes o +:+ sep e +:+ "summary.json".

Definition summaryItems (e : Env) (o : Options) : list SummaryItem :=
  match fileGet e (summaryPath e o) with
  | Ok summaryData => default [] (parseSummary e summaryData)
  | Err _ => []
  end.

(** No preparation action of the full build of [w] fails: the external
    templates can be read, the routes index can be generated, the coverage
    engine resolves, the summary of the external documentation and the
    files it names can be read. *)
Record PlanSucceeds (e : Env) (w : World) : Prop := {
  ok_templates :
    Forall (templateReadable e) (components (current (dependenciesEngine w)));
  ok_routes :
    hasRoutes (routes (current (dependenciesEngine w))) = true ->
    exportFormat (opts w) = defaultExportFormat e ->
    generateRoutesIndex e (output (md w)) (routes (current (dependenciesEngine w))) = Ok tt;
  ok_coverage :
    disableCoverage (opts w) = false -> forall m, exists ps, coverageCalculate e m = Ok ps;
  ok_includes :
    includes (opts w) <> "" ->
    exists summaryData items,
      fileGet e (summaryPath e (opts w)) = Ok summaryData /\
      parseSummary e summaryData = Some items /\
      Forall (includeReadable e (opts w)) items }.

(** The turns of the event loop one preparation action takes when it
    succeeds: the reaction that calls it, and one turn for each read or
    write it waits for. *)
Definition actionTurns (e : Env) (w : World) (a : Action) : nat :=
  match a with
  | APrepareComponents =>
      1 + length (List.filter hasTemplateUrl (components (current (dependenciesEngine w))))
  | APrepareRoutes => if exportFormat (opts w) =? defaultExportFormat e then 2 else 1
  | APrepareCoverage => 2
  | APrepareExternalIncludes => 2 + includeReads (summaryItems e (opts w))
  | _ => 1
  end.

Definition planTurns (e : Env) (w : World) : nat :=
  list_sum (map (actionTurns e w) (everythingActions e w)).

(** The contexts of the pages the section actions plan. *)
Definition sectionContexts : list string :=
  ["modules"; "module"; "component"; "directive"; "injectable"; "routes"; "pipe"; "class";
   "interface"; "miscellaneous-functions"; "miscellaneous-variables";
   "miscellaneous-typealiases"; "miscellaneous-enumerations"].

Definition isSectionPage (p : Page) : bool :=
  existsb (String.eqb (p_context p)) sectionContexts.

Definition noSectionPage (ps : list Page) : Prop :=
  Forall (fun p => isSectionPage p = false) ps.

Definition hasContext (ctx : string) (p : Page) : bool := p_context p =? ctx.

(** * Properties *)

(** ** Render and index: one page *)
Lemma pageWritten_searchEngine ph a name r w :
  searchEngine (pageWritten ph a name r w) = searchEngine w.
Proof.
  unfold pageWritten, allCatch, unhandledRejection, unhandledRejectionListener.
  destruct r, ph; simpl;
    repeat (match goal with
            | |- context [match ?x with _ => _ end] => destruct x; simpl
            end); reflexivity.
Qed.

(** C10: [processPage] submits the rendered text of the page to the search
    index before it attempts the write: the document is appended to the
    in-memory index, the [IndexPage] effect precedes the [WriteFile] effect,
    the write is only left outstanding, and whatever the write settles with,
    the document is still in the index afterwards. *)
Theorem processPage_indexes_before_write (e : Env) (ph : Phase) (a : nat) (page : Page) (w : World) :
  let doc := mkDoc page (htmlRender e (md w) page) (pagePath w page) in
  let w' := processPage e ph a page w in
  documentsStore (searchEngine w') = documentsStore (searchEngine w) ++ [doc] /\
  trace w' = trace w ++ [Log INFO ("Process page " +:+ p_name page); Render (p_name page);
                         IndexPage (url doc); WriteFile (url doc)] /\
  pendingIO w' = pendingIO w ++ [TPageWritten ph a (p_name page) (fileWrite e (url doc) (rawData doc))] /\
  forall r : Result unit,
    In doc (documentsStore (searchEngine (exec e (TPageWritten ph a (p_name page) r) w'))).
Proof.
  simpl. repeat split.
  - unfold processPage, info, emit. simpl. now rewrite <- !app_assoc.
  - intros r. rewrite pageWritten_searchEngine. simpl.
    apply in_or_app. right. now left.
Qed.

(** ** Watch classification *)
Lemma fold_flag {A : Type} (f : A -> bool) (l : list A) (b : bool) :
  fold_left (fun result x => if f x then true else result) l b = existsb f l || b.
Proof.
  revert b. induction l as [|x l IH]; intros b; simpl; [reflexivity|].
  rewrite IH. destruct (f x), (existsb f l), b; reflexivity.
Qed.

Lemma hasWatchedFilesTSFiles_spec e w :
  hasWatchedFilesTSFiles e w = true <->
  exists file, In file (updatedFiles (appState w)) /\ isTSFile e file.
Proof.
  unfold hasWatchedFilesTSFiles, isTSFile. rewrite fold_flag, orb_false_r, existsb_exists.
  split; intros [f [Hin Hf]]; exists f; split; auto; now apply String.eqb_eq.
Qed.

Lemma hasWatchedFilesRootMarkdownFiles_spec e w :
  hasWatchedFilesRootMarkdownFiles e w = true <->
  exists file, In file (updatedFiles (appState w)) /\ isRootMarkdownFile e file.
Proof.
  unfold hasWatchedFilesRootMarkdownFiles, isRootMarkdownFile.
  rewrite fold_flag, orb_false_r, existsb_exists.
  split; intros [f [Hin Hf]]; exists f; split; auto.
  - apply andb_true_iff in Hf. destruct Hf as [H1 H2].
    split; now apply String.eqb_eq.
  - destruct Hf as [H1 H2]. apply andb_true_iff. split; now apply String.eqb_eq.
Qed.

(** C5: when the content-change timer fires, [runnerChange] takes the
    accumulated changed files as the updated files and chooses the rebuild
    path by priority: a changed [.ts] file selects the micro-rebuild;
    otherwise a changed markdown file of the project root selects the
    root-markdown rebuild; otherwise the external-documentation rebuild
    runs. *)
Theorem runnerChange_priority (e : Env) (w : World) :
  let changed := watchChangedFiles (appState w) in
  let w0 := setUpdatedFiles changed w in
  ((exists file, In file changed /\ isTSFile e file) ->
   runnerChange e w = getMicroDependenciesData e w0) /\
  (~ (exists file, In file changed /\ isTSFile e file) ->
   (exists file, In file changed /\ isRootMarkdownFile e file) ->
   runnerChange e w = rebuildRootMarkdowns e w0) /\
  (~ (exists file, In file changed /\ isTSFile e file) ->
   ~ (exists file, In file changed /\ isRootMarkdownFile e file) ->
   runnerChange e w = rebuildExternalDocumentation e w0).
Proof.
  intros changed w0. unfold runnerChange. fold changed. fold w0.
  pose proof (hasWatchedFilesTSFiles_spec e w0) as Hts.
  pose proof (hasWatchedFilesRootMarkdownFiles_spec e w0) as Hmd.
  change (updatedFiles (appState w0)) with changed in Hts, Hmd.
  destruct (hasWatchedFilesTSFiles e w0), (hasWatchedFilesRootMarkdownFiles e w0);
    repeat split; intros; try reflexivity;
    try (exfalso; match goal with
                  | H : ~ _ |- _ => apply H; (apply Hts || apply Hmd); reflexivity
                  end);
    try (match goal with
         | H : exists _, _ |- _ =>
             (apply Hts in H || apply Hmd in H); discriminate H
         end).
Qed.

Lemma runnerChange_priority_witness :
  runnerChange quietEnv (changedWorld ["/project/src/a.ts"; "/project/README.md"])
  = getMicroDependenciesData quietEnv
      (setUpdatedFiles ["/project/src/a.ts"; "/project/README.md"]
         (changedWorld ["/project/src/a.ts"; "/project/README.md"])) /\
  runnerChange quietEnv (changedWorld ["/project/README.md"])
  = rebuildRootMarkdowns quietEnv
      (setUpdatedFiles ["/project/README.md"] (changedWorld ["/project/README.md"])) /\
  runnerChange quietEnv (changedWorld ["/project/docs/summary.json"])
  = rebuildExternalDocumentation quietEnv
      (setUpdatedFiles ["/project/docs/summary.json"]
         (changedWorld ["/project/docs/summary.json"])).
Proof.
  split; [|split].
  - refine (proj1 (runnerChange_priority quietEnv
                     (changedWorld ["/project/src/a.ts"; "/project/README.md"])) _).
    exists "/project/src/a.ts". split; [simpl; auto | reflexivity].
  - refine (proj1 (proj2 (runnerChange_priority quietEnv
                            (changedWorld ["/project/README.md"]))) _ _).
    + intros [f [[Hf|[]] Hts]]. subst f. discriminate Hts.
    + exists "/project/README.md". split; [simpl; auto | split; reflexivity].
  - refine (proj2 (proj2 (runnerChange_priority quietEnv
                            (changedWorld ["/project/docs/summary.json"]))) _ _).
    + intros [f [[Hf|[]] Hts]]. subst f. discriminate Hts.
    + intros [f [[Hf|[]] [Hmd _]]]. subst f. discriminate Hmd.
Defined.


Lemma Forall2_alter_l {A : Type} (R : A -> A -> Prop) (f : A -> A) (i : nat) (l l' : list A) :
  (forall x y, R x y -> R (f x) y) -> Forall2 R l l' -> Forall2 R (alter f i l) l'.
Proof.
  intros Hf H. revert i. induction H as [|x y l l' Hxy H IH]; intros i.
  - constructor.
  - destruct i as [|i]; [constructor; auto|].
    change (alter f (S i) (x :: l)) with (x :: alter f i l). constructor; auto.
Qed.











(** Membership in a list that has been computed. *)
Ltac find_in_list := repeat (first [left; reflexivity | right]).

(** ** The event loop at rest *)

Lemma step_quiescent e pick w : quiescent w -> step e pick w = w.
Proof.
  intros [Hm Hp]. unfold step. rewrite Hm, Hp. simpl.
  destruct (exited w); [reflexivity|]. now destruct pick.
Qed.

Lemma run_quiescent e picks w : quiescent w -> run e picks w = w.
Proof.
  intros H. induction picks as [|p picks IH]; simpl; [reflexivity|].
  rewrite step_quiescent by exact H. exact IH.
Qed.

Lemma step_exited e pick w : exited w = true -> step e pick w = w.
Proof. intros H. unfold step. now rewrite H. Qed.

Lemma run_exited e picks w : exited w = true -> run e picks w = w.
Proof.
  intros H. induction picks as [|p picks IH]; simpl; [reflexivity|].
  rewrite step_exited by exact H. exact IH.
Qed.

(** With a single outstanding operation and no promise reaction queued, the
    next turn runs the callback of that operation, whatever [pick] is. *)
Lemma step_single_io e pick w t :
  exited w = false -> microtasks w = [] -> pendingIO w = [t] ->
  step e pick w = exec e t (set_pendingIO [] w).
Proof.
  intros He Hm Hp. unfold step. rewrite He, Hm, Hp.
  replace (pick mod length [t]) with 0 by (simpl length; now rewrite Nat.mod_1_r).
  reflexivity.
Qed.

Lemma step_micro e pick w t q :
  exited w = false -> microtasks w = t :: q ->
  step e pick w = exec e t (set_microtasks q w).
Proof. intros He Hm. unfold step. now rewrite He, Hm. Qed.

(** ** Graph stage: failure of one module *)

(** C3: with graphs enabled, when the loop of the graph stage reaches a
    module with relations whose graph cannot be rendered, or can be
    rendered but not read, the failure is logged and is fatal for the whole
    build: the loop is not continued, so the remainder of the graph stage is
    aborted (the renderer is called for no module that follows), and the
    build does not proceed: nothing is left to run, whatever the number of
    further turns, so no page is rendered, indexed or written, no index is
    persisted and nothing is copied. *)
Theorem module_graph_failure_halts_build (e : Env) (m : NgModule) (rest : list NgModule)
    (i : nat) (w : World) (raw : NgModule) (pick1 pick2 : nat) (picks : list nat) :
  quiescent w -> exited w = false ->
  getRawModule (dependenciesEngine w) (m_name m) = Some raw -> hasRelations raw = true ->
  let finalPath := withSlash (output (md w)) +:+ "modules/" +:+ m_name m in
  let svg := resolve e (finalPath +:+ sep e +:+ "dependencies.svg") in
  ((exists msg, ngdRenderGraph e (m_file m) finalPath "f" = Err msg) \/
   (ngdRenderGraph e (m_file m) finalPath "f" = Ok tt /\
    exists msg, ngdReadGraph e svg (m_name m) = Err msg)) ->
  let w' := run e (pick1 :: pick2 :: picks) (graphLoop e (m :: rest) i w) in
  (exists evs logged,
      trace w' = trace w ++ Log INFO ("Process module graph " +:+ m_name m)
                   :: RenderGraph (m_file m) finalPath "f" :: evs ++ [Log ERROR logged] /\
      (evs = [] \/ evs = [ReadGraph svg])) /\
  quiescent w' /\
  List.filter isModuleGraphCall (trace w')
  = List.filter isModuleGraphCall (trace w) ++ [RenderGraph (m_file m) finalPath "f"] /\
  List.filter isLaterEffect (trace w') = List.filter isLaterEffect (trace w) /\
  List.filter isPagesStart (trace w') = List.filter isPagesStart (trace w) /\
  searchEngine w' = searchEngine w /\
  configuration w' = configuration w /\
  proc w' = proc w.
Proof.
  intros [Hm Hp] Hex Hraw Hrel finalPath svg Hfail w'. subst w'.
  change (run e (pick1 :: pick2 :: picks) (graphLoop e (m :: rest) i w))
    with (run e picks (step e pick2 (step e pick1 (graphLoop e (m :: rest) i w)))).
  cbn [graphLoop].
  change (dependenciesEngine (info ("Process module graph " +:+ m_name m) w))
    with (dependenciesEngine w).
  rewrite Hraw, Hrel.
  change (withSlash (output (md (info ("Process module graph " +:+ m_name m) w))) +:+
          "modules/" +:+ m_name m) with finalPath.
  set (v := emit (RenderGraph (m_file m) finalPath "f")
              (info ("Process module graph " +:+ m_name m) w)).
  destruct Hfail as [[msg Hrender] | [Hrender [msg Hread]]]; rewrite Hrender.
  - rewrite (step_single_io e pick1 _ (TModuleGraphRendered i (m_name m) finalPath (Err msg)));
      [| exact Hex | exact Hm | unfold startIO; cbn; now rewrite Hp ].
    cbn [exec moduleGraphRendered].
    rewrite step_quiescent by (split; [exact Hm | reflexivity]).
    rewrite run_quiescent by (split; [exact Hm | reflexivity]).
    subst v. unfold error, info, emit, startIO. cbn.
    rewrite <- !app_assoc, !List.filter_app. cbn. rewrite !app_nil_r.
    split; [exists [], msg; split; [reflexivity | now left]|].
    repeat split; assumption.
  - rewrite (step_single_io e pick1 _ (TModuleGraphRendered i (m_name m) finalPath (Ok tt)));
      [| exact Hex | exact Hm | unfold startIO; cbn; now rewrite Hp ].
    cbn [exec moduleGraphRendered]. fold svg. rewrite Hread.
    rewrite (step_single_io e pick2 _ (TModuleGraphRead i (Err msg)));
      [| exact Hex | exact Hm | reflexivity ].
    cbn [exec moduleGraphRead].
    rewrite run_quiescent by (split; [exact Hm | reflexivity]).
    subst v. unfold error, info, emit, startIO. cbn.
    rewrite <- !app_assoc, !List.filter_app. cbn. rewrite !app_nil_r.
    split; [exists [ReadGraph svg], ("Error during graph read: " +:+ msg);
            split; [reflexivity | now right]|].
    repeat split; assumption.
Qed.

Lemma module_graph_failure_halts_build_witness :
  let w' := run graphFailsEnv [0; 0; 0] (graphLoop graphFailsEnv [appModule; sharedModule] 0 twoModulesWorld) in
  quiescent w' /\
  List.filter isModuleGraphCall (trace w')
  = [RenderGraph "/project/src/app.module.ts" "/project/documentation/modules/AppModule" "f"] /\
  List.filter isLaterEffect (trace w') = [].
Proof.
  pose proof (module_graph_failure_halts_build graphFailsEnv appModule [sharedModule] 0
                twoModulesWorld appModule 0 0 [0]
                ltac:(split; reflexivity) eq_refl eq_refl eq_refl
                (or_introl (ex_intro _ "dot: command failed" eq_refl))) as H.
  destruct H as (_ & H2 & H3 & H4 & _).
  intros w'. split; [exact H2|]. split; [exact H3 | exact H4].
Defined.

Ltac not_in_list :=
  let H := fresh in
  intros H; repeat (destruct H as [H|H]; [discriminate H|]); exact H.

(** ** Components with an external template *)

Lemma templateData_alter_readme r i l :
  map templateData (alter (withComponentReadme r) i l) = map templateData l.
Proof.
  revert i. induction l as [|x l IH]; intros i; [reflexivity|].
  destruct i as [|i]; [reflexivity|].
  change (alter (withComponentReadme r) (S i) (x :: l))
    with (x :: alter (withComponentReadme r) i l).
  simpl. now rewrite IH.
Qed.

Lemma componentsLoop_template e comp rest i c w :
  Nat.ltb 0 (String.length (templateUrl comp)) = true ->
  componentsLoop e (comp :: rest) i c w
  = handleTemplateurl e i comp c (componentPlanned e comp i w).
Proof. intros H. simpl. rewrite H. reflexivity. Qed.

Lemma componentPlanned_frame e comp i w :
  let w' := componentPlanned e comp i w in
  pages (configuration w') = pages (configuration w) ++ [componentPage comp i] /\
  map templateData (components (data (md w'))) = map templateData (components (data (md w))) /\
  microtasks w' = microtasks w /\ pendingIO w' = pendingIO w /\ proc w' = proc w.
Proof.
  unfold componentPlanned, componentAdded.
  destruct (hasNeighbourReadmeFile e (c_file comp)); simpl; repeat split.
  apply templateData_alter_readme.
Qed.

(** C6 (as amended): for a component whose external template cannot be
    resolved, the page of that component is planned, without template data,
    and the failure is logged as an error; but the preparation stops at that
    component: nothing is left to run, so the remaining components are not
    planned and the promise of [prepareComponents] is never settled.  This
    holds when the template file is missing and when it exists but cannot
    be read. *)
Theorem unresolved_template_stalls_preparation (e : Env) (comp : Component)
    (rest : list Component) (i : nat) (c : Cont) (w : World) (pick : nat) (picks : list nat) :
  Nat.ltb 0 (String.length (templateUrl comp)) = true ->
  quiescent w -> exited w = false ->
  let templatePath := resolve e (dirname e (c_file comp) +:+ sep e +:+ templateUrl comp) in
  let w' := run e (pick :: picks) (componentsLoop e (comp :: rest) i c w) in
  (existsSync e templatePath = false \/ exists msg, fileGet e templatePath = Err msg) ->
  pages (configuration w') = pages (configuration w) ++ [componentPage comp i] /\
  map templateData (components (data (md w'))) = map templateData (components (data (md w))) /\
  (exists msg, In (Log ERROR msg) (trace w')) /\
  quiescent w' /\
  proc w' = proc w.
Proof.
  intros Hurl [Hm Hp] He templatePath w' Hfail. subst w'.
  rewrite componentsLoop_template by exact Hurl.
  destruct (componentPlanned_frame e comp i w) as (Hpages & Htd & Hm' & Hp' & Hproc).
  remember (componentPlanned e comp i w) as w1 eqn:Ew1. clear Ew1.
  unfold handleTemplateurl. fold templatePath.
  destruct (existsSync e templatePath) eqn:Hex; simpl negb; cbv iota.
  - destruct Hfail as [Hfail | [msg Hmsg]]; [discriminate Hfail|].
    rewrite Hmsg.
    change (run e (pick :: picks) ?x) with (run e picks (step e pick x)).
    rewrite (step_single_io e pick _ (TTemplate i (Err msg) c)).
    + simpl exec. rewrite run_quiescent.
      * unfold error, emit, startIO. cbn. repeat split; cbn; try assumption; try congruence.
        exists msg. apply in_or_app. left. apply in_or_app. right. now left.
      * unfold error, emit, startIO. split; cbn; [congruence | reflexivity].
    + unfold exited in *. cbn. now rewrite Hproc.
    + cbn. congruence.
    + cbn. rewrite Hp', Hp. reflexivity.
  - rewrite run_quiescent.
    + unfold error, emit. cbn. repeat split; cbn; try assumption; try congruence.
      exists ("Cannot read template for " +:+ c_name comp). apply in_or_app. right. now left.
    + unfold error, emit. split; cbn; congruence.
Qed.

Lemma unresolved_template_stalls_preparation_witness :
  let w := run templateMissingEnv (fifo 9)
             (generate templateMissingEnv (freshWorld exampleOptions projectFiles)) in
  let w' := run templateMissingEnv (fifo 3) w in
  microtasks w = [TSeq [APrepareComponents] KEverything] /\
  pages (configuration w') = pages (configuration w) ++ [componentPage appComponent 0] /\
  quiescent w'.
Proof.
  intros w w'.
  split; [vm_compute; reflexivity|].
  set (w1 := set_data (set_components (components (current (dependenciesEngine w))) (data (md w)))
               (info "Prepare components" (set_microtasks [] w))).
  assert (w' = run templateMissingEnv [0; 0]
                 (componentsLoop templateMissingEnv [appComponent; listComponent] 0
                    (ContSeq [] KEverything) w1)) as Hw' by (vm_compute; reflexivity).
  rewrite Hw'.
  assert (existsSync templateMissingEnv
            (resolve templateMissingEnv
               (dirname templateMissingEnv (c_file appComponent) +:+ sep templateMissingEnv +:+
                templateUrl appComponent)) = false) as Hex by (vm_compute; reflexivity).
  pose proof (unresolved_template_stalls_preparation templateMissingEnv appComponent
                [listComponent] 0 (ContSeq [] KEverything) w1 0 [0]
                ltac:(vm_compute; reflexivity)
                ltac:(split; vm_compute; reflexivity)
                ltac:(vm_compute; reflexivity)
                (or_introl Hex)) as H.
  split; [exact (proj1 H) | exact (proj1 (proj2 (proj2 (proj2 H))))].
Defined.

(** C6 as stated fails: the template of [AppComponent] is missing; the page
    of [AppComponent] is planned, but [ListComponent], the next component,
    never gets a page, the render stage never starts and the build is never
    reported as done: the preparation does not complete. *)
Lemma missing_template_blocks_remaining_components :
  let w := run templateMissingEnv (fifo 50)
             (generate templateMissingEnv (freshWorld exampleOptions projectFiles)) in
  In (Log ERROR "Cannot read template for AppComponent") (trace w) /\
  In (componentPage appComponent 0) (pages (configuration w)) /\
  ~ In "ListComponent" (map p_name (pages (configuration w))) /\
  ~ In (Log INFO "Process pages") (trace w) /\
  quiescent w /\
  ~ reportedDone w.
Proof.
  vm_compute. repeat split; try find_in_list; try not_in_list.
  discriminate.
Qed.

(** ** Starting the render stage *)

Lemma filter_app_nil {A : Type} (f : A -> bool) (l l' : list A) :
  List.filter f l' = [] -> List.filter f (l ++ l') = List.filter f l.
Proof. intros H. now rewrite List.filter_app, H, app_nil_r. Qed.

Lemma fold_processPage_frame e ph a ps w :
  let w' := fold_left (fun w page => processPage e ph a page w) ps w in
  appState w' = appState w /\ configuration w' = configuration w /\
  dependenciesEngine w' = dependenciesEngine w /\ proc w' = proc w /\
  searchIndexJson (searchEngine w') = searchIndexJson (searchEngine w) /\
  List.filter isFinalEffect (trace w') = List.filter isFinalEffect (trace w) /\
  microtasks w' = microtasks w /\ promiseAlls w' = promiseAlls w /\
  length (pendingIO w') = length (pendingIO w) + length ps.
Proof.
  revert w. induction ps as [|p ps IH]; intros w; simpl.
  - repeat split. lia.
  - destruct (IH (processPage e ph a p w)) as (H1 & H2 & H3 & H4 & H5 & H6 & H7 & H8 & H9).
    rewrite H1, H2, H3, H4, H5, H6, H7, H8, H9.
    unfold processPage, indexPage, startIO, info, emit. cbn.
    repeat split.
    + rewrite <- !app_assoc. apply filter_app_nil. reflexivity.
    + rewrite length_app. simpl. lia.
Qed.

Lemma promiseAllPages_started e ph ps w : StageStarted w (promiseAllPages e ph ps w).
Proof.
  unfold promiseAllPages.
  set (w0 := set_promiseAlls (promiseAlls w ++ [mkAllCell (length ps) false]) w).
  destruct (fold_processPage_frame e ph (length (promiseAlls w)) ps w0)
    as (H1 & H2 & H3 & H4 & H5 & H6 & H7 & H8 & H9).
  destruct ps as [|p ps].
  - constructor; try reflexivity. unfold outstanding, enqueue. cbn.
    rewrite length_app. simpl. lia.
  - remember (fold_left _ (p :: ps) w0) as w1 eqn:E. clear E.
    constructor; try assumption.
    unfold outstanding. rewrite H7, H9. subst w0. cbn. lia.
Qed.

Lemma StageStarted_after_log w w' l msg :
  StageStarted (emit (Log l msg) w) w' -> StageStarted w w'.
Proof.
  intros [H1 H2 H3 H4 H5 H6 H7]. constructor; try assumption.
  rewrite H6. unfold emit. cbn. apply filter_app_nil. reflexivity.
Qed.

Lemma processPages_started e w : StageStarted w (processPages e w).
Proof.
  unfold processPages. eapply StageStarted_after_log. apply promiseAllPages_started.
Qed.

Lemma processGraphs_started e w : StageStarted w (processGraphs e w).
Proof.
  unfold processGraphs. destruct (disableGraph (opts w)).
  - eapply StageStarted_after_log. apply processPages_started.
  - unfold startIO, info, emit. constructor; try reflexivity.
    + cbn. rewrite <- !app_assoc. apply filter_app_nil. reflexivity.
    + unfold outstanding. cbn. rewrite length_app. simpl. lia.
Qed.

(** C4 (as amended): in each watch rebuild path the callback that starts the
    graph or render stage clears the changed-file set in the same block,
    right after the page writes (or the main graph render) have been issued:
    at that point no index has been persisted and no finalization effect has
    happened for this rebuild, and the work of the stage is still
    outstanding. *)
Theorem changed_files_cleared_when_stage_starts (e : Env) (k : Kont) (w : World) :
  k <> KEverything ->
  let w' := exec e (TSeq [] k) w in
  updatedFiles (appState w') = [] /\
  watchChangedFiles (appState w') = [] /\
  searchIndexJson (searchEngine w') = searchIndexJson (searchEngine w) /\
  List.filter isFinalEffect (trace w') = List.filter isFinalEffect (trace w) /\
  outstanding w < outstanding w'.
Proof.
  intros Hk. simpl.
  assert (exists w1, StageStarted w w1 /\ thenSeq e k w = clearUpdatedFiles w1) as [w1 [Hs ->]].
  { destruct k; [contradiction| | |]; eexists; (split; [|reflexivity]);
      auto using processGraphs_started, processPages_started. }
  destruct Hs as [H1 H2 H3 H4 H5 H6 H7].
  unfold clearUpdatedFiles. cbn. repeat split; assumption.
Qed.

Lemma changed_files_cleared_when_stage_starts_witness :
  let w := run quietEnv (fifo 6) (runnerChange quietEnv (changedWorld ["/project/README.md"])) in
  microtasks w = [TSeq [] KRootMarkdowns] /\
  updatedFiles (appState w) = ["/project/README.md"] /\
  updatedFiles (appState (step quietEnv 0 w)) = [] /\
  outstanding (set_microtasks [] w) < outstanding (step quietEnv 0 w).
Proof.
  intros w.
  split; [vm_compute; reflexivity|].
  split; [vm_compute; reflexivity|].
  assert (step quietEnv 0 w = exec quietEnv (TSeq [] KRootMarkdowns) (set_microtasks [] w)) as ->
    by (vm_compute; reflexivity).
  pose proof (changed_files_cleared_when_stage_starts quietEnv KRootMarkdowns
                (set_microtasks [] w) ltac:(discriminate)) as H.
  split; [exact (proj1 H) | exact (proj2 (proj2 (proj2 (proj2 H))))].
Defined.

(** C4 as stated fails: in the root-markdown rebuild after a change of
    [README.md], once the callback that starts the render stage has run, the
    changed-file set is already empty although the write of the index page
    has not settled, the search index has not been persisted and no
    resource has been copied. *)
Lemma changed_files_cleared_before_stage_settles :
  let w0 := runnerChange quietEnv (changedWorld ["/project/README.md"]) in
  let w := run quietEnv (fifo 7) w0 in
  updatedFiles (appState w0) = ["/project/README.md"] /\
  updatedFiles (appState w) = [] /\ watchChangedFiles (appState w) = [] /\
  pendingIO w = [TPageWritten MainPages 0 "index" (Ok tt)] /\
  searchIndexJson (searchEngine w) = None /\
  List.filter isFinalEffect (trace w) = [].
Proof. vm_compute. repeat split. Qed.

(** ** Fatal-error handlers *)

Lemma completion_emit ev w : completion (emit ev w) = completion w.
Proof. reflexivity. Qed.
Lemma completion_info msg w : completion (info msg w) = completion w.
Proof. reflexivity. Qed.
Lemma completion_warn msg w : completion (warn msg w) = completion w.
Proof. reflexivity. Qed.
Lemma completion_error msg w : completion (error msg w) = completion w.
Proof. reflexivity. Qed.
Lemma completion_enqueue t w : completion (enqueue t w) = completion w.
Proof. reflexivity. Qed.
Lemma completion_startIO t w : completion (startIO t w) = completion w.
Proof. reflexivity. Qed.
Lemma completion_addPage p w : completion (addPage p w) = completion w.
Proof. reflexivity. Qed.
Lemma completion_addAdditionalPage p w : completion (addAdditionalPage p w) = completion w.
Proof. reflexivity. Qed.
Lemma completion_set_data c w : completion (set_data c w) = completion w.
Proof. reflexivity. Qed.
Lemma completion_set_mainData m w : completion (set_mainData m w) = completion w.
Proof. reflexivity. Qed.
Lemma completion_set_pages l w : completion (set_pages l w) = completion w.
Proof. reflexivity. Qed.
Lemma completion_set_appState a w : completion (set_appState a w) = completion w.
Proof. reflexivity. Qed.
Lemma completion_set_dependenciesEngine d w : completion (set_dependenciesEngine d w) = completion w.
Proof. reflexivity. Qed.
Lemma completion_set_searchEngine s w : completion (set_searchEngine s w) = completion w.
Proof. reflexivity. Qed.
Lemma completion_set_promiseAlls l w : completion (set_promiseAlls l w) = completion w.
Proof. reflexivity. Qed.
Lemma completion_set_microtasks l w : completion (set_microtasks l w) = completion w.
Proof. reflexivity. Qed.
Lemma completion_set_pendingIO l w : completion (set_pendingIO l w) = completion w.
Proof. reflexivity. Qed.
Lemma completion_generationPromiseReject w : completion (generationPromiseReject w) = completion w.
Proof.
  unfold generationPromiseReject, completion, handlers, promiseResolved.
  destruct (generationPromise (proc w)) eqn:E; cbn; rewrite ?E; reflexivity.
Qed.
Lemma completion_processExit n w : completion (processExit n w) = completion w.
Proof. reflexivity. Qed.

Create Rewrite HintDb compl.
#[local] Hint Rewrite completion_emit completion_info completion_warn completion_error completion_enqueue
  completion_startIO completion_addPage completion_addAdditionalPage completion_set_data
  completion_set_mainData completion_set_pages completion_set_appState
  completion_set_dependenciesEngine completion_set_searchEngine completion_set_promiseAlls
  completion_set_microtasks completion_set_pendingIO completion_generationPromiseReject completion_processExit : compl.

(** Case analysis on every test of the function, then the rewriting base. *)
Ltac kept := repeat case_match; autorewrite with compl; try reflexivity.

Lemma completion_unhandledRejection w : completion (unhandledRejection w) = completion w.
Proof. unfold unhandledRejection, unhandledRejectionListener. kept. Qed.
#[local] Hint Rewrite completion_unhandledRejection : compl.

Lemma completion_resolveCont c w : completion (resolveCont c w) = completion w.
Proof. unfold resolveCont. kept. Qed.
Lemma completion_rejectCont c msg w : completion (rejectCont c msg w) = completion w.
Proof. reflexivity. Qed.
#[local] Hint Rewrite completion_resolveCont completion_rejectCont : compl.

Lemma completion_markdownsLoop e i c w : completion (markdownsLoop e i c w) = completion w.
Proof. unfold markdownsLoop. kept. Qed.
#[local] Hint Rewrite completion_markdownsLoop : compl.

Lemma completion_processMarkdowns e c w : completion (processMarkdowns e c w) = completion w.
Proof. unfold processMarkdowns. kept. Qed.
Lemma completion_markdownDone e i r c w : completion (markdownDone e i r c w) = completion w.
Proof. unfold markdownDone. kept. Qed.
Lemma completion_prepareRoutes e c w : completion (prepareRoutes e c w) = completion w.
Proof. unfold prepareRoutes. kept. Qed.
Lemma completion_routesIndexDone r c w : completion (routesIndexDone r c w) = completion w.
Proof. unfold routesIndexDone. kept. Qed.
Lemma completion_handleTemplateurl e i comp c w : completion (handleTemplateurl e i comp c w) = completion w.
Proof. unfold handleTemplateurl. kept. Qed.
#[local] Hint Rewrite completion_processMarkdowns completion_markdownDone completion_prepareRoutes
  completion_routesIndexDone completion_handleTemplateurl : compl.

Lemma completion_componentsLoop e cs i c w : completion (componentsLoop e cs i c w) = completion w.
Proof.
  revert i w. induction cs as [|comp rest IH]; intros i w; simpl; [kept|].
  destruct (Nat.ltb 0 (String.length (templateUrl comp))); [|rewrite IH]; kept.
Qed.
#[local] Hint Rewrite completion_componentsLoop : compl.

Lemma completion_prepareComponents e s c w : completion (prepareComponents e s c w) = completion w.
Proof. unfold prepareComponents. kept. Qed.
Lemma completion_templateDone e i r c w : completion (templateDone e i r c w) = completion w.
Proof. unfold templateDone. kept. Qed.
Lemma completion_prepareCoverage e c w : completion (prepareCoverage e c w) = completion w.
Proof. unfold prepareCoverage. kept. Qed.
Lemma completion_addPages ps w : completion (fold_left (fun w p => addPage p w) ps w) = completion w.
Proof. revert w. induction ps as [|p ps IH]; intros w; simpl; [reflexivity|]. now rewrite IH. Qed.
#[local] Hint Rewrite completion_prepareComponents completion_templateDone completion_prepareCoverage
  completion_addPages : compl.

Lemma completion_coverageDone r c w : completion (coverageDone r c w) = completion w.
Proof. unfold coverageDone. kept. Qed.
Lemma completion_prepareExternalIncludes e c w : completion (prepareExternalIncludes e c w) = completion w.
Proof. unfold prepareExternalIncludes. kept. Qed.
Lemma completion_includesLoop e items i c w : completion (includesLoop e items i c w) = completion w.
Proof. unfold includesLoop. kept. Qed.
#[local] Hint Rewrite completion_coverageDone completion_prepareExternalIncludes completion_includesLoop : compl.

Lemma completion_includeChildLoop e items i j c w : completion (includeChildLoop e items i j c w) = completion w.
Proof. unfold includeChildLoop. kept. Qed.
#[local] Hint Rewrite completion_includeChildLoop : compl.

Lemma completion_summaryDone e r c w : completion (summaryDone e r c w) = completion w.
Proof. unfold summaryDone. kept. Qed.
Lemma completion_includeDone e items i r c w : completion (includeDone e items i r c w) = completion w.
Proof. unfold includeDone. kept. Qed.
Lemma completion_includeChildDone e items i j r c w :
  completion (includeChildDone e items i j r c w) = completion w.
Proof. unfold includeChildDone. kept. Qed.
#[local] Hint Rewrite completion_summaryDone completion_includeDone completion_includeChildDone : compl.

Lemma completion_of_proc w w' : proc w' = proc w -> completion w' = completion w.
Proof. unfold completion, handlers, promiseResolved. now intros ->. Qed.

Lemma completion_processPages e w : completion (processPages e w) = completion w.
Proof. apply completion_of_proc. apply (started_proc _ _ (processPages_started e w)). Qed.
Lemma completion_processAdditionalPages e w : completion (processAdditionalPages e w) = completion w.
Proof.
  unfold processAdditionalPages.
  rewrite (completion_of_proc _ _ (started_proc _ _ (promiseAllPages_started e _ _ _))).
  reflexivity.
Qed.
Lemma completion_processGraphs e w : completion (processGraphs e w) = completion w.
Proof. apply completion_of_proc. apply (started_proc _ _ (processGraphs_started e w)). Qed.
#[local] Hint Rewrite completion_processPages completion_processAdditionalPages completion_processGraphs : compl.

Lemma completion_allCatch ph err w : completion (allCatch ph err w) = completion w.
Proof. unfold allCatch. kept. Qed.
#[local] Hint Rewrite completion_allCatch : compl.

Lemma completion_pageWritten ph a name r w : completion (pageWritten ph a name r w) = completion w.
Proof. unfold pageWritten. kept. Qed.
Lemma completion_generateSearchIndexJson e ph w : completion (generateSearchIndexJson e ph w) = completion w.
Proof. unfold generateSearchIndexJson. kept. Qed.
Lemma completion_processAssetsFolder e w : completion (processAssetsFolder e w) = completion w.
Proof. unfold processAssetsFolder. kept. Qed.
Lemma completion_processResources e w : completion (processResources e w) = completion w.
Proof. unfold processResources. kept. Qed.
Lemma completion_runWatch e w : completion (runWatch e w) = completion w.
Proof. unfold runWatch. kept. Qed.
#[local] Hint Rewrite completion_pageWritten completion_generateSearchIndexJson
  completion_processAssetsFolder completion_processResources completion_runWatch : compl.

Lemma completion_runWebServer e folder w : completion (runWebServer e folder w) = completion w.
Proof. unfold runWebServer. kept. Qed.
Lemma completion_finalize e w : completion (finalize e w) = completion w.
Proof. unfold finalize. kept. Qed.
#[local] Hint Rewrite completion_runWebServer completion_finalize : compl.

Lemma completion_indexWritten e ph docs r w : completion (indexWritten e ph docs r w) = completion w.
Proof. unfold indexWritten. kept. Qed.
Lemma completion_assetsCopied r w : completion (assetsCopied r w) = completion w.
Proof. unfold assetsCopied. kept. Qed.

Lemma completion_modulesLoop e ms i w : completion (modulesLoop e ms i w) = completion w.
Proof.
  revert i w. induction ms as [|m rest IH]; intros i w; simpl; [reflexivity|].
  rewrite IH. kept.
Qed.
Lemma completion_itemsLoop e k xs i w : completion (itemsLoop e k xs i w) = completion w.
Proof.
  revert i w. induction xs as [|x rest IH]; intros i w; simpl; [reflexivity|].
  rewrite IH. kept.
Qed.
#[local] Hint Rewrite completion_indexWritten completion_assetsCopied completion_modulesLoop
  completion_itemsLoop : compl.

Lemma completion_prepareModules e s w : completion (prepareModules e s w) = completion w.
Proof. unfold prepareModules. kept. Qed.
Lemma completion_prepareItems e k s w : completion (prepareItems e k s w) = completion w.
Proof. unfold prepareItems. kept. Qed.
Lemma completion_prepareMiscellaneous s w : completion (prepareMiscellaneous s w) = completion w.
Proof. unfold prepareMiscellaneous. kept. Qed.

Lemma completion_graphLoop e ms i w : completion (graphLoop e ms i w) = completion w.
Proof.
  revert i w. induction ms as [|m rest IH]; intros i w; simpl; [kept|].
  match goal with
  | |- context [getRawModule ?d ?n] => destruct (getRawModule d n) as [raw|]; [|kept]
  end.
  destruct (hasRelations raw); [|rewrite IH]; kept.
Qed.
#[local] Hint Rewrite completion_prepareModules completion_prepareItems completion_prepareMiscellaneous
  completion_graphLoop : compl.

Lemma completion_mainGraphRendered e p r w : completion (mainGraphRendered e p r w) = completion w.
Proof. unfold mainGraphRendered. kept. Qed.
Lemma completion_mainGraphRead e r w : completion (mainGraphRead e r w) = completion w.
Proof. unfold mainGraphRead. kept. Qed.
Lemma completion_moduleGraphRendered e i name p r w :
  completion (moduleGraphRendered e i name p r w) = completion w.
Proof. unfold moduleGraphRendered. kept. Qed.
Lemma completion_moduleGraphRead e i r w : completion (moduleGraphRead e i r w) = completion w.
Proof. unfold moduleGraphRead. kept. Qed.
Lemma completion_runAction e a c w : completion (runAction e a c w) = completion w.
Proof. unfold runAction. kept. Qed.
Lemma completion_thenSeq e k w : completion (thenSeq e k w) = completion w.
Proof. unfold thenSeq, clearUpdatedFiles. kept. Qed.
#[local] Hint Rewrite completion_mainGraphRendered completion_mainGraphRead
  completion_moduleGraphRendered completion_moduleGraphRead completion_runAction completion_thenSeq : compl.

Lemma completion_sequential e acts k w : completion (sequential e acts k w) = completion w.
Proof. unfold sequential. kept. Qed.
Lemma completion_statLine label n w : completion (statLine label n w) = completion w.
Proof. unfold statLine. kept. Qed.
#[local] Hint Rewrite completion_statLine : compl.
Lemma completion_printStatistics w : completion (printStatistics w) = completion w.
Proof. unfold printStatistics. cbv zeta. now autorewrite with compl. Qed.
#[local] Hint Rewrite completion_sequential completion_printStatistics : compl.

Lemma completion_getDependenciesData e w : completion (getDependenciesData e w) = completion w.
Proof. unfold getDependenciesData, prepareEverything. kept. Qed.
Lemma completion_processPackageJson e w : completion (processPackageJson e w) = completion w.
Proof. unfold processPackageJson. kept. Qed.
#[local] Hint Rewrite completion_getDependenciesData completion_processPackageJson : compl.

Lemma completion_packageJsonDone e r w : completion (packageJsonDone e r w) = completion w.
Proof. unfold packageJsonDone. kept. Qed.
Lemma completion_htmlInitDone e r w : completion (htmlInitDone e r w) = completion w.
Proof. unfold htmlInitDone. kept. Qed.
#[local] Hint Rewrite completion_packageJsonDone completion_htmlInitDone : compl.













(** ** Render and index: the aggregate *)

Lemma fold_processPage_exact e ph a ps w :
  let w' := fold_left (fun w page => processPage e ph a page w) ps w in
  documentsStore (searchEngine w') = documentsStore (searchEngine w) ++ map (docOf e w) ps /\
  pendingIO w' = pendingIO w ++ map (writeOf e ph a w) ps /\
  (forall ev, In ev (trace w) -> In ev (trace w')) /\
  (forall p, In p ps -> In (WriteFile (pagePath w p)) (trace w')).
Proof.
  revert w. induction ps as [|p ps IH]; intros w; simpl.
  - rewrite !app_nil_r. repeat split; auto. intros p [].
  - destruct (IH (processPage e ph a p w)) as (H1 & H2 & H3 & H4).
    rewrite H1, H2.
    assert (forall ev, In ev (trace w ++ [Log INFO ("Process page " +:+ p_name p);
                                          Render (p_name p); IndexPage (pagePath w p);
                                          WriteFile (pagePath w p)]) ->
                       In ev (trace (fold_left (fun w page => processPage e ph a page w) ps
                                       (processPage e ph a p w)))) as H3'.
    { intros ev Hev. apply H3. unfold processPage, indexPage, startIO, info, emit. cbn.
      now rewrite <- !app_assoc. }
    unfold processPage at 1 2, indexPage, startIO, info, emit. cbn.
    rewrite <- !app_assoc. repeat split.
    + intros ev Hev. apply H3'. apply in_or_app. now left.
    + intros q [<-|Hq].
      * apply H3'. apply in_or_app. right. simpl. auto.
      * apply (H4 q Hq).
Qed.

Lemma pick_split {A : Type} (l : list A) (k : nat) (t : A) :
  l !! k = Some t -> exists l1 l2, l = l1 ++ t :: l2 /\ delete k l = l1 ++ l2.
Proof.
  intros H. exists (take k l), (drop (S k) l). split.
  - symmetry. now apply take_drop_middle.
  - apply delete_take_drop.
Qed.

Lemma pick_some {A : Type} (l : list A) (pick : nat) :
  l <> [] -> exists t, l !! (pick mod length l) = Some t.
Proof.
  intros H. apply lookup_lt_is_Some_2. apply Nat.mod_upper_bound.
  destruct l; [contradiction | discriminate].
Qed.

Lemma filter_isFinalEffect_errors errs :
  Forall isErrorLog errs -> List.filter isFinalEffect errs = [].
Proof.
  intros Herrs. induction Herrs as [|ev errs [msg ->] _ IH]; [reflexivity|]. simpl. exact IH.
Qed.

Lemma aggregateLog_errors (b : bool) (errs : list Event) :
  aggregateLog b errs -> Forall isErrorLog errs.
Proof.
  destruct b; simpl.
  - intros (name & rest & -> & Hrest).
    constructor; [eexists; reflexivity|]. constructor; [eexists; reflexivity|].
    eapply Forall_impl; [exact Hrest|]. intros ev [n ->]. eexists. reflexivity.
  - intros ->. constructor.
Qed.

Lemma processPages_settling e w :
  quiescent w -> (exists p, In p (pages (configuration w)) /\ writeFails e w p) ->
  WritesSettling (length (promiseAlls w)) (processPages e w) (processPages e w) /\
  pendingIO (processPages e w)
  = map (writeOf e MainPages (length (promiseAlls w)) w) (pages (configuration w)).
Proof.
  intros [Hm Hp] [p [Hin [msg Hfail]]].
  unfold processPages, promiseAllPages.
  set (a := length (promiseAlls w)).
  set (ps := pages (configuration w)) in *.
  set (w0 := set_promiseAlls _ _).
  change (pages (configuration (info "Process pages" w))) with ps.
  destruct (fold_processPage_frame e MainPages a ps w0)
    as (_ & _ & _ & _ & _ & _ & H7 & H8 & _).
  destruct (fold_processPage_exact e MainPages a ps w0) as (_ & H2 & _ & _).
  assert (pendingIO (fold_left (fun w page => processPage e MainPages a page w) ps w0)
          = map (writeOf e MainPages a w) ps) as Hpend.
  { rewrite H2. subst w0. cbn. rewrite Hp. reflexivity. }
  assert (ps <> []) as Hne by (intros E; rewrite E in Hin; destruct Hin).
  destruct ps as [|p0 ps'] eqn:Eps; [contradiction|]. rewrite <- Eps in *.
  remember (fold_left _ ps w0) as w1 eqn:E1. clear E1.
  assert (promiseAlls w1 !! a = Some (mkAllCell (length ps) false)) as Hcell.
  { rewrite H8. subst w0. cbn. now rewrite lookup_app_r, Nat.sub_diag by reflexivity. }
  split; [|exact Hpend].
  constructor; try reflexivity.
  - rewrite H7. subst w0. cbn. exact Hm.
  - rewrite Hpend. apply List.Forall_forall. intros t Ht. apply in_map_iff in Ht.
    destruct Ht as [q [<- _]]. eexists _, _. reflexivity.
  - exists (mkAllCell (length ps) false). split; [exact Hcell|].
    right. simpl. rewrite Hpend, length_map. split; [reflexivity|].
    apply List.Exists_exists. exists (writeOf e MainPages a w p). split.
    + now apply in_map.
    + exists (p_name p), msg. unfold writeOf. now rewrite Hfail.
  - exists (mkAllCell (length ps) false), []. rewrite app_nil_r.
    split; [exact Hcell|]. split; [reflexivity|]. split; [reflexivity|].
    intros name m Ht. now left.
Qed.

Lemma WritesSettling_step e a w1 w pick :
  exited w1 = false -> WritesSettling a w1 w ->
  WritesSettling a w1 (step e pick w) /\
  length (pendingIO (step e pick w)) = Nat.pred (length (pendingIO w)).
Proof.
  intros Hex [Hm Hw [cell [Hc Hcell]] Hs Hp Hcfg Hst (cell' & errs & Hc' & Ht & Hagg & Hl)].
  assert (cell' = cell) as -> by congruence. clear Hc'.
  unfold step. replace (exited w) with false by (unfold exited in *; now rewrite Hp).
  rewrite Hm.
  destruct (pendingIO w) as [|t0 l0] eqn:Hpend.
  { replace (pick mod length []) with pick by now destruct pick.
    rewrite lookup_nil. split; [|now rewrite Hpend].
    constructor; try assumption; try (rewrite Hpend; assumption).
    - exists cell. now rewrite Hpend.
    - exists cell, errs. rewrite Hpend. repeat split; assumption. }
  rewrite <- Hpend in *.
  destruct (pick_some (pendingIO w) pick) as [t Hk]; [rewrite Hpend; discriminate|].
  rewrite Hk.
  destruct (pick_split _ _ _ Hk) as (l1 & l2 & Hl12 & Hdel). rewrite Hdel.
  assert (isWriteOf a t) as [name [r ->]].
  { rewrite List.Forall_forall in Hw. apply Hw. rewrite Hl12. apply in_or_app. right. now left. }
  assert (Forall (isWriteOf a) (l1 ++ l2)) as Hw'.
  { rewrite Hl12 in Hw. apply Forall_app in Hw. destruct Hw as [Hw1 Hw2].
    inversion Hw2; subst. apply Forall_app. split; assumption. }
  assert (length (pendingIO w) = S (length (l1 ++ l2))) as Hlen.
  { rewrite Hl12, !length_app. simpl. lia. }
  assert (a < length (promiseAlls w)) as Ha by (eapply lookup_lt_Some; exact Hc).
  simpl exec. unfold pageWritten.
  destruct r as [u|msg].
  - (* the write succeeded *)
    cbn. rewrite Hc.
    assert (Nat.eqb (Nat.pred (remaining cell)) 0 && negb (rejected cell) = false
            /\ (rejected cell = true \/
                (Nat.pred (remaining cell) = length (l1 ++ l2) /\
                 Exists (isFailedWrite a) (l1 ++ l2)))) as [Hno Hcell'].
    { destruct Hcell as [Hr | [Hrem Hex']].
      - rewrite Hr. rewrite andb_false_r. split; [reflexivity | now left].
      - assert (Exists (isFailedWrite a) (l1 ++ l2)) as Hex2.
        { rewrite Hl12 in Hex'. apply Exists_app in Hex'. apply Exists_app.
          destruct Hex' as [H|H]; [now left|].
          inversion H as [? ? [n [m E]]|]; subst; [discriminate E | now right]. }
        assert (length (l1 ++ l2) <> 0) as Hpos.
        { destruct (l1 ++ l2); [inversion Hex2 | discriminate]. }
        rewrite Hrem, Hlen. simpl Nat.pred.
        split; [|right; split; [reflexivity | exact Hex2]].
        destruct (length (l1 ++ l2)); [contradiction | reflexivity]. }
    rewrite Hno. split; [|cbn; lia].
    constructor; cbn; try assumption.
    + eexists. split; [apply list_lookup_insert_eq; exact Ha | exact Hcell'].
    + eexists _, errs. split; [apply list_lookup_insert_eq; exact Ha|].
      split; [exact Ht|]. split; [exact Hagg|].
      intros n m Hin. destruct (Hl n m Hin) as [H|H]; [left | now right].
      rewrite Hl12 in H. apply in_app_or in H. apply in_or_app.
      destruct H as [H|[H|H]]; [now left | discriminate H | now right].
  - (* the write failed *)
    assert (forall n m extra, In (TPageWritten MainPages a n (Err m)) (pendingIO w1) ->
                        In (TPageWritten MainPages a n (Err m)) (l1 ++ l2) \/
                        In (pageError n) (errs ++ pageError name :: extra)) as Hl'.
    { intros n m extra Hin. destruct (Hl n m Hin) as [H|H].
      - rewrite Hl12 in H. apply in_app_or in H.
        destruct H as [H|[H|H]].
        + left. apply in_or_app. now left.
        + right. injection H as -> _. apply in_or_app. right. now left.
        + left. apply in_or_app. now right.
      - right. apply in_or_app. now left. }
    unfold error, emit. cbn. rewrite Hc.
    destruct (rejected cell) eqn:Hr.
    + (* the aggregate is already rejected: only the page's error is logged *)
      split; [|cbn; lia].
      constructor; cbn; try assumption.
      * exists cell. split; [exact Hc | now left].
      * exists cell, (errs ++ [pageError name]). split; [exact Hc|].
        split; [rewrite Ht, <- app_assoc; reflexivity|]. split.
        -- rewrite Hr. simpl in Hagg. destruct Hagg as (n0 & rest & -> & Hrest).
           exists n0, (rest ++ [pageError name]). split; [reflexivity|].
           apply Forall_app. split; [exact Hrest|]. constructor; [eexists; reflexivity | constructor].
        -- intros n m Hin. apply (Hl' n m [] Hin).
    + (* the first failure: the aggregate is rejected in the same turn *)
      split; [|cbn; lia].
      constructor; cbn; try assumption.
      * eexists. split; [apply list_lookup_insert_eq; exact Ha | now left].
      * eexists _, (errs ++ [pageError name; Log ERROR ""]).
        split; [apply list_lookup_insert_eq; exact Ha|].
        split; [rewrite Ht, <- !app_assoc; reflexivity|]. split.
        -- simpl in Hagg. subst errs. simpl. exists name, []. split; [reflexivity | constructor].
        -- intros n m Hin. apply (Hl' n m [Log ERROR ""] Hin).
Qed.

Lemma WritesSettling_run e a w1 w picks :
  exited w1 = false -> WritesSettling a w1 w ->
  WritesSettling a w1 (run e picks w) /\
  length (pendingIO (run e picks w)) = length (pendingIO w) - length picks.
Proof.
  intros Hex. revert w. induction picks as [|pick picks IH]; intros w H; simpl.
  - split; [exact H | lia].
  - destruct (WritesSettling_step e a w1 w pick Hex H) as [H1 H2].
    destruct (IH _ H1) as [H3 H4]. split; [exact H3|]. rewrite H4, H2. lia.
Qed.

(** C1 (as amended): when at least one page's write fails in
    [processPages], no sibling is aborted: every page of the list is
    rendered, submitted to the in-memory index and its write issued in the
    first block; each failing page's error is caught and logged once its
    write has settled.  The aggregate does not wait for the other pages: in
    the very turn in which the first failing write settles, right after the
    error of that page, its [.catch] logs the (empty) rejection, however
    many writes are still outstanding; it does so once.  Its [.then] never
    runs: the search index is never persisted, no finalization effect
    happens, and the failure is only logged: the process state (generation
    promise, handlers, exit code) is left as it was.  In
    [processAdditionalPages] the first failing write is logged, the
    aggregate's [.catch] logs and rejects again towards nobody: an
    unhandled rejection, which terminates the process with code 1 when the
    fatal handler is installed. *)
Theorem failed_page_write_stops_the_build (e : Env) (w : World) (picks : list nat) :
  quiescent w -> exited w = false ->
  let ps := pages (configuration w) in
  let a := length (promiseAlls w) in
  (exists p, In p ps /\ writeFails e w p) ->
  let w' := run e picks (processPages e w) in
  (documentsStore (searchEngine w') = documentsStore (searchEngine w) ++ map (docOf e w) ps /\
   (forall p, In p ps -> In (WriteFile (pagePath w p)) (trace w')) /\
   searchIndexJson (searchEngine w') = searchIndexJson (searchEngine w) /\
   List.filter isFinalEffect (trace w') = List.filter isFinalEffect (trace w) /\
   proc w' = proc w /\
   microtasks w' = [] /\
   length (pendingIO w') = length ps - length picks /\
   (exists errs,
       trace w' = trace (processPages e w) ++ errs /\
       (errs = [] \/
        exists name rest, errs = pageError name :: Log ERROR "" :: rest /\ Forall isPageError rest) /\
       forall p, In p ps -> writeFails e w p ->
                 In (writeOf e MainPages a w p) (pendingIO w') \/ In (pageError (p_name p)) errs) /\
   (length ps <= length picks ->
    quiescent w' /\
    forall p, In p ps -> writeFails e w p -> In (pageError (p_name p)) (trace w'))) /\
  (forall (v : World) (b : nat) (cell : AllCell) (name msg : string),
      promiseAlls v !! b = Some cell -> rejected cell = false ->
      let v' := exec e (TPageWritten AdditionalPages b name (Err msg)) v in
      (exists post, trace v' = trace v ++ pageError name :: Log ERROR "" :: UnhandledRejection :: post) /\
      searchEngine v' = searchEngine v /\
      (unhandledRejectionListeners (proc v) <> 0 -> exitCode (proc v') = Some 1)).
Proof.
  intros Hq Hex ps a Hfail w'. split.
  - destruct (processPages_settling e w Hq Hfail) as [Hinv Hpend].
    pose proof (processPages_started e w) as Hst.
    assert (exited (processPages e w) = false) as Hex1.
    { unfold exited in *. now rewrite (started_proc _ _ Hst). }
    destruct (WritesSettling_run e _ _ _ picks Hex1 Hinv) as [Hinv' Hlen].
    fold w' in Hinv', Hlen. fold a in Hinv', Hpend.
    rewrite Hpend, length_map in Hlen. fold ps in Hlen, Hpend.
    destruct Hinv' as [Hm Hw Hcell Hs Hp Hcfg Happ (cell & errs & Hc & Ht & Hagg & Hl)].
    assert (documentsStore (searchEngine (processPages e w))
            = documentsStore (searchEngine w) ++ map (docOf e w) ps /\
            forall p, In p ps -> In (WriteFile (pagePath w p)) (trace (processPages e w)))
      as [Hdocs Hwrites].
    { unfold processPages, promiseAllPages.
      change (pages (configuration (info "Process pages" w))) with ps.
      set (w0 := set_promiseAlls _ _).
      destruct (fold_processPage_exact e MainPages (length (promiseAlls (info "Process pages" w)))
                  ps w0) as (H1 & _ & _ & H4).
      destruct ps; [destruct Hfail as [? [[] _]]|].
      split; [exact H1 | exact H4]. }
    assert (forall p, In p ps -> writeFails e w p ->
                      In (writeOf e MainPages a w p) (pendingIO w') \/
                      In (pageError (p_name p)) errs) as Hlogged.
    { intros p Hin [msg Hmsg]. unfold writeOf. rewrite Hmsg. apply Hl.
      rewrite Hpend. apply in_map_iff. exists p. split; [|exact Hin].
      unfold writeOf. now rewrite Hmsg. }
    pose proof (aggregateLog_errors _ _ Hagg) as Herrs.
    split; [now rewrite Hs|].
    split; [intros p Hp'; rewrite Ht; apply in_or_app; left; now apply Hwrites|].
    split; [rewrite Hs; apply (started_index _ _ Hst)|].
    split.
    { rewrite Ht, List.filter_app, (filter_isFinalEffect_errors _ Herrs), app_nil_r.
      apply (started_final _ _ Hst). }
    split; [rewrite Hp; apply (started_proc _ _ Hst)|].
    split; [exact Hm|].
    split; [exact Hlen|].
    split.
    { exists errs. split; [exact Ht|]. split; [|exact Hlogged].
      destruct (rejected cell); simpl in Hagg; [right; exact Hagg | left; exact Hagg]. }
    intros Hall.
    assert (pendingIO w' = []) as Hnil
        by (destruct (pendingIO w'); [reflexivity | simpl in Hlen; lia]).
    split; [split; [exact Hm | exact Hnil]|].
    intros p Hin Hf. destruct (Hlogged p Hin Hf) as [Hx|Hx].
    + rewrite Hnil in Hx. destruct Hx.
    + rewrite Ht. apply in_or_app. now right.
  - intros v b cell name msg Hc Hr v'. subst v'. simpl. unfold error, emit. cbn.
    rewrite Hc, Hr. unfold allCatch, unhandledRejection, unhandledRejectionListener, error, emit.
    cbn. fold (pageError name).
    destruct (unhandledRejectionListeners (proc v)) eqn:Hn; cbn;
      rewrite <- ?app_assoc; cbn; repeat split; try (intros; congruence);
      eexists; reflexivity.
Qed.

Lemma failed_page_write_stops_the_build_witness :
  let w' := run routesWriteFailsEnv [1] (processPages routesWriteFailsEnv renderScenario) in
  searchIndexJson (searchEngine w') = None /\ proc w' = proc renderScenario /\
  length (pendingIO w') = 1 /\
  exists errs,
    trace w' = trace (processPages routesWriteFailsEnv renderScenario) ++ errs /\
    (errs = [] \/
     exists name rest, errs = pageError name :: Log ERROR "" :: rest /\ Forall isPageError rest).
Proof.
  assert (exists p, In p (pages (configuration renderScenario)) /\
                    writeFails routesWriteFailsEnv renderScenario p) as Hfail.
  { exists routesRootPage. split; [simpl; auto | exists "EACCES"; reflexivity]. }
  destruct (failed_page_write_stops_the_build routesWriteFailsEnv renderScenario [1]
              ltac:(split; reflexivity) eq_refl Hfail)
    as [(_ & _ & H3 & _ & H5 & _ & H7 & (errs & H8 & H9 & _) & _) _].
  intros w'. split; [exact H3|]. split; [exact H5|]. split; [exact H7|].
  exists errs. split; [exact H8 | exact H9].
Defined.

(** C1 as stated fails: [routes] cannot be written, [modules] can.  Both
    pages are in the in-memory index and the error of [routes] is logged,
    but no search index is ever persisted, hence none that holds the
    content of [modules]; the build comes to rest without the failure being
    reported: the generation promise is still pending and the process has
    not exited.  And when the write of [routes] settles first, the aggregate
    is rejected (its [.catch] has logged) while the write of [modules] is
    still outstanding. *)
Lemma failed_page_write_nothing_persisted_nothing_reported :
  let w := run routesWriteFailsEnv (fifo 10) (processPages routesWriteFailsEnv renderScenario) in
  let v := run routesWriteFailsEnv [1] (processPages routesWriteFailsEnv renderScenario) in
  In (pageError "routes") (trace w) /\
  map (fun d => p_name (infos d)) (documentsStore (searchEngine w)) = ["modules"; "routes"] /\
  searchIndexJson (searchEngine w) = None /\
  quiescent w /\
  ~ reportedFailed w /\
  In (Log ERROR "") (trace v) /\
  pendingIO v = [TPageWritten MainPages 0 "modules" (Ok tt)].
Proof.
  vm_compute. repeat split; try find_in_list.
  intros [H|H]; [discriminate H | now apply H].
Qed.

(** ** After the graph stage *)

Lemma AfterGraphs_refl w : AfterGraphs w w.
Proof. constructor; exists []; rewrite app_nil_r; split; auto. Qed.

Lemma AfterGraphs_trans w1 w2 w3 : AfterGraphs w1 w2 -> AfterGraphs w2 w3 -> AfterGraphs w1 w3.
Proof.
  intros [[e1 [Ht1 Hf1]] [m1 [Hm1 Hfm1]] [p1 [Hp1 Hfp1]]]
         [[e2 [Ht2 Hf2]] [m2 [Hm2 Hfm2]] [p2 [Hp2 Hfp2]]].
  constructor.
  - exists (e1 ++ e2). rewrite Ht2, Ht1, <- app_assoc. split; [reflexivity|].
    apply Forall_app. split; assumption.
  - exists (m1 ++ m2). rewrite Hm2, Hm1, <- app_assoc. split; [reflexivity|].
    apply Forall_app. split; assumption.
  - exists (p1 ++ p2). rewrite Hp2, Hp1, <- app_assoc. split; [reflexivity|].
    apply Forall_app. split; assumption.
Qed.

Lemma AfterGraphs_same w w' :
  trace w' = trace w -> microtasks w' = microtasks w -> pendingIO w' = pendingIO w ->
  AfterGraphs w w'.
Proof.
  intros H1 H2 H3. constructor; exists []; rewrite app_nil_r; split; auto.
Qed.

Lemma AfterGraphs_emit ev w : isRenderGraph ev = false -> AfterGraphs w (emit ev w).
Proof.
  intros H. constructor; [exists [ev] | exists [] | exists []];
    rewrite ?app_nil_r; split; auto.
Qed.

Lemma AfterGraphs_enqueue t w : postGraph t -> AfterGraphs w (enqueue t w).
Proof.
  intros H. constructor; [exists [] | exists [t] | exists []];
    rewrite ?app_nil_r; split; auto.
Qed.

Lemma AfterGraphs_startIO t w : postGraph t -> AfterGraphs w (startIO t w).
Proof.
  intros H. constructor; [exists [] | exists [] | exists [t]];
    rewrite ?app_nil_r; split; auto.
Qed.

Create HintDb ag discriminated.

(** Peels the calls off the final state, one at a time. *)
Ltac ag :=
  repeat case_match;
  lazymatch goal with
  | |- AfterGraphs ?w ?w => apply AfterGraphs_refl
  | |- AfterGraphs ?w (?f ?x) =>
      apply (AfterGraphs_trans w x (f x));
      [ ag
      | first [ apply AfterGraphs_same; reflexivity
              | apply AfterGraphs_emit; reflexivity
              | apply AfterGraphs_enqueue; exact I
              | apply AfterGraphs_startIO; exact I
              | solve [auto with ag] ] ]
  end.

Lemma AfterGraphs_info msg w : AfterGraphs w (info msg w).
Proof. apply AfterGraphs_emit. reflexivity. Qed.
Lemma AfterGraphs_warn msg w : AfterGraphs w (warn msg w).
Proof. apply AfterGraphs_emit. reflexivity. Qed.
Lemma AfterGraphs_error msg w : AfterGraphs w (error msg w).
Proof. apply AfterGraphs_emit. reflexivity. Qed.
Lemma AfterGraphs_generationPromiseResolve w : AfterGraphs w (generationPromiseResolve w).
Proof. unfold generationPromiseResolve. ag. Qed.
Lemma AfterGraphs_generationPromiseReject w : AfterGraphs w (generationPromiseReject w).
Proof. unfold generationPromiseReject. ag. Qed.
#[local] Hint Resolve AfterGraphs_info AfterGraphs_warn AfterGraphs_error
  AfterGraphs_generationPromiseResolve AfterGraphs_generationPromiseReject : ag.

Lemma AfterGraphs_processExit n w : AfterGraphs w (processExit n w).
Proof. unfold processExit. ag. Qed.
#[local] Hint Resolve AfterGraphs_processExit : ag.

Lemma AfterGraphs_unhandledRejection w : AfterGraphs w (unhandledRejection w).
Proof. unfold unhandledRejection, unhandledRejectionListener. ag. Qed.
#[local] Hint Resolve AfterGraphs_unhandledRejection : ag.

Lemma AfterGraphs_processPage e ph a p w : AfterGraphs w (processPage e ph a p w).
Proof. unfold processPage, indexPage. ag. Qed.

Lemma AfterGraphs_fold_processPage e ph a ps w :
  AfterGraphs w (fold_left (fun w page => processPage e ph a page w) ps w).
Proof.
  revert w. induction ps as [|p ps IH]; intros w; simpl; [apply AfterGraphs_refl|].
  eapply AfterGraphs_trans; [apply AfterGraphs_processPage | apply IH].
Qed.

Lemma AfterGraphs_promiseAllPages e ph ps w : AfterGraphs w (promiseAllPages e ph ps w).
Proof.
  unfold promiseAllPages.
  set (a := length (promiseAlls w)).
  assert (AfterGraphs w (fold_left (fun v page => processPage e ph a page v) ps
                           (set_promiseAlls (promiseAlls w ++ [mkAllCell (length ps) false]) w))).
  { eapply AfterGraphs_trans; [|apply AfterGraphs_fold_processPage].
    apply AfterGraphs_same; reflexivity. }
  destruct ps; [|assumption].
  eapply AfterGraphs_trans; [eassumption|]. apply AfterGraphs_enqueue. exact I.
Qed.
#[local] Hint Resolve AfterGraphs_promiseAllPages : ag.

Lemma AfterGraphs_processPages e w : AfterGraphs w (processPages e w).
Proof. unfold processPages. ag. Qed.
Lemma AfterGraphs_processAdditionalPages e w : AfterGraphs w (processAdditionalPages e w).
Proof. unfold processAdditionalPages. ag. Qed.
Lemma AfterGraphs_allCatch ph err w : AfterGraphs w (allCatch ph err w).
Proof. unfold allCatch. ag. Qed.
#[local] Hint Resolve AfterGraphs_processPages AfterGraphs_processAdditionalPages
  AfterGraphs_allCatch : ag.

Lemma AfterGraphs_pageWritten ph a name r w : AfterGraphs w (pageWritten ph a name r w).
Proof. unfold pageWritten. ag. Qed.
Lemma AfterGraphs_generateSearchIndexJson e ph w : AfterGraphs w (generateSearchIndexJson e ph w).
Proof. unfold generateSearchIndexJson. ag. Qed.
Lemma AfterGraphs_processAssetsFolder e w : AfterGraphs w (processAssetsFolder e w).
Proof. unfold processAssetsFolder. ag. Qed.
Lemma AfterGraphs_processResources e w : AfterGraphs w (processResources e w).
Proof. unfold processResources. ag. Qed.
Lemma AfterGraphs_runWatch e w : AfterGraphs w (runWatch e w).
Proof. unfold runWatch. ag. Qed.
#[local] Hint Resolve AfterGraphs_pageWritten AfterGraphs_generateSearchIndexJson
  AfterGraphs_processAssetsFolder AfterGraphs_processResources AfterGraphs_runWatch : ag.

Lemma AfterGraphs_runWebServer e folder w : AfterGraphs w (runWebServer e folder w).
Proof. unfold runWebServer. ag. Qed.
Lemma AfterGraphs_finalize e w : AfterGraphs w (finalize e w).
Proof. unfold finalize. ag. Qed.
#[local] Hint Resolve AfterGraphs_runWebServer AfterGraphs_finalize : ag.

Lemma AfterGraphs_onComplete e w : AfterGraphs w (onComplete e w).
Proof. unfold onComplete, endCallback. ag. Qed.
Lemma AfterGraphs_indexWritten e ph docs r w : AfterGraphs w (indexWritten e ph docs r w).
Proof. unfold indexWritten. ag. Qed.
Lemma AfterGraphs_assetsCopied r w : AfterGraphs w (assetsCopied r w).
Proof. unfold assetsCopied. ag. Qed.
#[local] Hint Resolve AfterGraphs_onComplete AfterGraphs_indexWritten AfterGraphs_assetsCopied : ag.

Lemma AfterGraphs_resourcesCopied e p r w : AfterGraphs w (resourcesCopied e p r w).
Proof. unfold resourcesCopied. ag. Qed.
Lemma AfterGraphs_themeCopied e r w : AfterGraphs w (themeCopied e r w).
Proof. unfold themeCopied. ag. Qed.
Lemma AfterGraphs_faviconCopied e r w : AfterGraphs w (faviconCopied e r w).
Proof. unfold faviconCopied. ag. Qed.

Lemma AfterGraphs_exec e t w : postGraph t -> AfterGraphs w (exec e t w).
Proof.
  destruct t; simpl; try contradiction; intros _;
    auto using AfterGraphs_pageWritten, AfterGraphs_generateSearchIndexJson,
      AfterGraphs_indexWritten, AfterGraphs_assetsCopied, AfterGraphs_resourcesCopied,
      AfterGraphs_themeCopied, AfterGraphs_faviconCopied.
Qed.

(** ** The graph stage *)

Lemma filter_snoc {A : Type} (f : A -> bool) (l : list A) (x : A) :
  List.filter f (l ++ [x]) = List.filter f l ++ (if f x then [x] else []).
Proof. rewrite List.filter_app. reflexivity. Qed.

Lemma GraphBefore_emit e w0 w n ev :
  isRenderGraph ev = false -> isPagesStart ev = false ->
  GraphBefore e w0 w n -> GraphBefore e w0 (emit ev w) n.
Proof.
  intros H1 H2 [Hd Ho Hout Hm Hmain Hc Hn].
  assert (isMainGraphCall ev = false /\ isModuleGraphCall ev = false) as [H3 H4]
      by (destruct ev; try discriminate; split; reflexivity).
  constructor; try assumption; unfold mainCalledOnce, callsUpTo, emit in *; cbn;
    rewrite filter_snoc, ?H2, ?H3, ?H4, app_nil_r; assumption.
Qed.

Lemma GraphBefore_same e w0 w w' n :
  dependenciesEngine w' = dependenciesEngine w -> options (md w') = options (md w) ->
  output (md w') = output (md w) ->
  Forall2 sameNameFile (modules (data (md w'))) (modules (data (md w))) ->
  trace w' = trace w ->
  GraphBefore e w0 w n -> GraphBefore e w0 w' n.
Proof.
  intros H1 H2 H3 H4 H5 [Hd Ho Hout Hm Hmain Hc Hn].
  constructor; unfold mainCalledOnce, callsUpTo in *; try congruence.
  clear - H4 Hm. revert Hm. generalize (modules (data (md w0))).
  induction H4 as [|x y l l' [Hxy1 Hxy2] H IH]; intros l0 Hm; inversion Hm; subst;
    constructor; auto.
  destruct H2 as [E1 E2]. split; congruence.
Qed.

Lemma Forall2_sameNameFile_refl l : Forall2 sameNameFile l l.
Proof. induction l; constructor; auto. split; reflexivity. Qed.

Lemma take_S_filter {A : Type} (f : A -> bool) (l : list A) (i : nat) (x : A) :
  l !! i = Some x ->
  List.filter f (take (S i) l) = List.filter f (take i l) ++ (if f x then [x] else []).
Proof.
  intros H. rewrite (take_S_r l i x H). apply filter_snoc.
Qed.

Lemma GraphBefore_call e w0 w i m0 :
  modules (data (md w0)) !! i = Some m0 ->
  rendersGraph (dependenciesEngine w0) m0 = true ->
  GraphBefore e w0 w i -> GraphBefore e w0 (emit (moduleGraphCall w0 m0) w) (S i).
Proof.
  intros Hi Hr [Hd Ho Hout Hm Hmain Hc Hn].
  constructor; try assumption; unfold mainCalledOnce, callsUpTo, emit in *; cbn;
    rewrite filter_snoc; cbn.
  - now rewrite app_nil_r.
  - rewrite Hc, (take_S_filter _ _ _ _ Hi), Hr, map_app, <- app_assoc. reflexivity.
  - now rewrite app_nil_r.
Qed.

Lemma GraphBefore_skip e w0 w i m0 :
  modules (data (md w0)) !! i = Some m0 ->
  rendersGraph (dependenciesEngine w0) m0 = false ->
  GraphBefore e w0 w i -> GraphBefore e w0 w (S i).
Proof.
  intros Hi Hr [Hd Ho Hout Hm Hmain Hc Hn].
  constructor; try assumption. unfold callsUpTo in *.
  now rewrite Hc, (take_S_filter _ _ _ _ Hi), Hr, app_nil_r.
Qed.

Lemma filter_quiet (f : Event -> bool) (evs : list Event) :
  (forall ev, f ev = true -> isRenderGraph ev = true) ->
  Forall (fun ev => isRenderGraph ev = false) evs -> List.filter f evs = [].
Proof.
  intros Hf H. induction H as [|ev evs Hev _ IH]; [reflexivity|]. simpl.
  destruct (f ev) eqn:E; [|exact IH]. apply Hf in E. congruence.
Qed.

Lemma isMainGraphCall_render ev : isMainGraphCall ev = true -> isRenderGraph ev = true.
Proof. now destruct ev. Qed.
Lemma isModuleGraphCall_render ev : isModuleGraphCall ev = true -> isRenderGraph ev = true.
Proof. now destruct ev. Qed.

Lemma GraphStage_pages_after e w0 w w' :
  mainCalledOnce e w0 w -> callsUpTo w0 w (length (modules (data (md w0)))) ->
  Forall postGraph (microtasks w) -> Forall postGraph (pendingIO w) ->
  AfterGraphs w w' -> GraphStage e w0 w'.
Proof.
  intros Hmain Hc Hm Hp [[evs [Ht Hq]] [ms [Hms Hfm]] [ps [Hps Hfp]]].
  apply GS_pages; unfold mainCalledOnce, callsUpTo in *.
  - rewrite Ht, List.filter_app, (filter_quiet _ _ isMainGraphCall_render Hq), app_nil_r.
    exact Hmain.
  - rewrite Ht, List.filter_app, (filter_quiet _ _ isModuleGraphCall_render Hq), app_nil_r.
    exact Hc.
  - rewrite Hms. apply Forall_app. split; assumption.
  - rewrite Hps. apply Forall_app. split; assumption.
Qed.

Lemma exited_unhandledRejection_or_quiescent w :
  microtasks w = [] -> pendingIO w = [] ->
  exited (unhandledRejection w) = true \/ quiescent (unhandledRejection w).
Proof.
  intros Hm Hp. unfold unhandledRejection, unhandledRejectionListener.
  cbn. destruct (unhandledRejectionListeners (proc w)); [right | left; reflexivity].
  split; assumption.
Qed.

Lemma GraphBefore_unhandledRejection e w0 w n :
  GraphBefore e w0 w n -> GraphBefore e w0 (unhandledRejection w) n.
Proof.
  intros H. unfold unhandledRejection, unhandledRejectionListener, processExit, error.
  cbn. destruct (unhandledRejectionListeners (proc w)).
  - apply GraphBefore_emit; auto.
  - eapply GraphBefore_same
      with (w := emit (Exit 1) (emit (Log ERROR fatalMessage) (emit UnhandledRejection w)));
      [reflexivity..| |reflexivity|].
    + apply Forall2_sameNameFile_refl.
    + repeat (apply GraphBefore_emit; [reflexivity | reflexivity |]). exact H.
Qed.

Lemma graphLoop_stage e w0 rest i w :
  GraphBefore e w0 w i -> exited w = false -> microtasks w = [] -> pendingIO w = [] ->
  rest = drop i (modules (data (md w))) ->
  GraphStage e w0 (graphLoop e rest i w).
Proof.
  revert i w. induction rest as [|m rest IH]; intros i w Hb Hex Hm Hp Hrest.
  - (* every module has been visited: the render stage starts *)
    simpl. destruct Hb as [Hd Ho Hout Hmods Hmain Hc Hn].
    assert (length (modules (data (md w0))) <= i) as Hlen.
    { rewrite <- (Forall2_length _ _ _ Hmods).
      symmetry in Hrest. apply drop_nil_inv in Hrest. exact Hrest. }
    eapply GraphStage_pages_after with (w := w); try assumption.
    + unfold callsUpTo in *. rewrite Hc. now rewrite !take_ge by lia.
    + rewrite Hm. constructor.
    + rewrite Hp. constructor.
    + apply AfterGraphs_processPages.
  - (* module [i] *)
    assert (modules (data (md w)) !! i = Some m /\ rest = drop (S i) (modules (data (md w))))
      as [Hi Hrest'].
    { split.
      - assert (drop i (modules (data (md w))) !! 0 = Some m) as H0
            by (rewrite <- Hrest; reflexivity).
        now rewrite lookup_drop, Nat.add_0_r in H0.
      - assert (rest = drop 1 (drop i (modules (data (md w))))) as H1
            by (rewrite <- Hrest; reflexivity).
        now rewrite drop_drop, Nat.add_1_r in H1. }
    destruct (Forall2_lookup_l _ _ _ _ _ (gb_modules _ _ _ _ Hb) Hi) as [m0 [Hi0 [Hname Hfile]]].
    simpl.
    set (w1 := info ("Process module graph " +:+ m_name m) w).
    assert (GraphBefore e w0 w1 i) as Hb1 by (apply GraphBefore_emit; auto).
    change (dependenciesEngine w1) with (dependenciesEngine w).
    rewrite (gb_deps _ _ _ _ Hb).
    pose proof (eq_refl (rendersGraph (dependenciesEngine w0) m0)) as Hr.
    unfold rendersGraph at 2 in Hr. rewrite <- Hname in Hr.
    destruct (getRawModule (dependenciesEngine w0) (m_name m)) as [raw|].
    + destruct (hasRelations raw).
      * eapply (GS_module e w0 _ i m0).
        -- assert (emit (RenderGraph (m_file m)
                           (withSlash (output (md w1)) +:+ "modules/" +:+ m_name m) "f") w1
                   = emit (moduleGraphCall w0 m0) w1) as E.
           { unfold moduleGraphCall, moduleGraphPath.
             change (output (md w1)) with (output (md w)).
             now rewrite (gb_output _ _ _ _ Hb), Hname, Hfile. }
           eapply GraphBefore_same with (w := emit (moduleGraphCall w0 m0) w1);
             [reflexivity..| |rewrite <- E; reflexivity|].
           ++ apply Forall2_sameNameFile_refl.
           ++ apply GraphBefore_call; assumption.
        -- exact Hex.
        -- exact Hm.
        -- unfold startIO. cbn. rewrite Hp. unfold moduleGraphPath.
           change (output (md w1)) with (output (md w)).
           now rewrite (gb_output _ _ _ _ Hb), Hname.
      * apply IH; try assumption.
        eapply GraphBefore_skip; eassumption.
    + eapply (GS_stopped e w0 _ i).
      * apply GraphBefore_unhandledRejection. exact Hb1.
      * apply exited_unhandledRejection_or_quiescent; assumption.
Qed.

Lemma processGraphs_stage e w :
  quiescent w -> exited w = false -> disableGraph (opts w) = false ->
  GraphStage e w (processGraphs e w).
Proof.
  intros [Hm Hp] Hex Hg. unfold processGraphs. rewrite Hg.
  eapply GS_main; try assumption.
  - constructor; try reflexivity.
    + apply Forall2_sameNameFile_refl.
    + unfold mainCalledOnce, mainGraphCall, startIO, info, emit. cbn.
      rewrite !filter_snoc. cbn. now rewrite ?app_nil_r.
    + unfold callsUpTo, startIO, info, emit. cbn.
      rewrite !filter_snoc. cbn. now rewrite ?app_nil_r.
    + unfold startIO, info, emit. cbn.
      rewrite !filter_snoc. cbn. now rewrite ?app_nil_r.
  - unfold startIO. cbn. rewrite Hp. reflexivity.
Qed.

Lemma Forall2_sameNameFile_graph g i l :
  Forall2 sameNameFile (alter (withModuleGraph g) i l) l.
Proof.
  revert i. induction l as [|x l IH]; intros i; [constructor|].
  destruct i as [|i].
  - constructor; [split; reflexivity | apply Forall2_sameNameFile_refl].
  - change (alter (withModuleGraph g) (S i) (x :: l)) with (x :: alter (withModuleGraph g) i l).
    constructor; [split; reflexivity | apply IH].
Qed.

Lemma GraphBefore_from e w0 w w' n :
  GraphBefore e w0 w n ->
  dependenciesEngine w' = dependenciesEngine w -> options (md w') = options (md w) ->
  output (md w') = output (md w) ->
  Forall2 sameNameFile (modules (data (md w'))) (modules (data (md w))) ->
  trace w' = trace w ->
  GraphBefore e w0 w' n.
Proof. intros. eapply GraphBefore_same with (w := w); eassumption. Qed.

Lemma GraphStage_step e w0 w pick : GraphStage e w0 w -> GraphStage e w0 (step e pick w).
Proof.
  intros [r Hb Hex Hm Hp | r Hb Hex Hm Hp | i m r Hb Hex Hm Hp | i r Hb Hex Hm Hp
         | n Hb Hstop | Hmain Hc Hfm Hfp].
  - (* the whole-project graph has been rendered, or not *)
    rewrite (step_single_io e pick w _ Hex Hm Hp). simpl. unfold mainGraphRendered.
    assert (GraphBefore e w0 (set_pendingIO [] w) 0) as Hb'
        by (apply (GraphBefore_from _ _ _ _ _ Hb);
            [reflexivity..|apply Forall2_sameNameFile_refl|reflexivity]).
    destruct r as [u|err].
    + eapply GS_mainRead; [|exact Hex|exact Hm|reflexivity].
      eapply GraphBefore_same with (w := emit _ (set_pendingIO [] w));
        [reflexivity..|apply Forall2_sameNameFile_refl|reflexivity|].
      apply GraphBefore_emit; [reflexivity..|exact Hb'].
    + apply graphLoop_stage; try assumption; try reflexivity.
      eapply GraphBefore_same with (w := error _ (set_pendingIO [] w));
        [reflexivity..|apply Forall2_sameNameFile_refl|reflexivity|].
      apply GraphBefore_emit; [reflexivity..|exact Hb'].
  - (* the whole-project graph has been read, or not *)
    rewrite (step_single_io e pick w _ Hex Hm Hp). simpl. unfold mainGraphRead.
    assert (GraphBefore e w0 (set_pendingIO [] w) 0) as Hb'
        by (apply (GraphBefore_from _ _ _ _ _ Hb);
            [reflexivity..|apply Forall2_sameNameFile_refl|reflexivity]).
    destruct r as [d|err].
    + apply graphLoop_stage; try assumption; try reflexivity.
      apply (GraphBefore_from _ _ _ _ _ Hb');
        [reflexivity..|apply Forall2_sameNameFile_refl|reflexivity].
    + apply graphLoop_stage; try assumption; try reflexivity.
      eapply GraphBefore_same with (w := error _ (set_pendingIO [] w));
        [reflexivity..|apply Forall2_sameNameFile_refl|reflexivity|].
      apply GraphBefore_emit; [reflexivity..|exact Hb'].
  - (* the graph of module [i] has been rendered, or not *)
    rewrite (step_single_io e pick w _ Hex Hm Hp). simpl. unfold moduleGraphRendered.
    assert (GraphBefore e w0 (set_pendingIO [] w) (S i)) as Hb'
        by (apply (GraphBefore_from _ _ _ _ _ Hb);
            [reflexivity..|apply Forall2_sameNameFile_refl|reflexivity]).
    destruct r as [u|err].
    + eapply GS_moduleRead; [|exact Hex|exact Hm|reflexivity].
      eapply GraphBefore_same with (w := emit _ (set_pendingIO [] w));
        [reflexivity..|apply Forall2_sameNameFile_refl|reflexivity|].
      apply GraphBefore_emit; [reflexivity..|exact Hb'].
    + eapply GS_stopped; [apply GraphBefore_emit; [reflexivity..|exact Hb']|].
      right. split; [exact Hm | reflexivity].
  - (* the graph of module [i] has been read, or not *)
    rewrite (step_single_io e pick w _ Hex Hm Hp). simpl. unfold moduleGraphRead.
    assert (GraphBefore e w0 (set_pendingIO [] w) (S i)) as Hb'
        by (apply (GraphBefore_from _ _ _ _ _ Hb);
            [reflexivity..|apply Forall2_sameNameFile_refl|reflexivity]).
    destruct r as [d|err].
    + apply graphLoop_stage; try assumption; try reflexivity.
      apply (GraphBefore_from _ _ _ _ _ Hb'); [reflexivity..| |reflexivity].
      apply Forall2_sameNameFile_graph.
    + eapply GS_stopped; [apply GraphBefore_emit; [reflexivity..|exact Hb']|].
      right. split; [exact Hm | reflexivity].
  - (* the stage has stopped *)
    destruct Hstop as [Hstop|Hstop].
    + rewrite step_exited by exact Hstop. eapply GS_stopped; eauto.
    + rewrite step_quiescent by exact Hstop. eapply GS_stopped; eauto.
  - (* the later stages *)
    unfold step. destruct (exited w); [now apply GS_pages|].
    destruct (microtasks w) as [|t q] eqn:Hq.
    + destruct (pendingIO w !! (pick mod length (pendingIO w))) as [t|] eqn:Hk;
        [|now apply GS_pages; rewrite ?Hq].
      destruct (pick_split _ _ _ Hk) as (l1 & l2 & Hl & Hdel). rewrite Hdel.
      rewrite Hl in Hfp. apply Forall_app in Hfp. destruct Hfp as [Hf1 Hf2].
      inversion Hf2; subst.
      eapply GraphStage_pages_after with (w := set_pendingIO (l1 ++ l2) w);
        [exact Hmain | exact Hc | cbn; rewrite Hq; constructor
        | cbn; apply Forall_app; split; assumption
        | apply AfterGraphs_exec; assumption ].
    + inversion Hfm; subst.
      eapply GraphStage_pages_after with (w := set_microtasks q w);
        [exact Hmain | exact Hc | assumption | assumption
        | apply AfterGraphs_exec; assumption ].
Qed.

Lemma GraphStage_run e w0 w picks : GraphStage e w0 w -> GraphStage e w0 (run e picks w).
Proof.
  revert w. induction picks as [|pick picks IH]; intros w H; simpl; [exact H|].
  apply IH. now apply GraphStage_step.
Qed.

Lemma graphLoop_disableMainGraph e rest i w :
  disableMainGraph (md (graphLoop e rest i w)) = disableMainGraph (md w).
Proof.
  revert i w. induction rest as [|m rest IH]; intros i w; simpl.
  - unfold md. now rewrite (started_configuration _ _ (processPages_started e w)).
  - match goal with
    | |- context [getRawModule ?d ?n] => destruct (getRawModule d n) as [raw|]
    end.
    + destruct (hasRelations raw); [reflexivity | now rewrite IH].
    + unfold unhandledRejection, unhandledRejectionListener. cbn.
      now destruct (unhandledRejectionListeners (proc w)).
Qed.

Lemma fold_processPage_trace e ph a ps w :
  exists evs, trace (fold_left (fun w page => processPage e ph a page w) ps w) = trace w ++ evs.
Proof.
  revert w. induction ps as [|p ps IH]; intros w; simpl.
  - exists []. now rewrite app_nil_r.
  - destruct (IH (processPage e ph a p w)) as [evs ->].
    unfold processPage, indexPage, startIO, info, emit. cbn.
    eexists. rewrite <- !app_assoc. reflexivity.
Qed.

Lemma processPages_pagesStart e w :
  List.filter isPagesStart (trace (processPages e w)) <> List.filter isPagesStart (trace w).
Proof.
  unfold processPages, promiseAllPages.
  match goal with |- context [fold_left ?f ?ps ?w0] =>
    destruct (fold_processPage_trace e MainPages (length (promiseAlls (info "Process pages" w))) ps w0)
      as [evs Hevs]
  end.
  assert (forall v, trace v = trace (info "Process pages" w) ++ evs ->
                    List.filter isPagesStart (trace v) <> List.filter isPagesStart (trace w)) as H.
  { intros v Hv E. apply (f_equal (@length Event)) in E. revert E.
    rewrite Hv. unfold info, emit. cbn. rewrite !List.filter_app, !length_app. cbn. lia. }
  destruct (pages (configuration (info "Process pages" w))); apply H; exact Hevs.
Qed.

(** The loop over the modules, from index [i] on, when no graph fails: two
    turns per module with relations, then the render stage starts. *)
Lemma graphLoop_run e rest :
  forall (i : nat) (v : World) (picks : list nat),
    quiescent v -> exited v = false ->
    drop i (modules (data (md v))) = rest ->
    Forall (graphSucceeds e (dependenciesEngine v) (output (md v))) rest ->
    length picks = 2 * length (List.filter (rendersGraph (dependenciesEngine v)) rest) ->
    exists v',
      run e picks (graphLoop e rest i v) = processPages e v' /\
      List.filter isPagesStart (trace v') = List.filter isPagesStart (trace v) /\
      disableMainGraph (md v') = disableMainGraph (md v).
Proof.
  induction rest as [|m rest IH]; intros i v picks Hq Hex Hrest Hok Hlen.
  - destruct picks; [|discriminate]. exists v. repeat split.
  - apply Forall_cons in Hok. destruct Hok as [(raw & Hraw & Hgraph) Hok].
    assert (drop (S i) (modules (data (md v))) = rest) as Hrest'.
    { rewrite <- Nat.add_1_r, <- drop_drop, Hrest. reflexivity. }
    assert (rendersGraph (dependenciesEngine v) m = hasRelations raw) as Hr
        by (unfold rendersGraph; now rewrite Hraw).
    cbn [List.filter] in Hlen. rewrite Hr in Hlen.
    cbn [graphLoop].
    change (dependenciesEngine (info ("Process module graph " +:+ m_name m) v))
      with (dependenciesEngine v).
    rewrite Hraw.
    destruct (hasRelations raw) eqn:Hrel.
    + destruct (Hgraph eq_refl) as [Hrender [svg Hread]].
      destruct picks as [|pick1 [|pick2 picks]]; try (simpl in Hlen; lia).
      destruct Hq as [Hm Hp].
      change (run e (pick1 :: pick2 :: picks) ?x) with (run e picks (step e pick2 (step e pick1 x))).
      change (output (md (info ("Process module graph " +:+ m_name m) v))) with (output (md v)).
      rewrite Hrender.
      rewrite (step_single_io e pick1 _
                 (TModuleGraphRendered i (m_name m)
                    (withSlash (output (md v)) +:+ "modules/" +:+ m_name m) (Ok tt)));
        [| exact Hex | exact Hm | unfold startIO; cbn; now rewrite Hp ].
      cbn [exec moduleGraphRendered]. rewrite Hread.
      rewrite (step_single_io e pick2 _ (TModuleGraphRead i (Ok svg)));
        [| exact Hex | exact Hm | reflexivity ].
      cbn [exec moduleGraphRead].
      match goal with |- context [graphLoop e ?l (S i) ?v0] =>
        replace l with rest; [set (v2 := v0)|]
      end.
      2: { symmetry. cbn. change (modules (data (mainData (configuration v))))
             with (modules (data (md v))).
           rewrite drop_alter. destruct (decide (S i <= i)); [lia | exact Hrest']. }
      destruct (IH (S i) v2 picks) as (v' & Hrun & Hstart & Hflag).
      * split; [exact Hm | reflexivity].
      * exact Hex.
      * subst v2. cbn. change (modules (data (mainData (configuration v))))
          with (modules (data (md v))).
        rewrite drop_alter. destruct (decide (S i <= i)); [lia | exact Hrest'].
      * exact Hok.
      * simpl in Hlen. change (dependenciesEngine v2) with (dependenciesEngine v). lia.
      * exists v'. split; [exact Hrun|]. split; [|exact Hflag].
        rewrite Hstart. subst v2. unfold startIO, info, emit. cbn.
        rewrite !List.filter_app. cbn. now rewrite !app_nil_r.
    + destruct (IH (S i) (info ("Process module graph " +:+ m_name m) v) picks)
        as (v' & Hrun & Hstart & Hflag).
      * exact Hq.
      * exact Hex.
      * exact Hrest'.
      * exact Hok.
      * exact Hlen.
      * exists v'. split; [exact Hrun|]. split; [|exact Hflag].
        rewrite Hstart. unfold info, emit. cbn. rewrite List.filter_app. cbn.
        now rewrite app_nil_r.
Qed.

(** The whole graph stage when no module graph fails. *)
Lemma processGraphs_run e w picks :
  quiescent w -> exited w = false -> disableGraph (opts w) = false ->
  Forall (graphSucceeds e (dependenciesEngine w) (output (md w))) (modules (data (md w))) ->
  length picks = graphTurns e w ->
  exists v', run e picks (processGraphs e w) = processPages e v' /\
             List.filter isPagesStart (trace v') = List.filter isPagesStart (trace w).
Proof.
  intros [Hm Hp] Hex Hg Hok Hlen. unfold graphTurns in Hlen.
  unfold processGraphs. rewrite Hg.
  change (tsconfig (opts (emit _ (info "Process main graph" w)))) with (tsconfig (opts w)).
  change (output (md (info "Process main graph" w))) with (output (md w)).
  set (mainPath := withSlash (output (md w)) +:+ "graph") in *.
  set (v0 := emit (RenderGraph _ _ _) _).
  change (tsconfig (opts v0)) with (tsconfig (opts w)).
  destruct (ngdRenderGraph e (tsconfig (opts w)) (resolve e mainPath) "p") as [[]|err].
  - destruct picks as [|pick1 [|pick2 picks]]; try (simpl in Hlen; lia).
    change (run e (pick1 :: pick2 :: picks) ?x) with (run e picks (step e pick2 (step e pick1 x))).
    rewrite (step_single_io e pick1 _ (TMainGraphRendered mainPath (Ok tt)));
      [| exact Hex | exact Hm | unfold startIO; cbn; now rewrite Hp ].
    cbn [exec mainGraphRendered].
    match goal with |- context [startIO (TMainGraphRead ?r) ?v1] =>
      rewrite (step_single_io e pick2 (startIO (TMainGraphRead r) v1) (TMainGraphRead r));
        [| exact Hex | exact Hm | reflexivity ]
    end.
    cbn [exec mainGraphRead].
    match goal with |- context [run e picks ?x] =>
      assert (exists v, x = graphLoop e (modules (data (md w))) 0 v /\
                        quiescent v /\ exited v = false /\
                        modules (data (md v)) = modules (data (md w)) /\
                        dependenciesEngine v = dependenciesEngine w /\
                        output (md v) = output (md w) /\
                        List.filter isPagesStart (trace v) = List.filter isPagesStart (trace w))
        as (v & -> & Hqv & Hexv & Hmods & Hd & Hout & Hst)
    end.
    { unfold mainGraphRead. case_match; eexists; (split; [reflexivity|]);
        (split; [split; [exact Hm | reflexivity]|]);
        (split; [exact Hex|]); repeat split;
        subst v0; unfold startIO, error, info, emit; cbn;
        rewrite !List.filter_app; cbn; now rewrite !app_nil_r. }
    destruct (graphLoop_run e (modules (data (md w))) 0 v picks) as (v' & Hrun & Hstart & _).
    + exact Hqv.
    + exact Hexv.
    + now rewrite Hmods.
    + now rewrite Hd, Hout.
    + rewrite Hd. simpl in Hlen. lia.
    + exists v'. split; [exact Hrun | now rewrite Hstart].
  - destruct picks as [|pick1 picks]; [simpl in Hlen; lia|].
    change (run e (pick1 :: picks) ?x) with (run e picks (step e pick1 x)).
    rewrite (step_single_io e pick1 _ (TMainGraphRendered mainPath (Err err)));
      [| exact Hex | exact Hm | unfold startIO; cbn; now rewrite Hp ].
    cbn [exec mainGraphRendered].
    match goal with |- context [graphLoop e ?l 0 ?v1] => set (v := v1) end.
    destruct (graphLoop_run e (modules (data (md w))) 0 v picks) as (v' & Hrun & Hstart & _).
    + split; [exact Hm | reflexivity].
    + exact Hex.
    + reflexivity.
    + exact Hok.
    + simpl in Hlen. change (dependenciesEngine v) with (dependenciesEngine w). lia.
    + exists v'. split; [exact Hrun|]. rewrite Hstart.
      subst v v0. unfold startIO, error, info, emit. cbn.
      rewrite !List.filter_app. cbn. now rewrite !app_nil_r.
Qed.
(** ** The flag of the whole-project graph *)

Lemma mainGraphOff_emit ev w : mainGraphOff (emit ev w) = mainGraphOff w.
Proof. reflexivity. Qed.
Lemma mainGraphOff_info msg w : mainGraphOff (info msg w) = mainGraphOff w.
Proof. reflexivity. Qed.
Lemma mainGraphOff_warn msg w : mainGraphOff (warn msg w) = mainGraphOff w.
Proof. reflexivity. Qed.
Lemma mainGraphOff_error msg w : mainGraphOff (error msg w) = mainGraphOff w.
Proof. reflexivity. Qed.
Lemma mainGraphOff_enqueue t w : mainGraphOff (enqueue t w) = mainGraphOff w.
Proof. reflexivity. Qed.
Lemma mainGraphOff_startIO t w : mainGraphOff (startIO t w) = mainGraphOff w.
Proof. reflexivity. Qed.
Lemma mainGraphOff_addPage p w : mainGraphOff (addPage p w) = mainGraphOff w.
Proof. reflexivity. Qed.
Lemma mainGraphOff_addAdditionalPage p w : mainGraphOff (addAdditionalPage p w) = mainGraphOff w.
Proof. reflexivity. Qed.
Lemma mainGraphOff_set_data c w : mainGraphOff (set_data c w) = mainGraphOff w.
Proof. reflexivity. Qed.
Lemma mainGraphOff_set_pages l w : mainGraphOff (set_pages l w) = mainGraphOff w.
Proof. reflexivity. Qed.
Lemma mainGraphOff_set_appState a w : mainGraphOff (set_appState a w) = mainGraphOff w.
Proof. reflexivity. Qed.
Lemma mainGraphOff_set_dependenciesEngine d w : mainGraphOff (set_dependenciesEngine d w) = mainGraphOff w.
Proof. reflexivity. Qed.
Lemma mainGraphOff_set_searchEngine s w : mainGraphOff (set_searchEngine s w) = mainGraphOff w.
Proof. reflexivity. Qed.
Lemma mainGraphOff_set_promiseAlls l w : mainGraphOff (set_promiseAlls l w) = mainGraphOff w.
Proof. reflexivity. Qed.
Lemma mainGraphOff_set_microtasks l w : mainGraphOff (set_microtasks l w) = mainGraphOff w.
Proof. reflexivity. Qed.
Lemma mainGraphOff_set_pendingIO l w : mainGraphOff (set_pendingIO l w) = mainGraphOff w.
Proof. reflexivity. Qed.
Lemma mainGraphOff_generationPromiseReject w : mainGraphOff (generationPromiseReject w) = mainGraphOff w.
Proof. unfold generationPromiseReject. now destruct (generationPromise (proc w)). Qed.
Lemma mainGraphOff_generationPromiseResolve w : mainGraphOff (generationPromiseResolve w) = mainGraphOff w.
Proof. unfold generationPromiseResolve. now destruct (generationPromise (proc w)). Qed.
Lemma mainGraphOff_endCallback w : mainGraphOff (endCallback w) = mainGraphOff w.
Proof. reflexivity. Qed.
Lemma mainGraphOff_resetPages w : mainGraphOff (resetPages w) = mainGraphOff w.
Proof. reflexivity. Qed.
Lemma mainGraphOff_resetAdditionalPages w : mainGraphOff (resetAdditionalPages w) = mainGraphOff w.
Proof. reflexivity. Qed.
Lemma mainGraphOff_resetRootMarkdownPages w : mainGraphOff (resetRootMarkdownPages w) = mainGraphOff w.
Proof. reflexivity. Qed.
Lemma mainGraphOff_clearUpdatedFiles w : mainGraphOff (clearUpdatedFiles w) = mainGraphOff w.
Proof. reflexivity. Qed.
Lemma mainGraphOff_setUpdatedFiles l w : mainGraphOff (setUpdatedFiles l w) = mainGraphOff w.
Proof. reflexivity. Qed.
Lemma mainGraphOff_installListeners w : mainGraphOff (installListeners w) = mainGraphOff w.
Proof. reflexivity. Qed.
Lemma mainGraphOff_processExit n w : mainGraphOff (processExit n w) = mainGraphOff w.
Proof. reflexivity. Qed.

Create Rewrite HintDb flag.
#[local] Hint Rewrite mainGraphOff_emit mainGraphOff_info mainGraphOff_warn mainGraphOff_error mainGraphOff_enqueue
  mainGraphOff_startIO mainGraphOff_addPage mainGraphOff_addAdditionalPage mainGraphOff_set_data
  mainGraphOff_set_pages mainGraphOff_set_appState
  mainGraphOff_set_dependenciesEngine mainGraphOff_set_searchEngine mainGraphOff_set_promiseAlls
  mainGraphOff_set_microtasks mainGraphOff_set_pendingIO mainGraphOff_generationPromiseReject mainGraphOff_processExit
  mainGraphOff_generationPromiseResolve mainGraphOff_endCallback mainGraphOff_resetPages
  mainGraphOff_resetAdditionalPages mainGraphOff_resetRootMarkdownPages
  mainGraphOff_clearUpdatedFiles mainGraphOff_setUpdatedFiles mainGraphOff_installListeners : flag.

(** Case analysis on every test of the function, then the rewriting base. *)
Ltac keptFlag := repeat case_match; autorewrite with flag; try reflexivity.

Lemma mainGraphOff_unhandledRejection w : mainGraphOff (unhandledRejection w) = mainGraphOff w.
Proof. unfold unhandledRejection, unhandledRejectionListener. keptFlag. Qed.
#[local] Hint Rewrite mainGraphOff_unhandledRejection : flag.

Lemma mainGraphOff_resolveCont c w : mainGraphOff (resolveCont c w) = mainGraphOff w.
Proof. unfold resolveCont. keptFlag. Qed.
Lemma mainGraphOff_rejectCont c msg w : mainGraphOff (rejectCont c msg w) = mainGraphOff w.
Proof. reflexivity. Qed.
#[local] Hint Rewrite mainGraphOff_resolveCont mainGraphOff_rejectCont : flag.

Lemma mainGraphOff_markdownsLoop e i c w : mainGraphOff (markdownsLoop e i c w) = mainGraphOff w.
Proof. unfold markdownsLoop. keptFlag. Qed.
#[local] Hint Rewrite mainGraphOff_markdownsLoop : flag.

Lemma mainGraphOff_processMarkdowns e c w : mainGraphOff (processMarkdowns e c w) = mainGraphOff w.
Proof. unfold processMarkdowns. keptFlag. Qed.
Lemma mainGraphOff_markdownDone e i r c w : mainGraphOff (markdownDone e i r c w) = mainGraphOff w.
Proof. unfold markdownDone. keptFlag. Qed.
Lemma mainGraphOff_prepareRoutes e c w : mainGraphOff (prepareRoutes e c w) = mainGraphOff w.
Proof. unfold prepareRoutes. keptFlag. Qed.
Lemma mainGraphOff_routesIndexDone r c w : mainGraphOff (routesIndexDone r c w) = mainGraphOff w.
Proof. unfold routesIndexDone. keptFlag. Qed.
Lemma mainGraphOff_handleTemplateurl e i comp c w : mainGraphOff (handleTemplateurl e i comp c w) = mainGraphOff w.
Proof. unfold handleTemplateurl. keptFlag. Qed.
#[local] Hint Rewrite mainGraphOff_processMarkdowns mainGraphOff_markdownDone mainGraphOff_prepareRoutes
  mainGraphOff_routesIndexDone mainGraphOff_handleTemplateurl : flag.

Lemma mainGraphOff_componentsLoop e cs i c w : mainGraphOff (componentsLoop e cs i c w) = mainGraphOff w.
Proof.
  revert i w. induction cs as [|comp rest IH]; intros i w; simpl; [keptFlag|].
  destruct (Nat.ltb 0 (String.length (templateUrl comp))); [|rewrite IH]; keptFlag.
Qed.
#[local] Hint Rewrite mainGraphOff_componentsLoop : flag.

Lemma mainGraphOff_prepareComponents e s c w : mainGraphOff (prepareComponents e s c w) = mainGraphOff w.
Proof. unfold prepareComponents. keptFlag. Qed.
Lemma mainGraphOff_templateDone e i r c w : mainGraphOff (templateDone e i r c w) = mainGraphOff w.
Proof. unfold templateDone. keptFlag. Qed.
Lemma mainGraphOff_prepareCoverage e c w : mainGraphOff (prepareCoverage e c w) = mainGraphOff w.
Proof. unfold prepareCoverage. keptFlag. Qed.
Lemma mainGraphOff_addPages ps w : mainGraphOff (fold_left (fun w p => addPage p w) ps w) = mainGraphOff w.
Proof. revert w. induction ps as [|p ps IH]; intros w; simpl; [reflexivity|]. now rewrite IH. Qed.
#[local] Hint Rewrite mainGraphOff_prepareComponents mainGraphOff_templateDone mainGraphOff_prepareCoverage
  mainGraphOff_addPages : flag.

Lemma mainGraphOff_coverageDone r c w : mainGraphOff (coverageDone r c w) = mainGraphOff w.
Proof. unfold coverageDone. keptFlag. Qed.
Lemma mainGraphOff_prepareExternalIncludes e c w : mainGraphOff (prepareExternalIncludes e c w) = mainGraphOff w.
Proof. unfold prepareExternalIncludes. keptFlag. Qed.
Lemma mainGraphOff_includesLoop e items i c w : mainGraphOff (includesLoop e items i c w) = mainGraphOff w.
Proof. unfold includesLoop. keptFlag. Qed.
#[local] Hint Rewrite mainGraphOff_coverageDone mainGraphOff_prepareExternalIncludes mainGraphOff_includesLoop : flag.

Lemma mainGraphOff_includeChildLoop e items i j c w : mainGraphOff (includeChildLoop e items i j c w) = mainGraphOff w.
Proof. unfold includeChildLoop. keptFlag. Qed.
#[local] Hint Rewrite mainGraphOff_includeChildLoop : flag.

Lemma mainGraphOff_summaryDone e r c w : mainGraphOff (summaryDone e r c w) = mainGraphOff w.
Proof. unfold summaryDone. keptFlag. Qed.
Lemma mainGraphOff_includeDone e items i r c w : mainGraphOff (includeDone e items i r c w) = mainGraphOff w.
Proof. unfold includeDone. keptFlag. Qed.
Lemma mainGraphOff_includeChildDone e items i j r c w :
  mainGraphOff (includeChildDone e items i j r c w) = mainGraphOff w.
Proof. unfold includeChildDone. keptFlag. Qed.
#[local] Hint Rewrite mainGraphOff_summaryDone mainGraphOff_includeDone mainGraphOff_includeChildDone : flag.

Lemma mainGraphOff_of_configuration w w' :
  configuration w' = configuration w -> mainGraphOff w' = mainGraphOff w.
Proof. unfold mainGraphOff, md. now intros ->. Qed.

Lemma mainGraphOff_processPages e w : mainGraphOff (processPages e w) = mainGraphOff w.
Proof. apply mainGraphOff_of_configuration. apply (started_configuration _ _ (processPages_started e w)). Qed.
Lemma mainGraphOff_processAdditionalPages e w : mainGraphOff (processAdditionalPages e w) = mainGraphOff w.
Proof.
  unfold processAdditionalPages.
  rewrite (mainGraphOff_of_configuration _ _ (started_configuration _ _ (promiseAllPages_started e _ _ _))).
  reflexivity.
Qed.
Lemma mainGraphOff_processGraphs e w : mainGraphOff (processGraphs e w) = mainGraphOff w.
Proof. apply mainGraphOff_of_configuration. apply (started_configuration _ _ (processGraphs_started e w)). Qed.
#[local] Hint Rewrite mainGraphOff_processPages mainGraphOff_processAdditionalPages mainGraphOff_processGraphs : flag.

Lemma mainGraphOff_allCatch ph err w : mainGraphOff (allCatch ph err w) = mainGraphOff w.
Proof. unfold allCatch. keptFlag. Qed.
#[local] Hint Rewrite mainGraphOff_allCatch : flag.

Lemma mainGraphOff_pageWritten ph a name r w : mainGraphOff (pageWritten ph a name r w) = mainGraphOff w.
Proof. unfold pageWritten. keptFlag. Qed.
Lemma mainGraphOff_generateSearchIndexJson e ph w : mainGraphOff (generateSearchIndexJson e ph w) = mainGraphOff w.
Proof. unfold generateSearchIndexJson. keptFlag. Qed.
Lemma mainGraphOff_processAssetsFolder e w : mainGraphOff (processAssetsFolder e w) = mainGraphOff w.
Proof. unfold processAssetsFolder. keptFlag. Qed.
Lemma mainGraphOff_processResources e w : mainGraphOff (processResources e w) = mainGraphOff w.
Proof. unfold processResources. keptFlag. Qed.
Lemma mainGraphOff_runWatch e w : mainGraphOff (runWatch e w) = mainGraphOff w.
Proof. unfold runWatch. keptFlag. Qed.
#[local] Hint Rewrite mainGraphOff_pageWritten mainGraphOff_generateSearchIndexJson
  mainGraphOff_processAssetsFolder mainGraphOff_processResources mainGraphOff_runWatch : flag.

Lemma mainGraphOff_runWebServer e folder w : mainGraphOff (runWebServer e folder w) = mainGraphOff w.
Proof. unfold runWebServer. keptFlag. Qed.
Lemma mainGraphOff_finalize e w : mainGraphOff (finalize e w) = mainGraphOff w.
Proof. unfold finalize. keptFlag. Qed.
#[local] Hint Rewrite mainGraphOff_runWebServer mainGraphOff_finalize : flag.

Lemma mainGraphOff_indexWritten e ph docs r w : mainGraphOff (indexWritten e ph docs r w) = mainGraphOff w.
Proof. unfold indexWritten. keptFlag. Qed.
Lemma mainGraphOff_assetsCopied r w : mainGraphOff (assetsCopied r w) = mainGraphOff w.
Proof. unfold assetsCopied. keptFlag. Qed.

Lemma mainGraphOff_modulesLoop e ms i w : mainGraphOff (modulesLoop e ms i w) = mainGraphOff w.
Proof.
  revert i w. induction ms as [|m rest IH]; intros i w; simpl; [reflexivity|].
  rewrite IH. keptFlag.
Qed.
Lemma mainGraphOff_itemsLoop e k xs i w : mainGraphOff (itemsLoop e k xs i w) = mainGraphOff w.
Proof.
  revert i w. induction xs as [|x rest IH]; intros i w; simpl; [reflexivity|].
  rewrite IH. keptFlag.
Qed.
#[local] Hint Rewrite mainGraphOff_indexWritten mainGraphOff_assetsCopied mainGraphOff_modulesLoop
  mainGraphOff_itemsLoop : flag.

Lemma mainGraphOff_prepareModules e s w : mainGraphOff (prepareModules e s w) = mainGraphOff w.
Proof. unfold prepareModules. keptFlag. Qed.
Lemma mainGraphOff_prepareItems e k s w : mainGraphOff (prepareItems e k s w) = mainGraphOff w.
Proof. unfold prepareItems. keptFlag. Qed.
Lemma mainGraphOff_prepareMiscellaneous s w : mainGraphOff (prepareMiscellaneous s w) = mainGraphOff w.
Proof. unfold prepareMiscellaneous. keptFlag. Qed.

Lemma mainGraphOff_graphLoop e ms i w : mainGraphOff (graphLoop e ms i w) = mainGraphOff w.
Proof.
  revert i w. induction ms as [|m rest IH]; intros i w; simpl; [keptFlag|].
  match goal with
  | |- context [getRawModule ?d ?n] => destruct (getRawModule d n) as [raw|]; [|keptFlag]
  end.
  destruct (hasRelations raw); [|rewrite IH]; keptFlag.
Qed.
#[local] Hint Rewrite mainGraphOff_prepareModules mainGraphOff_prepareItems mainGraphOff_prepareMiscellaneous
  mainGraphOff_graphLoop : flag.

Lemma mainGraphOff_mainGraphRendered e p r w :
  mainGraphOff (mainGraphRendered e p r w)
  = match r with Ok _ => mainGraphOff w | Err _ => true end.
Proof. unfold mainGraphRendered. destruct r; autorewrite with flag; reflexivity. Qed.
Lemma mainGraphOff_mainGraphRead e r w :
  mainGraphOff (mainGraphRead e r w)
  = match r with Ok _ => mainGraphOff w | Err _ => true end.
Proof. unfold mainGraphRead. destruct r; autorewrite with flag; reflexivity. Qed.
Lemma mainGraphOff_moduleGraphRendered e i name p r w :
  mainGraphOff (moduleGraphRendered e i name p r w) = mainGraphOff w.
Proof. unfold moduleGraphRendered. keptFlag. Qed.
Lemma mainGraphOff_moduleGraphRead e i r w : mainGraphOff (moduleGraphRead e i r w) = mainGraphOff w.
Proof. unfold moduleGraphRead. keptFlag. Qed.
Lemma mainGraphOff_runAction e a c w : mainGraphOff (runAction e a c w) = mainGraphOff w.
Proof. unfold runAction. keptFlag. Qed.
Lemma mainGraphOff_thenSeq e k w : mainGraphOff (thenSeq e k w) = mainGraphOff w.
Proof. unfold thenSeq, clearUpdatedFiles. keptFlag. Qed.
#[local] Hint Rewrite
  mainGraphOff_moduleGraphRendered mainGraphOff_moduleGraphRead mainGraphOff_runAction mainGraphOff_thenSeq : flag.

Lemma mainGraphOff_sequential e acts k w : mainGraphOff (sequential e acts k w) = mainGraphOff w.
Proof. unfold sequential. keptFlag. Qed.
Lemma mainGraphOff_statLine label n w : mainGraphOff (statLine label n w) = mainGraphOff w.
Proof. unfold statLine. keptFlag. Qed.
#[local] Hint Rewrite mainGraphOff_statLine : flag.
Lemma mainGraphOff_printStatistics w : mainGraphOff (printStatistics w) = mainGraphOff w.
Proof. unfold printStatistics. cbv zeta. now autorewrite with flag. Qed.
#[local] Hint Rewrite mainGraphOff_sequential mainGraphOff_printStatistics : flag.

Lemma mainGraphOff_getDependenciesData e w : mainGraphOff (getDependenciesData e w) = mainGraphOff w.
Proof. unfold getDependenciesData, prepareEverything. keptFlag. Qed.
Lemma mainGraphOff_processPackageJson e w : mainGraphOff (processPackageJson e w) = mainGraphOff w.
Proof. unfold processPackageJson. keptFlag. Qed.
#[local] Hint Rewrite mainGraphOff_getDependenciesData mainGraphOff_processPackageJson : flag.

Lemma mainGraphOff_packageJsonDone e r w : mainGraphOff (packageJsonDone e r w) = mainGraphOff w.
Proof. unfold packageJsonDone. keptFlag. Qed.
Lemma mainGraphOff_htmlInitDone e r w : mainGraphOff (htmlInitDone e r w) = mainGraphOff w.
Proof. unfold htmlInitDone. keptFlag. Qed.
#[local] Hint Rewrite mainGraphOff_packageJsonDone mainGraphOff_htmlInitDone : flag.

Lemma mainGraphOff_onComplete e w : mainGraphOff (onComplete e w) = mainGraphOff w.
Proof. unfold onComplete. keptFlag. Qed.
#[local] Hint Rewrite mainGraphOff_onComplete : flag.
Lemma mainGraphOff_exported e r w : mainGraphOff (exported e r w) = mainGraphOff w.
Proof. unfold exported. keptFlag. Qed.
Lemma mainGraphOff_resourcesCopied e p r w : mainGraphOff (resourcesCopied e p r w) = mainGraphOff w.
Proof. unfold resourcesCopied. keptFlag. Qed.
Lemma mainGraphOff_themeCopied e r w : mainGraphOff (themeCopied e r w) = mainGraphOff w.
Proof. unfold themeCopied. keptFlag. Qed.
Lemma mainGraphOff_faviconCopied e r w : mainGraphOff (faviconCopied e r w) = mainGraphOff w.
Proof. unfold faviconCopied. keptFlag. Qed.
#[local] Hint Rewrite mainGraphOff_exported mainGraphOff_resourcesCopied mainGraphOff_themeCopied
  mainGraphOff_faviconCopied : flag.

(** No callback clears the flag. *)
Lemma exec_keeps_flag e t w : mainGraphOff w = true -> mainGraphOff (exec e t w) = true.
Proof.
  intros H. destruct t; simpl; autorewrite with flag; try exact H.
  - rewrite mainGraphOff_mainGraphRendered. now destruct r.
  - rewrite mainGraphOff_mainGraphRead. now destruct r.
Qed.

Lemma step_keeps_flag e pick w : mainGraphOff w = true -> mainGraphOff (step e pick w) = true.
Proof.
  intros H. unfold step. destruct (exited w); [exact H|].
  destruct (microtasks w) as [|t q].
  - destruct (pendingIO w !! (pick mod length (pendingIO w))) as [t|]; [|exact H].
    now apply exec_keeps_flag.
  - now apply exec_keeps_flag.
Qed.

Lemma run_keeps_flag e picks w : mainGraphOff w = true -> mainGraphOff (run e picks w) = true.
Proof.
  revert w. induction picks as [|pick picks IH]; intros w H; [exact H|].
  apply IH. now apply step_keeps_flag.
Qed.

(** Nor does the start of another build. *)
Lemma mainGraphOff_generate e w : mainGraphOff (generate e w) = mainGraphOff w.
Proof. unfold generate. keptFlag. Qed.

Lemma mainGraphOff_runnerChange e w : mainGraphOff (runnerChange e w) = mainGraphOff w.
Proof.
  unfold runnerChange, getMicroDependenciesData, prepareJustAFewThings, rebuildRootMarkdowns,
    rebuildExternalDocumentation. keptFlag.
Qed.

(** C7 (as amended): with graphs enabled, the graph stage calls the
    renderer for the whole project exactly once; for the modules, it calls
    it in order, exactly once for each module with a non-empty relation
    list and never for the others, as far as the stage gets: the calls made
    are those for the first [n] modules, for some [n], and once the stage
    has handed over to the render stage they are those for all modules.
    When no module graph fails the stage does get to the end: after two
    turns of the loop for the whole-project graph (one when its render
    fails) and two per module with relations, the render stage has started
    and every module with relations has been rendered once.  (After a
    failed module graph no later module is rendered.)  A failure of the
    whole-project render, or of the read of its result, is logged, sets
    [disableMainGraph] and enters the loop over the modules; the flag is
    not set for this build only: no later turn of the loop clears it, nor
    does the start of another build. *)
Theorem graph_stage_renderer_calls (e : Env) (w : World) (picks : list nat) :
  quiescent w -> exited w = false -> disableGraph (opts w) = false ->
  let w' := run e picks (processGraphs e w) in
  mainCalledOnce e w w' /\
  (exists n, callsUpTo w w' n) /\
  (pagesStarted w w' -> callsUpTo w w' (length (modules (data (md w))))) /\
  (Forall (graphSucceeds e (dependenciesEngine w) (output (md w))) (modules (data (md w))) ->
   length picks = graphTurns e w ->
   pagesStarted w w' /\ callsUpTo w w' (length (modules (data (md w))))) /\
  (forall (v : World) (path err : string),
      let v1 := set_mainData (md_set_disableMainGraph true (md v))
                  (error ("Ooops error during main graph generation, moving on next part with main graph disabled : " +:+ err) v) in
      let v2 := set_mainData (md_set_disableMainGraph true (md v))
                  (error ("Error during main graph reading : " +:+ err) v) in
      exec e (TMainGraphRendered path (Err err)) v = graphLoop e (modules (data (md v))) 0 v1 /\
      disableMainGraph (md (exec e (TMainGraphRendered path (Err err)) v)) = true /\
      exec e (TMainGraphRead (Err err)) v = graphLoop e (modules (data (md v))) 0 v2 /\
      disableMainGraph (md (exec e (TMainGraphRead (Err err)) v)) = true) /\
  (forall (v : World) (pick : nat),
      disableMainGraph (md v) = true ->
      disableMainGraph (md (step e pick v)) = true /\
      disableMainGraph (md (generate e v)) = true /\
      disableMainGraph (md (runnerChange e v)) = true).
Proof.
  intros Hq Hex Hg w'.
  pose proof (GraphStage_run e w _ picks (processGraphs_stage e w Hq Hex Hg)) as H.
  fold w' in H.
  assert (pagesStarted w w' -> callsUpTo w w' (length (modules (data (md w))))) as Hall.
  { intros Hstarted.
    destruct H as [? Hb|? Hb|? ? ? Hb|? ? Hb|? Hb|? Hc]; try exact Hc;
      exfalso; apply Hstarted; exact (gb_notStarted _ _ _ _ Hb). }
  split; [|split; [|split; [|split; [|split]]]].
  - destruct H as [? Hb|? Hb|? ? ? Hb|? ? Hb|? Hb|Hmain]; try exact (gb_main _ _ _ _ Hb).
    exact Hmain.
  - destruct H as [? Hb|? Hb|? ? ? Hb|? ? Hb|? Hb|? Hc]; eauto using gb_calls.
  - exact Hall.
  - intros Hok Hlen.
    assert (pagesStarted w w') as Hstarted.
    { destruct (processGraphs_run e w picks Hq Hex Hg Hok Hlen) as (v' & Hrun & Hstart).
      unfold pagesStarted. subst w'. rewrite Hrun, <- Hstart.
      apply processPages_pagesStart. }
    split; [exact Hstarted | exact (Hall Hstarted)].
  - intros v path err v1 v2. split; [reflexivity|]. split.
    + simpl. unfold mainGraphRendered. now rewrite graphLoop_disableMainGraph.
    + split; [reflexivity|].
      simpl. unfold mainGraphRead. now rewrite graphLoop_disableMainGraph.
  - intros v pick Hv. split; [|split].
    + now apply step_keeps_flag.
    + fold (mainGraphOff (generate e v)). now rewrite mainGraphOff_generate.
    + fold (mainGraphOff (runnerChange e v)). now rewrite mainGraphOff_runnerChange.
Qed.

Lemma graph_stage_renderer_calls_witness :
  let w' := run allGraphsEnv (fifo 4) (processGraphs allGraphsEnv graphScenario) in
  List.filter isMainGraphCall (trace w')
  = [RenderGraph "tsconfig.json" "/project/documentation/graph" "p"] /\
  List.filter isModuleGraphCall (trace w')
  = [RenderGraph "/project/src/app.module.ts" "/project/documentation/modules/AppModule" "f"] /\
  pagesStarted graphScenario w'.
Proof.
  intros w'.
  destruct (graph_stage_renderer_calls allGraphsEnv graphScenario (fifo 4)
              ltac:(split; reflexivity) eq_refl eq_refl) as (H1 & _ & _ & H4 & _).
  fold w' in H1, H4.
  destruct H4 as [H5 H6].
  - constructor; [|constructor; [|constructor]].
    + exists emptyModule. split; [reflexivity | intros H; discriminate H].
    + exists appModule. split; [reflexivity|]. intros _.
      split; [reflexivity | exists "<svg/>"; reflexivity].
  - reflexivity.
  - split; [exact H1|]. split; [exact H6 | exact H5].
Defined.

(** C7 as stated fails.  Both modules have relations, the graph render of
    [AppModule], the first one, fails; when the build has come to rest the
    renderer has been called for [AppModule] only and never for
    [SharedModule].  And the whole-project graph is not disabled for one
    build only: after a first build in which its render failed, the
    rebuild that follows a change renders and reads the whole-project
    graph without failure, and ends with the graph still disabled. *)
Lemma module_graph_skipped_after_failure :
  let w := run graphFailsEnv (fifo 50) (generate graphFailsEnv (freshWorld exampleOptions projectFiles)) in
  (rendersGraph (dependenciesEngine w) sharedModule = true /\
   quiescent w /\
   List.filter isModuleGraphCall (trace w)
   = [RenderGraph "/project/src/app.module.ts" "/project/documentation/modules/AppModule" "f"]) /\
  (quiescent firstWatchedBuild /\
   disableMainGraph (md firstWatchedBuild) = true /\
   quiescent secondWatchedBuild /\
   mainGraph (md secondWatchedBuild) = Some "<svg/>" /\
   List.filter isLoggedError (skipn (length (trace firstWatchedBuild)) (trace secondWatchedBuild)) = [] /\
   disableMainGraph (md secondWatchedBuild) = true).
Proof. vm_compute. repeat split. Qed.

(** ** The stages after the planning *)

Lemma postGraph_laterTask t : postGraph t -> laterTask t.
Proof. destruct t; simpl; auto. Qed.

Lemma Later_refl w : Later w w.
Proof. constructor; [reflexivity|..]; exists []; rewrite app_nil_r; split; auto. Qed.

Lemma Later_trans w1 w2 w3 : Later w1 w2 -> Later w2 w3 -> Later w1 w3.
Proof.
  intros [Hp1 [m1 [Hm1 Hfm1]] [p1 [Hq1 Hfp1]]] [Hp2 [m2 [Hm2 Hfm2]] [p2 [Hq2 Hfp2]]].
  constructor.
  - congruence.
  - exists (m1 ++ m2). rewrite Hm2, Hm1, <- app_assoc. split; [reflexivity|].
    apply Forall_app. split; assumption.
  - exists (p1 ++ p2). rewrite Hq2, Hq1, <- app_assoc. split; [reflexivity|].
    apply Forall_app. split; assumption.
Qed.

Lemma Later_same w w' :
  pages (configuration w') = pages (configuration w) ->
  microtasks w' = microtasks w -> pendingIO w' = pendingIO w -> Later w w'.
Proof.
  intros H1 H2 H3. constructor; [exact H1|..]; exists []; rewrite app_nil_r; split; auto.
Qed.

Lemma Later_enqueue t w : laterTask t -> Later w (enqueue t w).
Proof.
  intros H. constructor; [reflexivity | exists [t] | exists []];
    rewrite ?app_nil_r; split; auto.
Qed.

Lemma Later_startIO t w : laterTask t -> Later w (startIO t w).
Proof.
  intros H. constructor; [reflexivity | exists [] | exists [t]];
    rewrite ?app_nil_r; split; auto.
Qed.

Lemma AfterGraphs_Later w w' :
  pages (configuration w') = pages (configuration w) -> AfterGraphs w w' -> Later w w'.
Proof.
  intros Hp [_ [ms [Hm Hfm]] [ps [Hq Hfp]]]. constructor; [exact Hp|..].
  - exists ms. split; [exact Hm|]. eapply Forall_impl; [exact Hfm|]. apply postGraph_laterTask.
  - exists ps. split; [exact Hq|]. eapply Forall_impl; [exact Hfp|]. apply postGraph_laterTask.
Qed.

(** The page list is only written by the planner. *)
Lemma pages_unhandledRejection w :
  pages (configuration (unhandledRejection w)) = pages (configuration w).
Proof.
  unfold unhandledRejection, unhandledRejectionListener. cbn.
  now destruct (unhandledRejectionListeners (proc w)).
Qed.

Lemma pages_promiseAllPages e ph ps w :
  pages (configuration (promiseAllPages e ph ps w)) = pages (configuration w).
Proof. now rewrite (started_configuration _ _ (promiseAllPages_started e ph ps w)). Qed.

Lemma pages_onComplete e w : pages (configuration (onComplete e w)) = pages (configuration w).
Proof.
  unfold onComplete, runWebServer, runWatch, endCallback, generationPromiseResolve,
    generationPromiseReject, processExit.
  repeat case_match; reflexivity.
Qed.

Lemma pages_exec_postGraph e t w :
  postGraph t -> pages (configuration (exec e t w)) = pages (configuration w).
Proof.
  destruct t; simpl; try contradiction; intros _.
  - unfold pageWritten, allCatch. repeat case_match; cbn; rewrite ?pages_unhandledRejection;
      reflexivity.
  - reflexivity.
  - unfold indexWritten, processAdditionalPages, finalize, processAssetsFolder, processResources.
    repeat case_match; cbn; rewrite ?pages_unhandledRejection, ?pages_promiseAllPages;
      reflexivity.
  - unfold assetsCopied. repeat case_match; reflexivity.
  - unfold resourcesCopied. repeat case_match; rewrite ?pages_onComplete; reflexivity.
  - unfold themeCopied. repeat case_match; rewrite ?pages_onComplete; reflexivity.
  - unfold faviconCopied. repeat case_match; rewrite ?pages_onComplete; reflexivity.
Qed.

Lemma Later_processPages e w : Later w (processPages e w).
Proof.
  apply AfterGraphs_Later; [|apply AfterGraphs_processPages].
  now rewrite (started_configuration _ _ (processPages_started e w)).
Qed.

Lemma Later_graphLoop e rest i w : Later w (graphLoop e rest i w).
Proof.
  revert i w. induction rest as [|m rest IH]; intros i w; simpl.
  - apply Later_processPages.
  - match goal with
    | |- context [getRawModule ?d ?n] => destruct (getRawModule d n) as [raw|]
    end.
    + destruct (hasRelations raw).
      * eapply Later_trans; [|apply Later_startIO; exact I]. apply Later_same; reflexivity.
      * eapply Later_trans; [|apply IH]. apply Later_same; reflexivity.
    + apply AfterGraphs_Later.
      * now rewrite pages_unhandledRejection.
      * eapply AfterGraphs_trans; [apply AfterGraphs_info | apply AfterGraphs_unhandledRejection].
Qed.

Lemma Later_processGraphs e w : Later w (processGraphs e w).
Proof.
  unfold processGraphs. destruct (disableGraph (opts w)).
  - eapply Later_trans; [|apply Later_processPages]. apply Later_same; reflexivity.
  - eapply Later_trans; [|apply Later_startIO; exact I]. apply Later_same; reflexivity.
Qed.

Lemma Later_exec e t w : laterTask t -> Later w (exec e t w).
Proof.
  intros Ht.
  assert (postGraph t \/ ~ postGraph t) as [Hpost|Hpost] by (destruct t; simpl; tauto).
  { apply AfterGraphs_Later; [now apply pages_exec_postGraph | now apply AfterGraphs_exec]. }
  destruct t; simpl in Ht, Hpost; try contradiction; simpl.
  - (* exported *)
    unfold exported, endCallback, generationPromiseResolve.
    destruct r as [u|msg].
    + apply Later_same; destruct (generationPromise (proc w)); reflexivity.
    + apply AfterGraphs_Later;
        [now rewrite pages_unhandledRejection | apply AfterGraphs_unhandledRejection].
  - unfold mainGraphRendered. destruct r as [u|err].
    + eapply Later_trans; [|apply Later_startIO; exact I]. apply Later_same; reflexivity.
    + eapply Later_trans; [|apply Later_graphLoop]. apply Later_same; reflexivity.
  - unfold mainGraphRead. destruct r as [d|err];
      (eapply Later_trans; [|apply Later_graphLoop]); apply Later_same; reflexivity.
  - unfold moduleGraphRendered. destruct r as [u|err].
    + eapply Later_trans; [|apply Later_startIO; exact I]. apply Later_same; reflexivity.
    + apply Later_same; reflexivity.
  - unfold moduleGraphRead. destruct r as [d|err].
    + eapply Later_trans; [|apply Later_graphLoop]. apply Later_same; reflexivity.
    + apply Later_same; reflexivity.
Qed.

Lemma Later_thenSeq e w : Later w (thenSeq e KEverything w).
Proof.
  unfold thenSeq. repeat case_match.
  - eapply Later_trans; [|apply Later_startIO; exact I]. apply Later_same; reflexivity.
  - apply Later_same; reflexivity.
  - apply Later_processGraphs.
Qed.

(** Once only callbacks of the later stages are queued, it stays so, and
    the page list does not change any more. *)
Lemma Later_step e pick w :
  Forall laterTask (microtasks w) -> Forall laterTask (pendingIO w) ->
  Forall laterTask (microtasks (step e pick w)) /\
  Forall laterTask (pendingIO (step e pick w)) /\
  pages (configuration (step e pick w)) = pages (configuration w).
Proof.
  intros Hm Hp. unfold step. destruct (exited w); [auto|].
  destruct (microtasks w) as [|t q] eqn:Hq.
  - destruct (pendingIO w !! (pick mod length (pendingIO w))) as [t|] eqn:Hk;
      [|rewrite Hq; auto].
    destruct (pick_split _ _ _ Hk) as (l1 & l2 & Hl & Hdel). rewrite Hdel.
    rewrite Hl in Hp. apply Forall_app in Hp. destruct Hp as [Hf1 Hf2].
    inversion Hf2; subst.
    destruct (Later_exec e t (set_pendingIO (l1 ++ l2) w))
      as [Hpg [ms [Hms Hfms]] [ps [Hps Hfps]]]; [assumption|].
    rewrite Hpg, Hms, Hps. cbn. rewrite Hq. repeat split; [exact Hfms|].
    rewrite !Forall_app. auto.
  - inversion Hm; subst.
    destruct (Later_exec e t (set_microtasks q w))
      as [Hpg [ms [Hms Hfms]] [ps [Hps Hfps]]]; [assumption|].
    rewrite Hpg, Hms, Hps. cbn. repeat split; rewrite ?Forall_app; auto.
Qed.

(** ** The planner *)

Lemma pagesFrom_snoc {A : Type} (mk : A -> nat -> Page) (l : list A) (x : A) (i : nat) :
  pagesFrom mk (l ++ [x]) i = pagesFrom mk l i ++ [mk x (i + length l)].
Proof.
  revert i. induction l as [|y l IH]; intros i; simpl.
  - now rewrite Nat.add_0_r.
  - rewrite IH. now rewrite Nat.add_succ_r.
Qed.

Lemma pagesFrom_same {A B : Type} (R : A -> B -> Prop) (mk : A -> nat -> Page)
    (mk' : B -> nat -> Page) (l : list A) (l' : list B) (i : nat) :
  (forall x y j, R x y -> mk x j = mk' y j) -> Forall2 R l l' ->
  pagesFrom mk l i = pagesFrom mk' l' i.
Proof.
  intros Hmk H. revert i. induction H as [|x y l l' Hxy H IH]; intros i; simpl; [reflexivity|].
  now rewrite (Hmk x y i Hxy), IH.
Qed.

Lemma pagesFrom_take_S {A : Type} (mk : A -> nat -> Page) (l : list A) (i : nat) (x : A) :
  l !! i = Some x -> pagesFrom mk (take (S i) l) 0 = pagesFrom mk (take i l) 0 ++ [mk x i].
Proof.
  intros H. rewrite (take_S_r l i x H), pagesFrom_snoc. simpl.
  rewrite length_take, Nat.min_l; [reflexivity|].
  apply Nat.lt_le_incl. eapply lookup_lt_Some. exact H.
Qed.

Lemma SamePlan_refl w : SamePlan w w.
Proof. constructor; reflexivity. Qed.

Lemma SamePlan_trans w1 w2 w3 : SamePlan w1 w2 -> SamePlan w2 w3 -> SamePlan w1 w3.
Proof. intros [] []. constructor; congruence. Qed.

Lemma modulesLoop_plan e ms i w :
  SamePlan w (modulesLoop e ms i w) /\
  pages (configuration (modulesLoop e ms i w))
  = pages (configuration w) ++ pagesFrom modulePage ms i.
Proof.
  revert i w. induction ms as [|m rest IH]; intros i w; simpl.
  - split; [apply SamePlan_refl | now rewrite app_nil_r].
  - match goal with |- context [modulesLoop e rest (S i) ?v] => destruct (IH (S i) v) as [H1 H2] end.
    rewrite H2. split.
    + eapply SamePlan_trans; [|exact H1].
      destruct (hasNeighbourReadmeFile e (m_file m)); constructor; reflexivity.
    + destruct (hasNeighbourReadmeFile e (m_file m)); cbn; now rewrite <- app_assoc.
Qed.

Lemma itemsLoop_plan e k xs i w :
  SamePlan w (itemsLoop e k xs i w) /\
  pages (configuration (itemsLoop e k xs i w))
  = pages (configuration w) ++ pagesFrom (itemPage k) xs i.
Proof.
  revert i w. induction xs as [|x rest IH]; intros i w; simpl.
  - split; [apply SamePlan_refl | now rewrite app_nil_r].
  - match goal with |- context [itemsLoop e k rest (S i) ?v] => destruct (IH (S i) v) as [H1 H2] end.
    rewrite H2. split.
    + eapply SamePlan_trans; [|exact H1].
      destruct (hasNeighbourReadmeFile e (i_file x)); constructor; reflexivity.
    + destruct (hasNeighbourReadmeFile e (i_file x)); cbn; now rewrite <- app_assoc.
Qed.

Lemma getItems_setItems k l c : getItems k (setItems k l c) = l.
Proof. now destruct k. Qed.

Lemma prepareItems_plan e k w :
  SamePlan w (prepareItems e k None w) /\
  pages (configuration (prepareItems e k None w))
  = pages (configuration w) ++
    pagesFrom (itemPage k) (getItems k (current (dependenciesEngine w))) 0.
Proof.
  unfold prepareItems.
  match goal with |- context [itemsLoop e k ?xs 0 ?v] => destruct (itemsLoop_plan e k xs 0 v) as [H1 H2] end.
  rewrite H2. split.
  - eapply SamePlan_trans; [|exact H1]. constructor; reflexivity.
  - cbn. now rewrite getItems_setItems.
Qed.

Lemma prepareMiscellaneous_plan w :
  SamePlan w (prepareMiscellaneous None w) /\
  pages (configuration (prepareMiscellaneous None w))
  = pages (configuration w) ++ miscPages (miscellaneous (current (dependenciesEngine w))).
Proof.
  unfold prepareMiscellaneous, miscPages.
  destruct (nonEmpty (functions _)), (nonEmpty (variables _)), (nonEmpty (typealiases _)),
    (nonEmpty (enumerations _)); cbn; rewrite <- ?app_assoc, ?app_nil_r;
    (split; [constructor; reflexivity | reflexivity]).
Qed.

Lemma filterModule_sameNameId d l : Forall2 sameNameId (map (filterModule d) l) l.
Proof. induction l; constructor; auto. split; reflexivity. Qed.

Lemma Forall2_sameNameId_trans l1 l2 l3 :
  Forall2 sameNameId l1 l2 -> Forall2 sameNameId l2 l3 -> Forall2 sameNameId l1 l3.
Proof.
  intros H. revert l3. induction H as [|x y l l' [H1 H2] H IH]; intros l3 H3;
    inversion H3 as [|? z ? ? [H4 H5] H6]; subst; constructor; auto.
  split; congruence.
Qed.

Lemma modulePage_same x y j : sameNameId x y -> modulePage x j = modulePage y j.
Proof. intros [H1 H2]. unfold modulePage. now rewrite H1, H2. Qed.

Lemma prepareModules_plan e w0 w :
  PlanFrame w0 w ->
  let w' := prepareModules e None w in
  PlanFrame w0 w' /\ microtasks w' = microtasks w /\ pendingIO w' = pendingIO w /\
  pages (configuration w')
  = pages (configuration w) ++
    modulesRootPage :: pagesFrom modulePage (modules (current (dependenciesEngine w0))) 0.
Proof.
  intros [Ho Hout [Hmods Hc Hd Hi Hp Hcl Hif Hmi Hr] Hex].
  set (d := dependenciesEngine w).
  set (filtered := map (filterModule d) (modules (current d))).
  set (w1 := set_dependenciesEngine (mkDeps (set_modules filtered (current d)) (rawModules d))
               (info "Prepare modules" w)).
  set (w2 := addPage modulesRootPage (set_data (set_modules filtered (data (md w1))) w1)).
  change (prepareModules e None w) with (modulesLoop e filtered 0 w2). cbv zeta.
  destruct (modulesLoop_plan e filtered 0 w2) as [[S1 S2 S3 S4 S5 S6] H2].
  assert (Forall2 sameNameId filtered (modules (current (dependenciesEngine w0)))) as Hf.
  { eapply Forall2_sameNameId_trans; [apply filterModule_sameNameId | exact Hmods]. }
  remember (modulesLoop e filtered 0 w2) as w3 eqn:E3. clear E3.
  split; [|split; [|split]].
  - constructor.
    + rewrite S1. exact Ho.
    + rewrite S2. exact Hout.
    + rewrite S3. constructor; assumption.
    + unfold exited in *. rewrite S4. exact Hex.
  - rewrite S5. reflexivity.
  - rewrite S6. reflexivity.
  - rewrite H2. subst w2. unfold addPage, set_pages. cbn. rewrite <- app_assoc. simpl.
    do 2 f_equal. apply pagesFrom_same with (R := sameNameId); [apply modulePage_same | exact Hf].
Qed.

Lemma PlanFrame_same w0 w w' : PlanFrame w0 w -> SamePlan w w' -> PlanFrame w0 w'.
Proof.
  intros [Ho Hout He Hex] [S1 S2 S3 S4 S5 S6]. constructor.
  - now rewrite S1.
  - now rewrite S2.
  - now rewrite S3.
  - unfold exited in *. now rewrite S4.
Qed.

Lemma PlanFrame_keep w0 w w' :
  PlanFrame w0 w -> options (md w') = options (md w) -> output (md w') = output (md w) ->
  dependenciesEngine w' = dependenciesEngine w -> proc w' = proc w -> PlanFrame w0 w'.
Proof.
  intros [Ho Hout He Hex] S1 S2 S3 S4. constructor.
  - now rewrite S1.
  - now rewrite S2.
  - now rewrite S3.
  - unfold exited in *. now rewrite S4.
Qed.

Lemma plannedSoFar_more w0 w w' cov done more extra :
  plannedSoFar w0 w cov done more ->
  pages (configuration w') = pages (configuration w) ++ extra ->
  plannedSoFar w0 w' cov done (more ++ extra).
Proof. unfold plannedSoFar. intros H ->. rewrite H. now rewrite <- !app_assoc. Qed.

Lemma plannedSoFar_done w0 w cov done a :
  plannedSoFar w0 w cov done (pagesOf (current (dependenciesEngine w0)) cov a) ->
  plannedSoFar w0 w cov (done ++ [a]) [].
Proof.
  unfold plannedSoFar. intros ->. rewrite map_app, concat_app. simpl.
  now rewrite !app_nil_r.
Qed.

Lemma plannedSoFar_same w0 w w' cov done more :
  plannedSoFar w0 w cov done more ->
  pages (configuration w') = pages (configuration w) -> plannedSoFar w0 w' cov done more.
Proof. unfold plannedSoFar. now intros H ->. Qed.

Lemma actions_next {A : Type} (done : list A) (a : A) (rest : list A) :
  done ++ a :: rest = (done ++ [a]) ++ rest.
Proof. now rewrite <- app_assoc. Qed.

Lemma sameComponent_alter (f : Component -> Component) i l l0 :
  (forall x, sameComponent (f x) x) ->
  Forall2 sameComponent l l0 -> Forall2 sameComponent (alter f i l) l0.
Proof.
  intros Hf. apply Forall2_alter_l. intros x y (H1 & H2 & H3 & H4).
  destruct (Hf x) as (F1 & F2 & F3 & F4). repeat split; congruence.
Qed.

Lemma componentAdded_plan e comp i w :
  let w' := componentAdded e comp i w in
  SamePlan w w' /\
  pages (configuration w') = pages (configuration w) ++ [componentPage comp i] /\
  (forall l0, Forall2 sameComponent (components (data (md w))) l0 ->
              Forall2 sameComponent (components (data (md w'))) l0) /\
  drop (S i) (components (data (md w'))) = drop (S i) (components (data (md w))).
Proof.
  unfold componentAdded. destruct (hasNeighbourReadmeFile e (c_file comp)); cbn.
  - split; [constructor; reflexivity|]. split; [reflexivity|]. split.
    + intros l0 H. apply sameComponent_alter; [|exact H]. intros x. repeat split.
    + rewrite drop_alter. destruct (decide (S i <= i)); [lia | reflexivity].
  - split; [constructor; reflexivity|]. repeat split. auto.
Qed.

Lemma componentPage_same x y j : sameComponent x y -> componentPage x j = componentPage y j.
Proof. intros (H1 & H2 & _). unfold componentPage. now rewrite H1, H2. Qed.

Lemma componentsLoop_stage e w0 done rest cov cs i w :
  PlanFrame w0 w -> everythingActions e w0 = done ++ APrepareComponents :: rest ->
  coverageOf e cov -> microtasks w = [] -> pendingIO w = [] ->
  Forall2 sameComponent (components (data (md w))) (components (current (dependenciesEngine w0))) ->
  cs = drop i (components (data (md w))) ->
  plannedSoFar w0 w cov done
    (pagesFrom componentPage (take i (components (current (dependenciesEngine w0)))) 0) ->
  PlanStage e w0 (componentsLoop e cs i (ContSeq rest KEverything) w).
Proof.
  revert i w. induction cs as [|comp cs IH]; intros i w Hf Hacts Hcov Hm Hp Hsame Hcs Hpl.
  - (* every component has been visited *)
    simpl. eapply (PS_seq e w0 _ (done ++ [APrepareComponents]) rest cov).
    + apply (PlanFrame_keep _ _ _ Hf); reflexivity.
    + now rewrite <- actions_next.
    + exact Hcov.
    + cbn. now rewrite Hm.
    + exact Hp.
    + apply plannedSoFar_done. eapply plannedSoFar_same; [|reflexivity].
      simpl pagesOf.
      assert (length (components (current (dependenciesEngine w0))) <= i) as Hlen.
      { rewrite <- (Forall2_length _ _ _ Hsame).
        symmetry in Hcs. now apply drop_nil_inv in Hcs. }
      now rewrite take_ge in Hpl by exact Hlen.
  - (* component [i] *)
    assert (components (data (md w)) !! i = Some comp /\
            cs = drop (S i) (components (data (md w)))) as [Hi Hcs'].
    { split.
      - assert (drop i (components (data (md w))) !! 0 = Some comp) as H0
            by (rewrite <- Hcs; reflexivity).
        now rewrite lookup_drop, Nat.add_0_r in H0.
      - assert (cs = drop 1 (drop i (components (data (md w))))) as H1
            by (rewrite <- Hcs; reflexivity).
        now rewrite drop_drop, Nat.add_1_r in H1. }
    destruct (Forall2_lookup_l _ _ _ _ _ Hsame Hi) as [comp0 [Hi0 Hc0]].
    destruct (componentAdded_plan e comp i w) as (Hsp & Hpages & Hsame' & Hdrop).
    assert (plannedSoFar w0 (componentAdded e comp i w) cov done
              (pagesFrom componentPage
                 (take (S i) (components (current (dependenciesEngine w0)))) 0)) as Hpl'.
    { rewrite (pagesFrom_take_S _ _ _ _ Hi0), <- (componentPage_same _ _ _ Hc0).
      eapply plannedSoFar_more; eassumption. }
    destruct (Nat.ltb 0 (String.length (templateUrl comp))) eqn:Hurl.
    + rewrite (componentsLoop_template e comp cs i _ w Hurl).
      unfold componentPlanned, handleTemplateurl.
      remember (componentAdded e comp i w) as w1 eqn:E1 in *. clear E1.
      match goal with |- context [existsSync e ?p] => destruct (existsSync e p) end; cbn [negb].
      * eapply (PS_template e w0 _ done rest cov i); try eassumption.
        -- apply (PlanFrame_keep _ _ _ (PlanFrame_same _ _ _ Hf Hsp)); reflexivity.
        -- cbn. now rewrite (sp_microtasks _ _ Hsp).
        -- cbn. rewrite (sp_pendingIO _ _ Hsp), Hp. reflexivity.
        -- apply Hsame'. exact Hsame.
        -- eapply lookup_lt_Some. exact Hi0.
      * apply PS_stopped; cbn.
        -- now rewrite (sp_microtasks _ _ Hsp).
        -- right. now rewrite (sp_pendingIO _ _ Hsp).
    + assert (componentsLoop e (comp :: cs) i (ContSeq rest KEverything) w
              = componentsLoop e cs (S i) (ContSeq rest KEverything) (componentAdded e comp i w))
        as -> by (simpl; rewrite Hurl; reflexivity).
      apply IH; try assumption.
      * eapply PlanFrame_same; eassumption.
      * now rewrite (sp_microtasks _ _ Hsp).
      * now rewrite (sp_pendingIO _ _ Hsp).
      * apply Hsame'. exact Hsame.
      * now rewrite Hdrop.
Qed.

Lemma resolveCont_stage e w0 done rest cov w :
  PlanFrame w0 w -> everythingActions e w0 = done ++ rest -> coverageOf e cov ->
  microtasks w = [] -> pendingIO w = [] -> plannedSoFar w0 w cov done [] ->
  PlanStage e w0 (resolveCont (ContSeq rest KEverything) w).
Proof.
  intros Hf Hacts Hcov Hm Hp Hpl. eapply (PS_seq e w0 _ done rest cov); try assumption.
  - apply (PlanFrame_keep _ _ _ Hf); reflexivity.
  - cbn. now rewrite Hm.
Qed.

Lemma includesLoop_stage e w0 done rest cov items i w :
  PlanFrame w0 w -> everythingActions e w0 = done ++ rest -> coverageOf e cov ->
  microtasks w = [] -> pendingIO w = [] -> plannedSoFar w0 w cov done [] ->
  PlanStage e w0 (includesLoop e items i (ContSeq rest KEverything) w).
Proof.
  intros Hf Hacts Hcov Hm Hp Hpl. unfold includesLoop.
  destruct (items !! i) as [it|]; [|now apply (resolveCont_stage e w0 done rest cov)].
  eapply (PS_waiting e w0 _ done rest cov); try eassumption.
  - apply (PlanFrame_keep _ _ _ Hf); reflexivity.
  - cbn. rewrite Hp. reflexivity.
  - right. right. left. eauto.
Qed.

Lemma includeChildLoop_stage e w0 done rest cov items i j w :
  PlanFrame w0 w -> everythingActions e w0 = done ++ rest -> coverageOf e cov ->
  microtasks w = [] -> pendingIO w = [] -> plannedSoFar w0 w cov done [] ->
  PlanStage e w0 (includeChildLoop e items i j (ContSeq rest KEverything) w).
Proof.
  intros Hf Hacts Hcov Hm Hp Hpl. unfold includeChildLoop.
  destruct (items !! i) as [it|]; [|apply PS_stopped; auto].
  destruct (s_children it !! j) as [ch|];
    [|now apply (includesLoop_stage e w0 done rest cov)].
  eapply (PS_waiting e w0 _ done rest cov); try eassumption.
  - apply (PlanFrame_keep _ _ _ Hf); reflexivity.
  - cbn. rewrite Hp. reflexivity.
  - right. right. right. eauto 6.
Qed.

Lemma stopped_unhandledRejection e w0 w :
  microtasks w = [] -> pendingIO w = [] -> PlanStage e w0 (unhandledRejection w).
Proof.
  intros Hm Hp. unfold unhandledRejection, unhandledRejectionListener.
  destruct (unhandledRejectionListeners (proc (emit UnhandledRejection w)));
    apply PS_stopped; cbn; auto.
Qed.

(** The shape of the [actions] array of [prepareEverything]. *)
Lemma Forall_pushIf (P : Action -> Prop) (b : bool) (a : Action) (l : list Action) :
  Forall P l -> P a -> Forall P (pushIf b a l).
Proof.
  intros Hl Ha. unfold pushIf. destruct b; [|exact Hl].
  apply Forall_app. split; [exact Hl | now constructor].
Qed.

Lemma everythingActions_no_markdowns e w :
  Forall (fun a => a <> AProcessMarkdowns) (everythingActions e w).
Proof.
  unfold everythingActions.
  repeat (apply Forall_pushIf; [|discriminate]).
  repeat constructor; discriminate.
Qed.

Lemma filter_pushIf (f : Action -> bool) (b : bool) (a : Action) (l : list Action) :
  List.filter f (pushIf b a l) = List.filter f l ++ (if b && f a then [a] else []).
Proof.
  unfold pushIf. destruct b; simpl; [|now rewrite app_nil_r].
  rewrite List.filter_app. simpl. now destruct (f a).
Qed.

Lemma everythingActions_coverage_once e w done rest :
  everythingActions e w = done ++ APrepareCoverage :: rest -> ~ In APrepareCoverage done.
Proof.
  intros H Hin.
  assert (length (List.filter isCoverageAction (everythingActions e w)) <= 1) as Hle.
  { unfold everythingActions. rewrite !filter_pushIf. simpl.
    rewrite !andb_false_r, !app_nil_r. simpl.
    destruct (negb (disableCoverage (opts w))); simpl; lia. }
  rewrite H, List.filter_app in Hle. simpl in Hle. rewrite length_app in Hle. simpl in Hle.
  assert (In APrepareCoverage (List.filter isCoverageAction done)) as Hf
      by (apply filter_In; split; [exact Hin | reflexivity]).
  destruct (List.filter isCoverageAction done); [destruct Hf | simpl in Hle; lia].
Qed.

Lemma pagesOf_no_coverage c cov cov' done :
  ~ In APrepareCoverage done ->
  concat (map (pagesOf c cov) done) = concat (map (pagesOf c cov') done).
Proof.
  induction done as [|a done IH]; intros Hn; [reflexivity|]. simpl.
  rewrite IH by (intros H; apply Hn; now right).
  destruct a; try reflexivity. exfalso. apply Hn. now left.
Qed.

Lemma addPages_plan ps w :
  SamePlan w (fold_left (fun w p => addPage p w) ps w) /\
  pages (configuration (fold_left (fun w p => addPage p w) ps w))
  = pages (configuration w) ++ ps.
Proof.
  revert w. induction ps as [|p ps IH]; intros w; simpl.
  - split; [apply SamePlan_refl | now rewrite app_nil_r].
  - destruct (IH (addPage p w)) as [H1 H2]. rewrite H2. split.
    + eapply SamePlan_trans; [|exact H1]. constructor; reflexivity.
    + cbn. now rewrite <- app_assoc.
Qed.

Lemma Forall2_sameComponent_refl l : Forall2 sameComponent l l.
Proof. induction l; constructor; auto. repeat split. Qed.

Lemma getItems_same k c' c : SameEntries c' c -> getItems k c' = getItems k c.
Proof. intros []. now destruct k. Qed.

Lemma PlanStage_step e w0 w pick : PlanStage e w0 w -> PlanStage e w0 (step e pick w).
Proof.
  intros [done rest cov Hf Hacts Hcov Hm Hp Hpl
         | done rest cov i r Hf Hacts Hcov Hm Hp Hsame Hi Hpl
         | done rest cov t Hf Hacts Hcov Hm Hp Hwait Hpl
         | done rest cov r Hf Hacts Hr Hm Hp Hpl
         | Hm Hstop
         | Hm Hp].
  - (* the next action of the sequence *)
    rewrite (step_micro e pick w _ [] (pf_exited _ _ Hf) Hm). simpl exec.
    assert (PlanFrame w0 (set_microtasks [] w)) as Hf'
        by (apply (PlanFrame_keep _ _ _ Hf); reflexivity).
    assert (plannedSoFar w0 (set_microtasks [] w) cov done []) as Hpl'
        by (eapply plannedSoFar_same; [exact Hpl | reflexivity]).
    remember (set_microtasks [] w) as v eqn:Ev.
    assert (microtasks v = [] /\ pendingIO v = []) as [Hvm Hvp] by (subst v; auto).
    clear Ev Hm Hp Hpl Hf w.
    destruct rest as [|a rest];
      [change (sequential e [] KEverything v) with (thenSeq e KEverything v)
      |change (sequential e (a :: rest) KEverything v)
         with (runAction e a (ContSeq rest KEverything) v)].
    { destruct (Later_thenSeq e v) as [_ [ms [Hms Hfms]] [ps [Hps Hfps]]].
      apply PS_later; [rewrite Hms, Hvm | rewrite Hps, Hvp]; assumption. }
    assert (a <> AProcessMarkdowns) as Hmd.
    { pose proof (everythingActions_no_markdowns e w0) as Hall.
      rewrite Hacts in Hall. apply Forall_app in Hall. destruct Hall as [_ Hall].
      now inversion Hall. }
    rewrite actions_next in Hacts.
    destruct a; simpl runAction; try contradiction.
    + (* prepareModules *)
      destruct (prepareModules_plan e w0 v Hf') as (Hf2 & Hm2 & Hp2 & Hpages).
      apply (resolveCont_stage e w0 (done ++ [APrepareModules]) rest cov); try assumption;
        try congruence.
      apply plannedSoFar_done. eapply plannedSoFar_more with (more := []); eassumption.
    + (* prepareComponents *)
      unfold prepareComponents.
      set (v1 := set_data _ _).
      assert (components (data (md v1)) = components (current (dependenciesEngine w0))) as Hc
          by (subst v1; cbn; apply (se_components _ _ (pf_entries _ _ Hf'))).
      rewrite <- actions_next in Hacts.
      eapply (componentsLoop_stage e w0 done rest cov);
        [ apply (PlanFrame_keep _ _ _ Hf'); reflexivity
        | exact Hacts | exact Hcov | exact Hvm | exact Hvp
        | rewrite Hc; apply Forall2_sameComponent_refl
        | reflexivity
        | eapply plannedSoFar_same; [exact Hpl' | reflexivity] ].
    + (* the five item groups *)
      destruct (prepareItems_plan e k v) as [Hsp Hpages].
      apply (resolveCont_stage e w0 (done ++ [APrepareItems k]) rest cov); try assumption.
      * eapply PlanFrame_same; eassumption.
      * now rewrite (sp_microtasks _ _ Hsp).
      * now rewrite (sp_pendingIO _ _ Hsp).
      * apply plannedSoFar_done. simpl pagesOf.
        rewrite <- (getItems_same k _ _ (pf_entries _ _ Hf')).
        eapply plannedSoFar_more with (more := []); eassumption.
    + (* prepareRoutes *)
      unfold prepareRoutes.
      set (v1 := addPage _ _).
      assert (PlanFrame w0 v1) as Hf1 by (apply (PlanFrame_keep _ _ _ Hf'); reflexivity).
      assert (plannedSoFar w0 v1 cov (done ++ [APrepareRoutes]) []) as Hpl1.
      { apply plannedSoFar_done. eapply plannedSoFar_more with (more := []); [exact Hpl'|].
        reflexivity. }
      change (exportFormat (opts v1)) with (exportFormat (opts v)).
      destruct (exportFormat (opts v) =? defaultExportFormat e).
      * eapply (PS_waiting e w0 _ (done ++ [APrepareRoutes]) rest cov);
          [ apply (PlanFrame_keep _ _ _ Hf1); reflexivity
          | exact Hacts | exact Hcov | exact Hvm
          | cbn; rewrite Hvp; reflexivity
          | left; eauto
          | eapply plannedSoFar_same; [exact Hpl1 | reflexivity] ].
      * apply (resolveCont_stage e w0 (done ++ [APrepareRoutes]) rest cov); assumption.
    + (* prepareMiscellaneous *)
      destruct (prepareMiscellaneous_plan v) as [Hsp Hpages].
      apply (resolveCont_stage e w0 (done ++ [APrepareMiscellaneous]) rest cov); try assumption.
      * eapply PlanFrame_same; eassumption.
      * now rewrite (sp_microtasks _ _ Hsp).
      * now rewrite (sp_pendingIO _ _ Hsp).
      * apply plannedSoFar_done. simpl pagesOf.
        rewrite <- (se_miscellaneous _ _ (pf_entries _ _ Hf')).
        eapply plannedSoFar_more with (more := []); eassumption.
    + (* prepareCoverage *)
      unfold prepareCoverage. rewrite <- actions_next in Hacts.
      eapply (PS_coverage e w0 _ done rest cov);
        [ apply (PlanFrame_keep _ _ _ Hf'); reflexivity
        | exact Hacts
        | intros ps Hps; eexists; exact Hps
        | exact Hvm
        | cbn; rewrite Hvp; reflexivity
        | eapply plannedSoFar_same; [exact Hpl' | reflexivity] ].
    + (* prepareExternalIncludes *)
      unfold prepareExternalIncludes.
      eapply (PS_waiting e w0 _ (done ++ [APrepareExternalIncludes]) rest cov);
        [ apply (PlanFrame_keep _ _ _ Hf'); reflexivity
        | exact Hacts | exact Hcov | exact Hvm
        | cbn; rewrite Hvp; reflexivity
        | right; left; eauto
        | apply plannedSoFar_done; eapply plannedSoFar_same; [exact Hpl' | reflexivity] ].
  - (* the template of component [i] has been read, or not *)
    rewrite (step_single_io e pick w _ (pf_exited _ _ Hf) Hm Hp). simpl exec.
    unfold templateDone. destruct r as [d|err].
    + set (v1 := set_data _ _).
      eapply (componentsLoop_stage e w0 done rest cov);
        [ apply (PlanFrame_keep _ _ _ Hf); reflexivity
        | exact Hacts | exact Hcov | exact Hm | reflexivity
        | subst v1; cbn; apply sameComponent_alter; [|exact Hsame]; intros x; repeat split
        | reflexivity
        | eapply plannedSoFar_same; [exact Hpl | reflexivity] ].
    + apply PS_stopped; cbn; auto.
  - (* an action waiting for its input *)
    rewrite (step_single_io e pick w _ (pf_exited _ _ Hf) Hm Hp).
    assert (PlanFrame w0 (set_pendingIO [] w)) as Hf'
        by (apply (PlanFrame_keep _ _ _ Hf); reflexivity).
    assert (plannedSoFar w0 (set_pendingIO [] w) cov done []) as Hpl'
        by (eapply plannedSoFar_same; [exact Hpl | reflexivity]).
    remember (set_pendingIO [] w) as v eqn:Ev.
    assert (microtasks v = [] /\ pendingIO v = []) as [Hvm Hvp] by (subst v; auto).
    clear Ev Hm Hp Hpl Hf w.
    destruct Hwait as [[r ->] | [[r ->] | [(items & i & r & ->) | (items & i & j & r & ->)]]];
      simpl exec.
    + unfold routesIndexDone. destruct r as [u|err].
      * apply (resolveCont_stage e w0 done rest cov);
          [ apply (PlanFrame_keep _ _ _ Hf'); reflexivity
          | exact Hacts | exact Hcov | exact Hvm | exact Hvp
          | eapply plannedSoFar_same; [exact Hpl' | reflexivity] ].
      * apply PS_stopped; cbn; auto.
    + unfold summaryDone. destruct r as [d|err].
      * destruct (parseSummary e d) as [items|].
        -- apply (includesLoop_stage e w0 done rest cov);
             [ apply (PlanFrame_keep _ _ _ Hf'); reflexivity
             | exact Hacts | exact Hcov | exact Hvm | exact Hvp
             | eapply plannedSoFar_same; [exact Hpl' | reflexivity] ].
        -- apply stopped_unhandledRejection; assumption.
      * apply PS_stopped; cbn; auto.
    + unfold includeDone. destruct (items !! i) as [it|]; [|apply PS_stopped; auto].
      destruct r as [d|err]; [|apply PS_stopped; cbn; auto].
      set (v1 := addAdditionalPage _ _).
      assert (PlanFrame w0 v1) as Hf1 by (apply (PlanFrame_keep _ _ _ Hf'); reflexivity).
      assert (plannedSoFar w0 v1 cov done []) as Hpl1
          by (eapply plannedSoFar_same; [exact Hpl' | reflexivity]).
      destruct (nonEmpty (s_children it)).
      * apply (includeChildLoop_stage e w0 done rest cov); assumption.
      * apply (includesLoop_stage e w0 done rest cov); assumption.
    + unfold includeChildDone. destruct (items !! i) as [it|]; [|apply PS_stopped; auto].
      destruct (s_children it !! j) as [ch|]; [|apply PS_stopped; auto].
      destruct r as [d|err]; [|apply PS_stopped; cbn; auto].
      set (v1 := addAdditionalPage _ _).
      assert (PlanFrame w0 v1) as Hf1 by (apply (PlanFrame_keep _ _ _ Hf'); reflexivity).
      assert (plannedSoFar w0 v1 cov done []) as Hpl1
          by (eapply plannedSoFar_same; [exact Hpl' | reflexivity]).
      apply (includeChildLoop_stage e w0 done rest cov); assumption.
  - (* the coverage report *)
    rewrite (step_single_io e pick w _ (pf_exited _ _ Hf) Hm Hp). simpl exec.
    unfold coverageDone. destruct r as [ps|msg]; [|apply PS_stopped; cbn; auto].
    destruct (addPages_plan ps (set_pendingIO [] w)) as [Hsp Hpages].
    rewrite actions_next in Hacts.
    apply (resolveCont_stage e w0 (done ++ [APrepareCoverage]) rest ps).
    + eapply PlanFrame_same; [|exact Hsp]. apply (PlanFrame_keep _ _ _ Hf); reflexivity.
    + exact Hacts.
    + right. apply Hr. reflexivity.
    + rewrite (sp_microtasks _ _ Hsp). exact Hm.
    + rewrite (sp_pendingIO _ _ Hsp). reflexivity.
    + apply plannedSoFar_done. simpl pagesOf.
      eapply plannedSoFar_more with (more := []); [|exact Hpages].
      unfold plannedSoFar in *. cbn. rewrite Hpl.
      rewrite <- actions_next in Hacts.
      now rewrite (pagesOf_no_coverage _ cov ps done
                     (everythingActions_coverage_once e w0 done rest Hacts)).
  - (* the planning has stopped *)
    destruct Hstop as [Hstop|Hstop].
    + rewrite step_exited by exact Hstop. apply PS_stopped; auto.
    + rewrite step_quiescent by (split; assumption). apply PS_stopped; auto.
  - (* the later stages *)
    destruct (Later_step e pick w Hm Hp) as (H1 & H2 & _). now apply PS_later.
Qed.

Lemma PlanStage_run e w0 w picks : PlanStage e w0 w -> PlanStage e w0 (run e picks w).
Proof.
  revert w. induction picks as [|pick picks IH]; intros w H; simpl; [exact H|].
  apply IH. now apply PlanStage_step.
Qed.

Lemma concat_map_pushIf {B : Type} (f : Action -> list B) (b : bool) (a : Action)
    (l : list Action) :
  concat (map f (pushIf b a l)) = concat (map f l) ++ (if b then f a else []).
Proof.
  unfold pushIf. destruct b; [|now rewrite app_nil_r].
  rewrite map_app, concat_app. simpl. now rewrite app_nil_r.
Qed.

Lemma pagesFrom_nonEmpty {A : Type} (mk : A -> nat -> Page) (l : list A) :
  (if nonEmpty l then pagesFrom mk l 0 else []) = pagesFrom mk l 0.
Proof. now destruct l. Qed.

Lemma miscPages_nonEmpty m : (if miscNonEmpty m then miscPages m else []) = miscPages m.
Proof.
  unfold miscNonEmpty, miscPages.
  destruct (nonEmpty (variables m)), (nonEmpty (functions m)), (nonEmpty (typealiases m)),
    (nonEmpty (enumerations m)); reflexivity.
Qed.

Lemma everythingActions_pages e w cov :
  concat (map (pagesOf (current (dependenciesEngine w)) cov) (everythingActions e w))
  = plannedPages (current (dependenciesEngine w)) ++
    (if disableCoverage (opts w) then [] else cov).
Proof.
  unfold everythingActions, plannedPages. rewrite !concat_map_pushIf.
  cbn [map concat pagesOf getItems].
  rewrite !pagesFrom_nonEmpty, miscPages_nonEmpty, app_nil_r.
  destruct (disableCoverage (opts w)), (negb (includes (opts w) =? ""));
    cbn [negb]; rewrite <- ?app_assoc, ?app_nil_r; reflexivity.
Qed.

Lemma in_pagesFrom {A : Type} (mk : A -> nat -> Page) (l : list A) (i : nat) (p : Page) :
  In p (pagesFrom mk l i) -> exists x j, In x l /\ p = mk x j.
Proof.
  revert i. induction l as [|x l IH]; intros i H; [destruct H|].
  destruct H as [<-|H].
  - exists x, i. split; [now left | reflexivity].
  - destruct (IH _ H) as (y & j & Hy & ->). exists y, j. split; [now right | reflexivity].
Qed.

Lemma pagesFrom_head {A : Type} (mk : A -> nat -> Page) (l : list A) :
  l <> [] -> exists x, In x l /\ In (mk x 0) (pagesFrom mk l 0).
Proof.
  destruct l as [|x l]; [contradiction|]. intros _. exists x. split; now left.
Qed.

Lemma in_miscPages m p : In p (miscPages m) -> exists group, p = miscPage group.
Proof.
  unfold miscPages. intros H.
  repeat (apply in_app_or in H; destruct H as [H|H]);
    match type of H with
    | In _ (if ?b then _ else _) => destruct b; [destruct H as [<-|[]]; eauto | destruct H]
    end.
Qed.

(** Where a planned page comes from. *)
Lemma in_plannedPages c p :
  In p (plannedPages c) ->
  p = modulesRootPage \/
  (exists m j, In m (modules c) /\ p = modulePage m j) \/
  (exists x j, In x (components c) /\ p = componentPage x j) \/
  (exists k x j, In x (getItems k c) /\ p = itemPage k x j) \/
  (p = routesRootPage /\ hasRoutes (routes c) = true) \/
  (exists group, p = miscPage group).
Proof.
  unfold plannedPages. intros H.
  apply in_app_or in H. destruct H as [[<-|H]|H]; [now left | |].
  { right. left. now apply in_pagesFrom in H. }
  apply in_app_or in H. destruct H as [H|H].
  { right. right. left. now apply in_pagesFrom in H. }
  apply in_app_or in H. destruct H as [H|H].
  { do 3 right. left. exists KDirective. now apply in_pagesFrom in H. }
  apply in_app_or in H. destruct H as [H|H].
  { do 3 right. left. exists KInjectable. now apply in_pagesFrom in H. }
  apply in_app_or in H. destruct H as [H|H].
  { do 4 right. left. destruct (hasRoutes (routes c)); [|destruct H].
    destruct H as [<-|[]]. split; reflexivity. }
  apply in_app_or in H. destruct H as [H|H].
  { do 3 right. left. exists KPipe. now apply in_pagesFrom in H. }
  apply in_app_or in H. destruct H as [H|H].
  { do 3 right. left. exists KClass. now apply in_pagesFrom in H. }
  apply in_app_or in H. destruct H as [H|H].
  { do 3 right. left. exists KInterface. now apply in_pagesFrom in H. }
  do 5 right. eapply in_miscPages. exact H.
Qed.

Lemma plannedPages_items c k x :
  In x (getItems k c) -> exists j, In (itemPage k x j) (plannedPages c).
Proof.
  intros H.
  assert (exists j, In (itemPage k x j) (pagesFrom (itemPage k) (getItems k c) 0)) as [j Hj].
  { generalize 0. induction (getItems k c) as [|y l IH]; intros i; [destruct H|].
    destruct H as [->|H]; [exists i; now left|].
    destruct (IH H (S i)) as [j Hj]. exists j. now right. }
  exists j. unfold plannedPages.
  destruct k; simpl getItems in Hj; repeat (apply in_or_app; first [now left | right]).
Qed.

Lemma Forall2_sameNameId_refl l : Forall2 sameNameId l l.
Proof. induction l; constructor; auto. split; reflexivity. Qed.

Lemma nonempty_member {A : Type} (l : list A) : l <> [] <-> exists x, In x l.
Proof.
  split.
  - destruct l as [|x l]; [contradiction | intros _; exists x; now left].
  - intros [x Hx] ->. destruct Hx.
Qed.

Lemma run_app (e : Env) (picks1 picks2 : list nat) (w : World) :
  run e (picks1 ++ picks2) w = run e picks2 (run e picks1 w).
Proof. unfold run. apply fold_left_app. Qed.

Lemma resolveCont_contTask (c : Cont) (w : World) :
  resolveCont c w = enqueue (contTask c) w.
Proof. destruct c; reflexivity. Qed.

(** ** External documentation *)

Lemma IncludesFrame_refl (w : World) : IncludesFrame w w.
Proof. constructor; reflexivity. Qed.

Lemma IncludesFrame_trans (w1 w2 w3 : World) :
  IncludesFrame w1 w2 -> IncludesFrame w2 w3 -> IncludesFrame w1 w3.
Proof. intros [] []. constructor; congruence. Qed.

(** The loop over the children of the entry at index [i], from child [j]
    on: one turn per child, then the outer loop goes on. *)
Lemma includeChildLoop_run (e : Env) (items : list SummaryItem) (c : Cont) (i : nat)
    (it : SummaryItem) (picks : list nat) (j : nat) (w : World) :
  quiescent w -> exited w = false -> items !! i = Some it ->
  Forall (fun ch => readable e (opts w) (sc_file ch)) (drop j (s_children it)) ->
  j + length picks = length (s_children it) ->
  exists v,
    run e picks (includeChildLoop e items i j c w) = includesLoop e items (S i) c v /\
    quiescent v /\ exited v = false /\ IncludesFrame w v /\
    additionalPages (md v)
    = additionalPages (md w) ++ map (includeChildPage e (opts w) it) (drop j (s_children it)).
Proof.
  revert j w. induction picks as [|pick picks IH]; intros j w Hq Hex Hit Hread Hlen.
  - simpl in Hlen. exists w. unfold includeChildLoop. rewrite Hit.
    rewrite (lookup_ge_None_2 (s_children it) j) by lia.
    rewrite drop_ge by lia. simpl. rewrite app_nil_r.
    repeat split; try apply Hq; try assumption.
  - simpl in Hlen.
    destruct (s_children it !! j) as [ch|] eqn:Hch.
    2: { apply lookup_ge_None in Hch. lia. }
    rewrite (drop_S _ _ _ Hch) in Hread |- *.
    apply Forall_cons in Hread. destruct Hread as [[markedData Hmd] Hread].
    change (run e (pick :: picks) (includeChildLoop e items i j c w))
      with (run e picks (step e pick (includeChildLoop e items i j c w))).
    unfold includeChildLoop at 1. rewrite Hit, Hch, Hmd.
    destruct Hq as [Hm Hp].
    rewrite (step_single_io e pick _ (TIncludeChild items i j (Ok markedData) c));
      [| exact Hex | exact Hm | unfold startIO; cbn; now rewrite Hp ].
    cbn [exec]. unfold includeChildDone. rewrite Hit, Hch.
    match goal with |- context [includeChildLoop e items i (S j) c ?v0] => set (v := v0) end.
    destruct (IH (S j) v) as (v' & Hrun & Hqv & Hexv & Hfr & Hadd).
    + split; [exact Hm | reflexivity].
    + exact Hex.
    + exact Hit.
    + exact Hread.
    + lia.
    + exists v'. rewrite Hrun.
      split; [reflexivity|]. split; [exact Hqv|]. split; [exact Hexv|]. split.
      * eapply IncludesFrame_trans; [|exact Hfr]. constructor; reflexivity.
      * rewrite Hadd.
        assert (includeChildPage e (opts w) it ch
                = mkPage (sc_title ch) (sc_title ch)
                    (includesFolder (opts w) +:+ "/" +:+
                       cleanNameWithoutSpaceAndToLowerCase e (s_title it))
                    (cleanNameWithoutSpaceAndToLowerCase e (sc_title ch)) "additional-page"
                    (Some 2) (Some INTERNAL) (AdditionalPage markedData)) as Hpage
          by (unfold includeChildPage, includedText; now rewrite Hmd).
        cbn [map]. rewrite Hpage. subst v. unfold addAdditionalPage. cbn.
        rewrite <- app_assoc. reflexivity.
Qed.

Lemma includeReads_cons (it : SummaryItem) (items : list SummaryItem) :
  includeReads (it :: items) = S (length (s_children it) + includeReads items).
Proof. unfold includeReads. simpl. now rewrite length_app, length_map. Qed.

(** The loop over the entries of the summary, from index [i] on, run to its
    end. *)
Lemma includesLoop_run (e : Env) (items : list SummaryItem) (c : Cont) (n : nat) :
  forall (i : nat) (picks : list nat) (w : World),
    length items - i = n ->
    quiescent w -> exited w = false ->
    Forall (includeReadable e (opts w)) (drop i items) ->
    length picks = includeReads (drop i items) ->
    let w' := run e picks (includesLoop e items i c w) in
    microtasks w' = [contTask c] /\ pendingIO w' = [] /\ IncludesFrame w w' /\
    additionalPages (md w')
    = additionalPages (md w) ++ concat (map (includePagesOf e (opts w)) (drop i items)).
Proof.
  induction n as [|n IH]; intros i picks w Hn Hq Hex Hread Hlen w'; subst w'.
  - rewrite drop_ge in Hlen |- * by lia.
    destruct picks; [|discriminate]. destruct Hq as [Hm Hp].
    unfold includesLoop. rewrite (lookup_ge_None_2 items i) by lia.
    rewrite resolveCont_contTask. unfold enqueue. cbn.
    rewrite Hm, app_nil_r. repeat split; assumption.
  - destruct (items !! i) as [it|] eqn:Hit.
    2: { apply lookup_ge_None in Hit. lia. }
    rewrite (drop_S _ _ _ Hit) in Hread, Hlen |- *.
    apply Forall_cons in Hread. destruct Hread as [[[markedData Hmd] Hchildren] Hread].
    rewrite includeReads_cons in Hlen.
    destruct picks as [|pick picks]; [discriminate|].
    injection Hlen as Hlen.
    remember (run e (pick :: picks) (includesLoop e items i c w)) as W eqn:HW.
    change (run e (pick :: picks) (includesLoop e items i c w))
      with (run e picks (step e pick (includesLoop e items i c w))) in HW.
    unfold includesLoop at 1 in HW. rewrite Hit, Hmd in HW.
    destruct Hq as [Hm Hp].
    rewrite (step_single_io e pick _ (TInclude items i (Ok markedData) c)) in HW;
      [| exact Hex | exact Hm | unfold startIO; cbn; now rewrite Hp ].
    cbn [exec] in HW. unfold includeDone in HW. rewrite Hit in HW.
    match type of HW with context [includesLoop e items (S i) c ?v0] => set (v := v0) in HW end.
    assert (quiescent v) as Hqv by (split; [exact Hm | reflexivity]).
    assert (additionalPages (md v) = additionalPages (md w) ++ [includePage e (opts w) it]) as Hv.
    { subst v. unfold addAdditionalPage. cbn. unfold includePage, includedText.
      now rewrite Hmd. }
    assert (IncludesFrame w v) as Hfv by (constructor; reflexivity).
    assert (run e picks (if nonEmpty (s_children it) then includeChildLoop e items i 0 c v
                         else includesLoop e items (S i) c v)
            = run e picks (includeChildLoop e items i 0 c v)) as Hsame.
    { destruct (s_children it) as [|ch chs] eqn:Hch; [|reflexivity].
      simpl. unfold includeChildLoop. now rewrite Hit, Hch. }
    rewrite Hsame in HW. clear Hsame.
    rewrite <- (take_drop (length (s_children it)) picks), run_app in HW.
    destruct (includeChildLoop_run e items c i it (take (length (s_children it)) picks) 0 v)
      as (v' & Hrun & Hqv' & Hexv' & Hfr & Hadd);
      [exact Hqv | exact Hex | exact Hit | exact Hchildren
      | rewrite length_take; lia |].
    rewrite Hrun in HW.
    assert (opts v' = opts w) as Ho'
      by (unfold opts; destruct Hfr as [Ho _ _ _ _ _ _ _]; now rewrite Ho).
    destruct (IH (S i) (drop (length (s_children it)) picks) v') as (H1 & H2 & H3 & H4).
    + lia.
    + exact Hqv'.
    + exact Hexv'.
    + rewrite Ho'. exact Hread.
    + rewrite length_drop. lia.
    + rewrite <- HW in H1, H2, H3, H4.
      split; [exact H1|]. split; [exact H2|]. split.
      * eapply IncludesFrame_trans; [exact Hfv|]. eapply IncludesFrame_trans; eassumption.
      * rewrite H4, Hadd, Hv, Ho'.
        change (opts v) with (opts w).
        cbn [map concat]. unfold includePagesOf at 1. cbn [app].
        rewrite <- !app_assoc. reflexivity.
Qed.

(** X13: when [summary.json] and every file it names can be read,
    [prepareExternalIncludes] plans one additional page per entry and per
    child, in the order of the summary, each entry followed by its
    children: entries at depth 1 in the includes folder, children at depth
    2 in the folder of their parent.  It takes one turn of the loop per
    file; then the promise is resolved and nothing is outstanding.  The
    ordinary page list is not touched. *)

(** ** The planning run to its end *)

Lemma in_pushIf (b : bool) (a x : Action) (l : list Action) :
  In x (pushIf b a l) -> In x l \/ (b = true /\ x = a).
Proof.
  unfold pushIf. destruct b; [|now left].
  intros H. apply in_app_or in H. destruct H as [H|[<-|[]]]; [now left | now right].
Qed.

(** An action is in the list only when the condition it was pushed under
    holds. *)
Lemma everythingActions_guards e w a :
  In a (everythingActions e w) ->
  (a = APrepareRoutes -> hasRoutes (routes (current (dependenciesEngine w))) = true) /\
  (a = APrepareCoverage -> disableCoverage (opts w) = false) /\
  (a = APrepareExternalIncludes -> includes (opts w) <> "") /\
  a <> AProcessMarkdowns.
Proof.
  unfold everythingActions. cbv zeta. intros H.
  repeat (apply in_pushIf in H; destruct H as [H|[Hb ->]]);
    [destruct H as [<-|[<-|[]]] | ..]; repeat split; try discriminate; intros _.
  - exact Hb.
  - now apply negb_true_iff in Hb.
  - apply negb_true_iff in Hb. now apply String.eqb_neq in Hb.
Qed.

Lemma resolveCont_seq w0 v rest k :
  PlanFrame w0 v -> microtasks v = [] -> pendingIO v = [] ->
  let v' := resolveCont (ContSeq rest k) v in
  PlanFrame w0 v' /\ microtasks v' = [TSeq rest k] /\ pendingIO v' = [].
Proof.
  intros Hf Hm Hp. cbn [resolveCont]. unfold enqueue.
  split; [apply (PlanFrame_keep _ _ _ Hf); reflexivity|].
  split; [cbn; now rewrite Hm | exact Hp].
Qed.

(** The loop of [prepareComponents], from index [i] on, when every external
    template can be read: one turn per template, then the promise is
    resolved. *)
Lemma componentsLoop_run (e : Env) (c : Cont) (cs : list Component) :
  forall (i : nat) (picks : list nat) (w : World),
    quiescent w -> exited w = false ->
    drop i (components (data (md w))) = cs ->
    Forall (templateReadable e) cs ->
    length picks = length (List.filter hasTemplateUrl cs) ->
    exists v, run e picks (componentsLoop e cs i c w) = resolveCont c v /\ SamePlan w v.
Proof.
  induction cs as [|comp cs IH]; intros i picks w Hq Hex Hcs Hread Hlen.
  - destruct picks; [|discriminate]. exists w. split; [reflexivity | apply SamePlan_refl].
  - assert (cs = drop (S i) (components (data (md w)))) as Hcs'.
    { assert (cs = drop 1 (drop i (components (data (md w))))) as H1
          by (rewrite Hcs; reflexivity).
      now rewrite drop_drop, Nat.add_1_r in H1. }
    apply Forall_cons in Hread. destruct Hread as [Hcomp Hread].
    destruct (componentAdded_plan e comp i w) as (Hsp & _ & _ & Hdrop).
    destruct Hq as [Hm Hp].
    cbn [List.filter] in Hlen.
    destruct (hasTemplateUrl comp) eqn:Hurl.
    + destruct picks as [|pick picks]; [discriminate|]. injection Hlen as Hlen.
      destruct (Hcomp Hurl) as [Hexists [data_ Hget]].
      rewrite (componentsLoop_template e comp cs i c w Hurl).
      unfold componentPlanned, handleTemplateurl. cbv zeta.
      change (resolve e (dirname e (c_file comp) +:+ sep e +:+ templateUrl comp))
        with (templatePath e comp).
      rewrite Hexists, Hget. cbn [negb].
      remember (componentAdded e comp i w) as w1 eqn:E1 in *. clear E1.
      change (run e (pick :: picks) ?x) with (run e picks (step e pick x)).
      rewrite (step_single_io e pick _ (TTemplate i (Ok data_) c)).
      2: { unfold exited. cbn. rewrite (sp_proc _ _ Hsp). exact Hex. }
      2: { cbn. now rewrite (sp_microtasks _ _ Hsp). }
      2: { cbn. now rewrite (sp_pendingIO _ _ Hsp), Hp. }
      cbn [exec templateDone].
      match goal with |- context [componentsLoop e _ (S i) c ?v0] => set (v2 := v0) end.
      assert (SamePlan w v2) as Hsp2.
      { destruct Hsp. constructor; subst v2; cbn; try assumption. now rewrite Hp. }
      destruct (IH (S i) picks v2) as (v & Hrun & Hspv).
      * split; [now rewrite (sp_microtasks _ _ Hsp2) | now rewrite (sp_pendingIO _ _ Hsp2)].
      * unfold exited. rewrite (sp_proc _ _ Hsp2). exact Hex.
      * change (components (data (md v2)))
          with (alter (withTemplateData data_) i (components (data (md w1)))).
        rewrite drop_alter. destruct (decide (S i <= i)); [lia|]. now rewrite Hdrop.
      * exact Hread.
      * exact Hlen.
      * exists v. split; [|eapply SamePlan_trans; eassumption].
        rewrite <- Hrun. f_equal. f_equal.
        change (components (data (md v2)))
          with (alter (withTemplateData data_) i (components (data (md w1)))).
        rewrite drop_alter. destruct (decide (S i <= i)); [lia|]. now rewrite Hdrop.
    + assert (componentsLoop e (comp :: cs) i c w
              = componentsLoop e cs (S i) c (componentAdded e comp i w))
        as -> by (unfold hasTemplateUrl in Hurl; simpl; rewrite Hurl; reflexivity).
      destruct (IH (S i) picks (componentAdded e comp i w)) as (v & Hrun & Hspv).
      * split; [now rewrite (sp_microtasks _ _ Hsp) | now rewrite (sp_pendingIO _ _ Hsp)].
      * unfold exited. rewrite (sp_proc _ _ Hsp). exact Hex.
      * now rewrite Hdrop.
      * exact Hread.
      * exact Hlen.
      * exists v. split; [exact Hrun | eapply SamePlan_trans; eassumption].
Qed.

(** One action of the sequence, run until its promise is resolved. *)
Lemma action_run (e : Env) (w0 w : World) (a : Action) (rest : list Action)
    (picks : list nat) :
  PlanFrame w0 w -> PlanSucceeds e w0 ->
  microtasks w = [TSeq (a :: rest) KEverything] -> pendingIO w = [] ->
  In a (everythingActions e w0) ->
  length picks = actionTurns e w0 a ->
  let w' := run e picks w in
  PlanFrame w0 w' /\ microtasks w' = [TSeq rest KEverything] /\ pendingIO w' = [].
Proof.
  intros Hf Hok Hm Hp Hin Hlen w'. subst w'.
  pose proof (pf_exited _ _ Hf) as Hex.
  destruct (everythingActions_guards e w0 a Hin) as (Hgr & Hgc & Hgi & Hgm).
  assert (opts w = opts w0) as Ho by apply Hf.
  destruct picks as [|pick picks].
  { destruct a; cbn [actionTurns] in Hlen; try discriminate Hlen.
    destruct (_ =? _) in Hlen; discriminate Hlen. }
  change (run e (pick :: picks) w) with (run e picks (step e pick w)).
  rewrite (step_micro e pick w _ _ Hex Hm). cbn [exec sequential].
  set (w1 := set_microtasks [] w).
  assert (PlanFrame w0 w1) as Hf1 by (apply (PlanFrame_keep _ _ _ Hf); reflexivity).
  assert (pendingIO w1 = []) as Hp1 by exact Hp.
  destruct a; cbn [runAction actionTurns] in Hlen |- *.
  - (* modules *)
    destruct picks; [|discriminate]. cbn [run fold_left].
    destruct (prepareModules_plan e w0 w1 Hf1) as (Hf2 & Hm2 & Hp2 & _).
    apply resolveCont_seq; [exact Hf2 | now rewrite Hm2 | now rewrite Hp2].
  - (* components *)
    injection Hlen as Hlen.
    unfold prepareComponents. cbv zeta.
    match goal with |- context [componentsLoop e _ 0 _ ?v0] => set (v1 := v0) end.
    assert (components (data (md v1)) = components (current (dependenciesEngine w0))) as Hcs
      by apply (se_components _ _ (pf_entries _ _ Hf)).
    destruct (componentsLoop_run e (ContSeq rest KEverything) (components (data (md v1)))
                0 picks v1) as (v & Hrun & Hsp).
    + split; [reflexivity | exact Hp].
    + exact Hex.
    + reflexivity.
    + rewrite Hcs. apply Hok.
    + now rewrite Hcs.
    + rewrite Hrun. apply resolveCont_seq.
      * eapply PlanFrame_same; [|exact Hsp]. apply (PlanFrame_keep _ _ _ Hf); reflexivity.
      * now rewrite (sp_microtasks _ _ Hsp).
      * rewrite (sp_pendingIO _ _ Hsp). exact Hp.
  - (* directives, injectables, pipes, classes, interfaces *)
    destruct picks; [|discriminate]. cbn [run fold_left].
    destruct (prepareItems_plan e k w1) as (Hsp & _).
    apply resolveCont_seq.
    + eapply PlanFrame_same; eassumption.
    + now rewrite (sp_microtasks _ _ Hsp).
    + now rewrite (sp_pendingIO _ _ Hsp).
  - (* routes *)
    unfold prepareRoutes. cbv zeta.
    match goal with |- context [if exportFormat (opts ?v0) =? _ then _ else _] =>
      change (exportFormat (opts v0)) with (exportFormat (opts w));
      change (output (md v0)) with (output (md w));
      change (routes (data (md v0))) with (routes (current (dependenciesEngine w)));
      set (v := v0)
    end.
    assert (PlanFrame w0 v) as Hfv by (apply (PlanFrame_keep _ _ _ Hf); reflexivity).
    rewrite Ho, (pf_output _ _ Hf), (se_routes _ _ (pf_entries _ _ Hf)).
    destruct (exportFormat (opts w0) =? defaultExportFormat e) eqn:Hfmt.
    + rewrite (ok_routes _ _ Hok (Hgr eq_refl)) by now apply String.eqb_eq.
      destruct picks as [|pick2 picks]; [discriminate|].
      destruct picks; [|discriminate].
      cbn [run fold_left].
      rewrite (step_single_io e pick2 _ (TRoutesIndex (Ok tt) (ContSeq rest KEverything)));
        [| exact Hex | reflexivity | unfold startIO; cbn; now rewrite Hp ].
      cbn [exec routesIndexDone].
      apply resolveCont_seq; [|reflexivity|reflexivity].
      apply (PlanFrame_keep _ _ _ Hfv); reflexivity.
    + destruct picks; [|discriminate]. cbn [run fold_left].
      apply resolveCont_seq; [exact Hfv | reflexivity | exact Hp].
  - (* miscellaneous *)
    destruct picks; [|discriminate]. cbn [run fold_left].
    destruct (prepareMiscellaneous_plan w1) as (Hsp & _).
    apply resolveCont_seq.
    + eapply PlanFrame_same; eassumption.
    + now rewrite (sp_microtasks _ _ Hsp).
    + now rewrite (sp_pendingIO _ _ Hsp).
  - (* coverage *)
    unfold prepareCoverage. cbv zeta.
    match goal with |- context [coverageCalculate e ?m] =>
      destruct (ok_coverage _ _ Hok (Hgc eq_refl) m) as [ps Hps]; rewrite Hps
    end.
    destruct picks as [|pick2 picks]; [discriminate|].
    destruct picks; [|discriminate].
    cbn [run fold_left].
    rewrite (step_single_io e pick2 _ (TCoverage (Ok ps) (ContSeq rest KEverything)));
      [| exact Hex | reflexivity | unfold startIO; cbn; now rewrite Hp ].
    cbn [exec coverageDone].
    match goal with |- context [fold_left _ ps ?v0] => set (v := v0) end.
    destruct (addPages_plan ps v) as (Hsp & _).
    apply resolveCont_seq.
    + eapply PlanFrame_same; [|exact Hsp]. apply (PlanFrame_keep _ _ _ Hf); reflexivity.
    + now rewrite (sp_microtasks _ _ Hsp).
    + now rewrite (sp_pendingIO _ _ Hsp).
  - (* external includes *)
    destruct (ok_includes _ _ Hok (Hgi eq_refl)) as (summaryData & items & Hget & Hparse & Hread).
    unfold summaryItems in Hlen. rewrite Hget, Hparse in Hlen. cbn [default] in Hlen.
    unfold prepareExternalIncludes. cbv zeta.
    match goal with |- context [fileGet e (cwd e +:+ sep e +:+ includes (opts ?v0) +:+ _)] =>
      change (fileGet e (cwd e +:+ sep e +:+ includes (opts v0) +:+ sep e +:+ "summary.json"))
        with (fileGet e (summaryPath e (opts w)))
    end.
    rewrite Ho, Hget.
    destruct picks as [|pick2 picks]; [discriminate|].
    injection Hlen as Hlen.
    change (run e (pick2 :: picks) ?x) with (run e picks (step e pick2 x)).
    rewrite (step_single_io e pick2 _ (TSummary (Ok summaryData) (ContSeq rest KEverything)));
      [| exact Hex | reflexivity | unfold startIO; cbn; now rewrite Hp ].
    cbn [exec summaryDone]. rewrite Hparse.
    match goal with |- context [includesLoop e items 0 _ ?v0] => set (v := v0) end.
    assert (opts v = opts w0) as Hov by exact Ho.
    destruct (includesLoop_run e items (ContSeq rest KEverything) (length items) 0 picks v)
      as (H1 & H2 & H3 & _).
    + apply Nat.sub_0_r.
    + split; reflexivity.
    + exact Hex.
    + rewrite Hov. exact Hread.
    + exact Hlen.
    + split; [|split; [exact H1 | exact H2]].
      destruct H3. apply (PlanFrame_keep w0 v); try assumption.
      apply (PlanFrame_keep _ _ _ Hf); reflexivity.
  - (* the root markdown documents are not an action of the full build *)
    now destruct Hgm.
Qed.

(** The whole sequence. *)
Lemma actions_run (e : Env) (w0 : World) (acts : list Action) :
  forall (picks : list nat) (w : World),
    PlanFrame w0 w -> PlanSucceeds e w0 ->
    microtasks w = [TSeq acts KEverything] -> pendingIO w = [] ->
    (forall a, In a acts -> In a (everythingActions e w0)) ->
    length picks = list_sum (map (actionTurns e w0) acts) ->
    microtasks (run e picks w) = [TSeq [] KEverything] /\ pendingIO (run e picks w) = [].
Proof.
  induction acts as [|a acts IH]; intros picks w Hf Hok Hm Hp Hin Hlen.
  - destruct picks; [|discriminate]. now split.
  - change (list_sum (map (actionTurns e w0) (a :: acts)))
      with (actionTurns e w0 a + list_sum (map (actionTurns e w0) acts)) in Hlen.
    rewrite <- (take_drop (actionTurns e w0 a) picks), run_app.
    destruct (action_run e w0 w a acts (take (actionTurns e w0 a) picks) Hf Hok Hm Hp)
      as (Hf' & Hm' & Hp').
    + apply Hin. now left.
    + rewrite length_take. lia.
    + apply IH; try assumption.
      * intros b Hb. apply Hin. now right.
      * rewrite length_drop. lia.
Qed.

(** ** The page list of a full build *)

(** Whenever the sequence of a full build has resolved, whatever happened
    on the way, the pages it planned are the section pages and those of the
    coverage report. *)
Lemma plan_when_resolved (e : Env) (w : World) (picks : list nat) :
  quiescent w -> exited w = false ->
  let w' := run e picks (prepareEverything e w) in
  microtasks w' = [TSeq [] KEverything] ->
  exists cov,
    pages (configuration w')
    = pages (configuration w) ++ plannedPages (current (dependenciesEngine w)) ++ cov /\
    coverageOf e cov /\ (disableCoverage (opts w) = true -> cov = []).
Proof.
  intros [Hm Hp] Hex w' Hdone.
  assert (PlanStage e w (prepareEverything e w)) as H0.
  { eapply (PS_seq e w _ [] (everythingActions e w) []).
    - constructor; try reflexivity; [|exact Hex].
      constructor; try reflexivity. apply Forall2_sameNameId_refl.
    - reflexivity.
    - now left.
    - unfold prepareEverything. cbn. now rewrite Hm.
    - exact Hp.
    - unfold plannedSoFar. simpl. now rewrite app_nil_r. }
  pose proof (PlanStage_run e w _ picks H0) as H. fold w' in H.
  destruct H as [done rest cov Hf Hacts Hcov Hm' Hp' Hpl
                | ? ? ? ? ? _ _ _ Hm' | ? ? ? ? _ _ _ Hm' | ? ? ? ? _ _ _ Hm'
                | Hm' _ | Hm' _]; try (rewrite Hm' in Hdone; discriminate Hdone).
  - rewrite Hm' in Hdone. injection Hdone as ->. rewrite app_nil_r in Hacts. subst done.
    unfold plannedSoFar in Hpl. rewrite app_nil_r, everythingActions_pages in Hpl.
    exists (if disableCoverage (opts w) then [] else cov). split; [exact Hpl|]. split.
    + destruct (disableCoverage (opts w)); [now left | exact Hcov].
    + now intros ->.
  - rewrite Hdone in Hm'. inversion Hm' as [|? ? Hbad]. destruct Hbad.
Qed.

(** The section pages: which sections have item pages, and which root
    pages there are. *)
Lemma plannedPages_sections (c : Collection) :
  (forall k, (exists p, In p (plannedPages c) /\ p_context p = kindContext k) <->
             getItems k c <> []) /\
  ((exists p, In p (plannedPages c) /\ p_context p = "module") <-> modules c <> []) /\
  ((exists p, In p (plannedPages c) /\ p_context p = "component") <-> components c <> []) /\
  (forall p, In p (plannedPages c) -> p_pageType p = Some ROOT ->
             p = modulesRootPage \/ p = routesRootPage).
Proof.
  split; [|split; [|split]].
  - intros k. split.
    + intros (p & Hin & Hctx). apply nonempty_member.
      destruct (in_plannedPages c p Hin)
        as [-> | [(m & j & _ & ->) | [(x & j & _ & ->) | [(k' & x & j & Hx & ->)
           | [[-> _] | [g ->]]]]]];
        try (destruct k; discriminate Hctx).
      exists x. destruct k, k'; try discriminate Hctx; exact Hx.
    + intros Hne. apply nonempty_member in Hne. destruct Hne as [x Hx].
      destruct (plannedPages_items c k x Hx) as [j Hj]. exists (itemPage k x j).
      split; [exact Hj | reflexivity].
  - split.
    + intros (p & Hin & Hctx). apply nonempty_member.
      destruct (in_plannedPages c p Hin)
        as [-> | [(m & j & Hx & ->) | [(x & j & _ & ->) | [(k' & x & j & _ & ->)
           | [[-> _] | [g ->]]]]]];
        try discriminate Hctx; try (destruct k'; discriminate Hctx).
      now exists m.
    + intros Hne. destruct (pagesFrom_head modulePage _ Hne) as (m & _ & Hin).
      exists (modulePage m 0). split; [|reflexivity].
      unfold plannedPages. apply in_or_app. left. now right.
  - split.
    + intros (p & Hin & Hctx). apply nonempty_member.
      destruct (in_plannedPages c p Hin)
        as [-> | [(m & j & _ & ->) | [(x & j & Hx & ->) | [(k' & x & j & _ & ->)
           | [[-> _] | [g ->]]]]]];
        try discriminate Hctx; try (destruct k'; discriminate Hctx).
      now exists x.
    + intros Hne. destruct (pagesFrom_head componentPage _ Hne) as (x & _ & Hin).
      exists (componentPage x 0). split; [|reflexivity].
      unfold plannedPages. apply in_or_app. right. apply in_or_app. now left.
  - intros p Hin Hroot.
    destruct (in_plannedPages c p Hin)
      as [-> | [(m & j & _ & ->) | [(x & j & _ & ->) | [(k' & x & j & _ & ->)
         | [[-> _] | [g ->]]]]]];
      try discriminate Hroot; auto.
Qed.

Lemma filter_none {A : Type} (f : A -> bool) (l : list A) :
  (forall x, In x l -> f x = false) -> List.filter f l = [].
Proof.
  induction l as [|x l IH]; intros H; [reflexivity|].
  cbn [List.filter]. rewrite (H x) by now left.
  apply IH. intros y Hy. apply H. now right.
Qed.

Lemma filter_pagesFrom_none {A : Type} (f : Page -> bool) (mk : A -> nat -> Page)
    (l : list A) (i : nat) :
  (forall x j, f (mk x j) = false) -> List.filter f (pagesFrom mk l i) = [].
Proof.
  intros H. apply filter_none. intros p Hp.
  apply in_pagesFrom in Hp. destruct Hp as (x & j & _ & ->). apply H.
Qed.

Lemma filter_miscPages_none (f : Page -> bool) (m : Miscellaneous) :
  (forall group, f (miscPage group) = false) -> List.filter f (miscPages m) = [].
Proof.
  intros H. apply filter_none. intros p Hp.
  apply in_miscPages in Hp. destruct Hp as (group & ->). apply H.
Qed.

(** The root page [modules] is planned once, the root page [routes] once
    when the route tree has children and not otherwise. *)
Lemma plannedPages_modules_root (c : Collection) :
  List.filter (hasContext "modules") (plannedPages c) = [modulesRootPage].
Proof.
  unfold plannedPages. rewrite !List.filter_app. cbn [List.filter].
  rewrite !filter_pagesFrom_none, filter_miscPages_none;
    try (intros; reflexivity).
  destruct (hasRoutes (routes c)); reflexivity.
Qed.

Lemma plannedPages_routes_root (c : Collection) :
  List.filter (hasContext "routes") (plannedPages c)
  = if hasRoutes (routes c) then [routesRootPage] else [].
Proof.
  unfold plannedPages. rewrite !List.filter_app. cbn [List.filter].
  rewrite !filter_pagesFrom_none, filter_miscPages_none;
    try (intros; reflexivity).
  destruct (hasRoutes (routes c)); reflexivity.
Qed.

Lemma noSection_context (ctx : string) (p : Page) :
  In ctx sectionContexts -> isSectionPage p = false -> hasContext ctx p = false.
Proof.
  intros Hin Hp. unfold hasContext. destruct (p_context p =? ctx) eqn:E; [|reflexivity].
  rewrite <- Hp. symmetry. apply existsb_exists. exists ctx. split; assumption.
Qed.

Lemma filter_noSection (ctx : string) (l : list Page) :
  In ctx sectionContexts -> noSectionPage l -> List.filter (hasContext ctx) l = [].
Proof.
  intros Hin Hl. apply filter_none. intros p Hp.
  apply (noSection_context ctx p Hin). unfold noSectionPage in Hl.
  rewrite List.Forall_forall in Hl. now apply Hl.
Qed.

Lemma section_page_planned (before planned cov : list Page) (p : Page) :
  noSectionPage before -> noSectionPage cov ->
  In p (before ++ planned ++ cov) -> isSectionPage p = true -> In p planned.
Proof.
  unfold noSectionPage. rewrite !List.Forall_forall. intros Hb Hc Hin Hp.
  apply in_app_or in Hin. destruct Hin as [Hin|Hin].
  { rewrite (Hb p Hin) in Hp. discriminate Hp. }
  apply in_app_or in Hin. destruct Hin as [Hin|Hin]; [exact Hin|].
  rewrite (Hc p Hin) in Hp. discriminate Hp.
Qed.

Lemma context_isSectionPage (ctx : string) (p : Page) :
  In ctx sectionContexts -> p_context p = ctx -> isSectionPage p = true.
Proof.
  intros Hin Hctx. apply existsb_exists. exists ctx. split; [exact Hin|].
  rewrite Hctx. apply String.eqb_refl.
Qed.

Lemma kindContext_section (k : Kind) : In (kindContext k) sectionContexts.
Proof. destruct k; cbn; tauto. Qed.

(** C2 (as amended): when no preparation action fails, the planning of a
    full build resolves after [planTurns] turns of the event loop with
    nothing outstanding, and it has appended to the page list it found the
    section pages in canonical order ([plannedPages]), followed by the
    pages of the coverage report.  When the page list held no section page
    before, and the coverage report registers none, the page list then
    holds item pages of a section if and only if the collection of that
    section is not empty (modules, components, directives, injectables,
    pipes, classes, interfaces); its only section root pages are [modules],
    which it holds exactly once, and [routes], which it holds exactly once
    if the route tree has children and not at all otherwise; components,
    pipes, classes, interfaces and the miscellaneous groups have no root
    page. *)
Theorem plan_of_full_build (e : Env) (w : World) (picks : list nat) :
  quiescent w -> exited w = false -> PlanSucceeds e w ->
  length picks = planTurns e w ->
  let c := current (dependenciesEngine w) in
  let w' := run e picks (prepareEverything e w) in
  let planned := pages (configuration w') in
  microtasks w' = [TSeq [] KEverything] /\ pendingIO w' = [] /\
  (exists cov,
      planned = pages (configuration w) ++ plannedPages c ++ cov /\
      coverageOf e cov /\ (disableCoverage (opts w) = true -> cov = [])) /\
  (noSectionPage (pages (configuration w)) ->
   (forall m ps, coverageCalculate e m = Ok ps -> noSectionPage ps) ->
   (forall k, (exists p, In p planned /\ p_context p = kindContext k) <->
              getItems k c <> []) /\
   ((exists p, In p planned /\ p_context p = "module") <-> modules c <> []) /\
   ((exists p, In p planned /\ p_context p = "component") <-> components c <> []) /\
   (forall p, In p planned -> isSectionPage p = true -> p_pageType p = Some ROOT ->
              p = modulesRootPage \/ p = routesRootPage) /\
   List.filter (hasContext "modules") planned = [modulesRootPage] /\
   List.filter (hasContext "routes") planned
   = if hasRoutes (routes c) then [routesRootPage] else []).
Proof.
  intros Hq Hex Hok Hlen c w' planned.
  assert (microtasks w' = [TSeq [] KEverything] /\ pendingIO w' = []) as [Hdone Hio].
  { subst w'. apply (actions_run e w (everythingActions e w)); try assumption.
    - constructor; try reflexivity; [|exact Hex].
      constructor; try reflexivity. apply Forall2_sameNameId_refl.
    - unfold prepareEverything, enqueue. cbn. destruct Hq as [-> _]. reflexivity.
    - apply Hq.
    - auto. }
  destruct (plan_when_resolved e w picks Hq Hex Hdone) as (cov & Hpages & Hcov & Hoff).
  fold w' c planned in Hpages.
  split; [exact Hdone|]. split; [exact Hio|]. split; [now exists cov|].
  intros Hbefore Hreport.
  assert (noSectionPage cov) as Hcov'.
  { destruct Hcov as [->|[m Hm]]; [constructor | eapply Hreport; exact Hm]. }
  destruct (plannedPages_sections c) as (Hitems & Hmodules & Hcomponents & Hroots).
  assert (forall p, In p (plannedPages c) -> In p planned) as Hin.
  { intros p Hp. rewrite Hpages. apply in_or_app. right. apply in_or_app. now left. }
  assert (forall p, In p planned -> isSectionPage p = true -> In p (plannedPages c)) as Hsec.
  { intros p Hp Hs. rewrite Hpages in Hp.
    exact (section_page_planned _ _ _ p Hbefore Hcov' Hp Hs). }
  split; [|split; [|split; [|split; [|split]]]].
  - intros k. rewrite <- (Hitems k). split; intros (p & Hp & Hctx); exists p; split; auto.
    apply Hsec; [exact Hp|].
    exact (context_isSectionPage _ p (kindContext_section k) Hctx).
  - rewrite <- Hmodules. split; intros (p & Hp & Hctx); exists p; split; auto.
    apply Hsec; [exact Hp|]. apply (context_isSectionPage "module"); [cbn; tauto | exact Hctx].
  - rewrite <- Hcomponents. split; intros (p & Hp & Hctx); exists p; split; auto.
    apply Hsec; [exact Hp|].
    apply (context_isSectionPage "component"); [cbn; tauto | exact Hctx].
  - intros p Hp Hs. apply Hroots. now apply Hsec.
  - rewrite Hpages, !List.filter_app, plannedPages_modules_root.
    rewrite !filter_noSection; [reflexivity | cbn; tauto | exact Hcov' | cbn; tauto | exact Hbefore].
  - rewrite Hpages, !List.filter_app, plannedPages_routes_root.
    rewrite !filter_noSection;
      [now rewrite app_nil_r | cbn; tauto | exact Hcov' | cbn; tauto | exact Hbefore].
Qed.

Lemma plan_of_full_build_witness :
  let w' := run quietEnv (fifo 5) (prepareEverything quietEnv pipedWorld) in
  microtasks w' = [TSeq [] KEverything] /\
  pages (configuration w')
  = [modulesRootPage; modulePage appModule 0; componentPage listComponent 0; routesRootPage;
     itemPage KPipe (mkItem "DatePipe" "pipe-DatePipe" "/project/src/date.pipe.ts" None) 0] /\
  List.filter (hasContext "modules") (pages (configuration w')) = [modulesRootPage].
Proof.
  intros w'.
  assert (PlanSucceeds quietEnv pipedWorld) as Hok.
  { constructor.
    - constructor; [intros H; vm_compute in H; discriminate H | constructor].
    - reflexivity.
    - intros H; discriminate H.
    - intros H. now destruct H. }
  destruct (plan_of_full_build quietEnv pipedWorld (fifo 5)
              ltac:(split; reflexivity) eq_refl Hok eq_refl)
    as (Hdone & _ & (cov & Hpages & _ & Hcov) & Hsections).
  fold w' in Hdone, Hpages, Hsections.
  split; [exact Hdone|]. split.
  - rewrite Hpages, (Hcov eq_refl). reflexivity.
  - apply Hsections.
    + constructor.
    + intros m ps H. injection H as <-. constructor.
Defined.

(** C2 as stated fails: the project has a component and a pipe, but the
    plan holds no root page for the components section, which the claim
    makes unconditional, and none for the pipes section, whose collection
    is not empty: the only root pages planned are [modules] and [routes]. *)
Lemma plan_without_components_and_pipes_root_pages :
  let w' := run quietEnv (fifo 5) (prepareEverything quietEnv pipedWorld) in
  microtasks w' = [TSeq [] KEverything] /\
  components (current (dependenciesEngine pipedWorld)) <> [] /\
  pipes (current (dependenciesEngine pipedWorld)) <> [] /\
  map p_name (List.filter (fun p => match p_pageType p with Some ROOT => true | _ => false end)
                (pages (configuration w')))
  = ["modules"; "routes"].
Proof. vm_compute. repeat split; discriminate. Qed.
